(** * Bot lifecycle and supervision engine (server/services/bot-manager.ts)

    A shallow embedding of the RADAR static analyser, the workspace
    materialiser, the dependency inferencer and installer, and the
    supervisor (start, stop and the stream / exit observers) of
    [BotManager], together with the properties the specification states
    about them.

    Text is a sequence of code units; the embedding uses 8-bit code units
    (U+0000 .. U+00FF), on which [toLowerCase], [trim], [\s] and [.] are
    written out as ECMAScript defines them for that range. *)

From Stdlib Require Import Ascii.
From Stdlib Require String.
From stdpp Require Import gmap strings list pretty.

Open Scope list_scope.

(** ** JavaScript strings *)

Module JS.

Abbreviation str := (list ascii).

(** A string literal as a sequence of code units. *)
Definition lit (x : string) : str := String.list_ascii_of_string x.

Definition code (c : ascii) : N := N_of_ascii c.

(** The double quote character, U+0022. *)
Definition dquote : ascii := "034".

(** The line feed, U+000A. *)
Definition newline : ascii := "010".

Definition in_range (lo hi : N) (c : ascii) : bool :=
  ((lo <=? code c) && (code c <=? hi))%N.

(** [String.prototype.toLowerCase] on U+0000 .. U+00FF: A-Z and the
    Latin-1 capitals U+00C0 .. U+00DE (U+00D7, the multiplication sign,
    apart) move up by 32. *)
Definition toLowerChar (c : ascii) : ascii :=
  if in_range 65 90 c || (in_range 192 222 c && negb (code c =? 215)%N)
  then ascii_of_N (code c + 32)
  else c.

Definition toLowerCase (s : str) : str := map toLowerChar s.

(** WhiteSpace and LineTerminator code units below U+0100: TAB, LF, VT,
    FF, CR, SP and NBSP. [trim] strips them and [\s] matches them. *)
Definition isSpace (c : ascii) : bool :=
  in_range 9 13 c || (code c =? 32)%N || (code c =? 160)%N.

(** LineTerminator code units below U+0100; [.] matches all the others. *)
Definition isLineTerminator (c : ascii) : bool :=
  (code c =? 10)%N || (code c =? 13)%N.

Fixpoint trimStart (s : str) : str :=
  match s with
  | c :: s' => if isSpace c then trimStart s' else s
  | [] => []
  end.

Definition trimEnd (s : str) : str := rev (trimStart (rev s)).

Definition trim (s : str) : str := trimEnd (trimStart s).

(** [s.startsWith(p)] *)
Fixpoint startsWith (s p : str) : bool :=
  match p, s with
  | [], _ => true
  | a :: p', b :: s' => if Ascii.eqb a b then startsWith s' p' else false
  | _ :: _, [] => false
  end.

(** [s.includes(p)] *)
Fixpoint includes (s p : str) : bool :=
  startsWith s p ||
  match s with
  | _ :: s' => includes s' p
  | [] => false
  end.

(** [s.endsWith(p)] *)
Definition endsWith (s p : str) : bool := startsWith (rev s) (rev p).

(** [s.split(sep)] for a one-character separator: the pieces between the
    separators, one more than there are separators. *)
Fixpoint split (s : str) (sep : ascii) : list str :=
  match s with
  | [] => [[]]
  | c :: s' =>
      if Ascii.eqb c sep then [] :: split s' sep
      else match split s' sep with
           | piece :: rest => (c :: piece) :: rest
           | [] => [[c]]
           end
  end.

(** [pieces.join(sep)] *)
Fixpoint join (pieces : list str) (sep : str) : str :=
  match pieces with
  | [] => []
  | [p] => p
  | p :: rest => p ++ sep ++ join rest sep
  end.

(** A number in a template literal. *)
Definition ofN (n : N) : str := lit (pretty n).

(** An exit code in a template literal: a number or [null]. *)
Definition ofCode (code : option Z) : str :=
  match code with
  | Some n => lit (pretty n)
  | None => lit "null"
  end.

(** [!x] for a string that may be null or undefined. *)
Definition falsy (x : option str) : bool :=
  match x with
  | None | Some [] => true
  | Some (_ :: _) => false
  end.

(** [x || y] on such strings. *)
Definition orElse (x y : option str) : option str :=
  if falsy x then y else x.

(** [Array.prototype.find] *)
Definition find {A : Type} (p : A -> bool) (l : list A) : option A :=
  List.find p l.

(** The substitution template of [String.prototype.replace] when the
    replacement is a string (GetSubstitution): [$$] is a dollar sign, [$&]
    the matched text, [$`] the text before the match and [$'] the text
    after it. The patterns of this program have no capture groups, so [$1]
    and the like stay as they are written. *)
Fixpoint getSubstitution (matched before after repl : str) : str :=
  match repl with
  | [] => []
  | c :: t =>
      if Ascii.eqb c "$" then
        match t with
        | d :: t' =>
            if Ascii.eqb d "$" then c :: getSubstitution matched before after t'
            else if Ascii.eqb d "&" then matched ++ getSubstitution matched before after t'
            else if Ascii.eqb d "`" then before ++ getSubstitution matched before after t'
            else if Ascii.eqb d "'" then after ++ getSubstitution matched before after t'
            else c :: getSubstitution matched before after t
        | [] => [c]
        end
      else c :: getSubstitution matched before after t
  end.

End JS.

Import JS.

(** ** Regular expressions

    The fragment of ECMAScript patterns the program uses: literal
    characters, character classes, concatenation, ordered alternation and
    the greedy star of a one-character class ([\s*], [.*]). Matching is
    the backtracking matcher of the language: alternatives are tried left
    to right, a star takes as much as it can and gives back one character
    at a time. *)

Module Regex.

Inductive regex : Type :=
| Eps
| Chr (c : ascii)
| Cls (p : ascii -> bool)
| Cat (r1 r2 : regex)
| Alt (r1 r2 : regex)
| StarCls (p : ascii -> bool).

(** Canonicalize of the [i] flag, for patterns written in ASCII: a-z are
    compared as A-Z, and no code unit above U+007F is identified with an
    ASCII one. *)
Definition canonicalize (c : ascii) : ascii :=
  if in_range 97 122 c then ascii_of_N (code c - 32) else c.

Definition charMatches (ignoreCase : bool) (c x : ascii) : bool :=
  if ignoreCase then Ascii.eqb (canonicalize c) (canonicalize x)
  else Ascii.eqb c x.

Fixpoint starMatch (p : ascii -> bool) (k : str -> option str) (s : str)
  : option str :=
  match s with
  | x :: s' =>
      if p x then
        match starMatch p k s' with
        | Some rest => Some rest
        | None => k s
        end
      else k s
  | [] => k []
  end.

(** [matchK ic r k s]: match [r] at the start of [s] and hand what is left
    to the continuation [k]; the answer is the text after the whole match. *)
Fixpoint matchK (ignoreCase : bool) (r : regex) (k : str -> option str)
  (s : str) : option str :=
  match r with
  | Eps => k s
  | Chr c =>
      match s with
      | x :: s' => if charMatches ignoreCase c x then k s' else None
      | [] => None
      end
  | Cls p =>
      match s with
      | x :: s' => if p x then k s' else None
      | [] => None
      end
  | Cat r1 r2 => matchK ignoreCase r1 (matchK ignoreCase r2 k) s
  | Alt r1 r2 =>
      match matchK ignoreCase r1 k s with
      | Some rest => Some rest
      | None => matchK ignoreCase r2 k s
      end
  | StarCls p => starMatch p k s
  end.

(** A match anchored at the first character: the text after the match. *)
Definition matchAt (ignoreCase : bool) (r : regex) (s : str) : option str :=
  matchK ignoreCase r Some s.

(** [pattern.test(s)] for a pattern without the [g] flag: is there a match
    starting anywhere in [s]. *)
Fixpoint test (ignoreCase : bool) (r : regex) (s : str) : bool :=
  match matchAt ignoreCase r s with
  | Some _ => true
  | None =>
      match s with
      | _ :: s' => test ignoreCase r s'
      | [] => false
      end
  end.

(** [s.replace(pattern, repl)] for a pattern with the [g] flag and a
    string replacement: the matches are found left to right, each one
    starting where the previous one ended, and every match is replaced by
    the expansion of the template. [before] is the text already passed and
    [skip] the number of characters of the current match still to pass. *)
Fixpoint replaceFrom (r : regex) (repl : str) (before : str) (skip : nat)
  (s : str) : str :=
  match s with
  | [] =>
      match skip, matchAt false r [] with
      | 0, Some _ => getSubstitution [] before [] repl
      | _, _ => []
      end
  | c :: s' =>
      match skip with
      | S n => replaceFrom r repl (before ++ [c]) n s'
      | 0 =>
          match matchAt false r s with
          | Some rest =>
              let len := length s - length rest in
              let matched := take len s in
              match len with
              | 0 => getSubstitution [] before s repl
                     ++ c :: replaceFrom r repl (before ++ [c]) 0 s'
              | S n => getSubstitution matched before rest repl
                       ++ replaceFrom r repl (before ++ [c]) n s'
              end
          | None => c :: replaceFrom r repl (before ++ [c]) 0 s'
          end
      end
  end.

Definition replaceAll (r : regex) (repl : str) (s : str) : str :=
  replaceFrom r repl [] 0 s.

(** Pattern builders. *)
Fixpoint word (w : str) : regex :=
  match w with
  | [] => Eps
  | [c] => Chr c
  | c :: w' => Cat (Chr c) (word w')
  end.

Definition kw (w : string) : regex := word (lit w).

Fixpoint alts (rs : list regex) : regex :=
  match rs with
  | [] => Cls (fun _ => false)
  | [r] => r
  | r :: rs' => Alt r (alts rs')
  end.

Fixpoint cats (rs : list regex) : regex :=
  match rs with
  | [] => Eps
  | [r] => r
  | r :: rs' => Cat r (cats rs')
  end.

(** [\s*] *)
Definition spaces : regex := StarCls isSpace.
(** [.*] *)
Definition anything : regex := StarCls (fun c => negb (isLineTerminator c)).
(** [[0-9a-f]]; under the [i] flag the class also takes A-F. *)
Definition hexDigit : regex :=
  Cls (fun c => in_range 48 57 c || in_range 97 102 c || in_range 65 70 c).
(** The class of the two quote characters, single and double. *)
Definition quote : regex :=
  Cls (fun c => Ascii.eqb c "'" || Ascii.eqb c dquote).

(** A pattern literal: its source text and its meaning. *)
Record pattern : Type := Pattern { source : str; re : regex }.

End Regex.

Import Regex.

(** ** Persisted entities (shared/schema.ts) *)

(** A bot file as the engine reads it: [{ filename, content }]. *)
Record BotFile : Type := File { filename : str; content : str }.

(** The [status] column: 'stopped', 'starting', 'running', 'error'. *)
Module Status.
Inductive t : Type := stopped | starting | running | error.
End Status.

(** The [type] column of a log record: 'info', 'error', 'warn'. *)
Module LogType.
Inductive t : Type := info | error | warn.
End LogType.

(** The columns of [bots] the engine reads or writes. [mainFile],
    [processId] and [lastStarted] are nullable. *)
Record Bot : Type :=
  { token : str;
    language : str;
    mainFile : option str;
    status : Status.t;
    processId : option Z;
    memoryUsage : str;
    cpuUsage : str;
    uptime : str;
    lastStarted : option Z }.

(** [Partial<Bot>] as the engine passes it to [updateBot]: the columns
    that are set, each to its new value. *)
Record BotPatch : Type :=
  { setStatus : option Status.t;
    setProcessId : option (option Z);
    setMemoryUsage : option str;
    setCpuUsage : option str;
    setLastStarted : option (option Z) }.

(** [InsertBotLog] *)
Record BotLog : Type :=
  { botId : str; type : LogType.t; message : str }.

(** ** RADAR: static analysis of the uploaded code *)

Module RADARSystem.

Definition suspiciousPatterns : list pattern :=
  [ (* Mining patterns *)
    Pattern (lit "mining|miner|crypto|bitcoin|ethereum|monero|xmr|btc|eth")
      (alts [kw "mining"; kw "miner"; kw "crypto"; kw "bitcoin"; kw "ethereum";
             kw "monero"; kw "xmr"; kw "btc"; kw "eth"]);
    Pattern (lit "hashrate|difficulty|pool|stratum")
      (alts [kw "hashrate"; kw "difficulty"; kw "pool"; kw "stratum"]);
    Pattern (lit "gpu|cuda|opencl|amd|nvidia")
      (alts [kw "gpu"; kw "cuda"; kw "opencl"; kw "amd"; kw "nvidia"]);
    (* Network abuse patterns *)
    Pattern (lit "ddos|flood|spam|attack|exploit")
      (alts [kw "ddos"; kw "flood"; kw "spam"; kw "attack"; kw "exploit"]);
    Pattern (lit "proxy|vpn|tor|onion")
      (alts [kw "proxy"; kw "vpn"; kw "tor"; kw "onion"]);
    Pattern (lit "botnet|zombie|malware")
      (alts [kw "botnet"; kw "zombie"; kw "malware"]);
    (* Resource abuse patterns *)
    Pattern (lit "infinite|while\s*\(\s*true\s*\)|for\s*\(\s*;\s*;\s*\)")
      (alts [kw "infinite";
             cats [kw "while"; spaces; kw "("; spaces; kw "true"; spaces; kw ")"];
             cats [kw "for"; spaces; kw "("; spaces; kw ";"; spaces; kw ";";
                   spaces; kw ")"]]);
    Pattern (lit "fork|spawn.*spawn|exec.*exec")
      (alts [kw "fork";
             cats [kw "spawn"; anything; kw "spawn"];
             cats [kw "exec"; anything; kw "exec"]]);
    Pattern (lit "memory.*allocation|malloc.*malloc")
      (alts [cats [kw "memory"; anything; kw "allocation"];
             cats [kw "malloc"; anything; kw "malloc"]])
  ].

Definition obfuscationIndicators : list pattern :=
  [ Pattern (lit "eval\s*\(") (cats [kw "eval"; spaces; kw "("]);
    Pattern (lit "exec\s*\(") (cats [kw "exec"; spaces; kw "("]);
    Pattern (lit "\\x[0-9a-f]{2}") (cats [kw "\x"; hexDigit; hexDigit]);
    Pattern (lit "\\u[0-9a-f]{4}")
      (cats [kw "\u"; hexDigit; hexDigit; hexDigit; hexDigit])
  ].

Record Analysis : Type :=
  { isSuspicious : bool; reasons : list str; riskScore : N }.

(** [pattern.source.split('|')[0]] *)
Definition patternName (p : pattern) : str :=
  match split (source p) "|" with
  | name :: _ => name
  | [] => []
  end.

(** One turn of the loop over [suspiciousPatterns]; the state is the pair
    of [reasons] and [riskScore]. All patterns carry the [i] flag. *)
Definition checkPattern (file : BotFile) (lowered : str)
  (acc : list str * N) (p : pattern) : list str * N :=
  if test true (re p) lowered then
    (acc.1 ++ [lit "Suspicious pattern detected in " ++ filename file
               ++ lit ": " ++ patternName p],
     (acc.2 + 10)%N)
  else acc.

(** One turn of the loop over [obfuscationIndicators]. *)
Definition checkIndicator (file : BotFile) (lowered : str)
  (acc : list str * N) (p : pattern) : list str * N :=
  if test true (re p) lowered then
    (acc.1 ++ [lit "Potential code obfuscation in " ++ filename file],
     (acc.2 + 15)%N)
  else acc.

(** The check for excessive length: more than 10000 lines. *)
Definition checkLength (file : BotFile) (lowered : str)
  (acc : list str * N) : list str * N :=
  let lines := split lowered newline in
  if (10000 <? N.of_nat (length lines))%N then
    (acc.1 ++ [lit "Large file detected: " ++ filename file ++ lit " ("
               ++ ofN (N.of_nat (length lines)) ++ lit " lines)"],
     (acc.2 + 5)%N)
  else acc.

(** The body of the loop over the files. *)
Definition analyzeFile (acc : list str * N) (file : BotFile)
  : list str * N :=
  let lowered := toLowerCase (content file) in
  let acc1 := fold_left (checkPattern file lowered) suspiciousPatterns acc in
  let acc2 := checkLength file lowered acc1 in
  fold_left (checkIndicator file lowered) obfuscationIndicators acc2.

Definition analyzeCode (files : list BotFile) : Analysis :=
  let acc := fold_left analyzeFile files ([], 0%N) in
  {| isSuspicious := (20 <? acc.2)%N;
     reasons := acc.1;
     riskScore := acc.2 |}.

End RADARSystem.

(** ** The engine: BotManager *)

Module BotManager.

(** *** The world around the engine *)

Inductive Signal : Type := SIGTERM | SIGKILL.

(** What [spawn] was asked to run. *)
Record ChildProcess : Type :=
  { pid : option Z;
    command : str;
    args : list str;
    cwd : str;
    env : list (str * str) }.

(** How a package-tool command ends: it exits with a code (null when a
    signal ended it) having written [stderr], it cannot be spawned, or the
    timer of [runCommand] fires first, the tool having written [stderr]
    by then. *)
Inductive CommandOutcome : Type :=
| Exited (code : option Z) (stderr : str)
| SpawnFailed (msg : str)
| TimedOut (stderr : str).

(** What the engine does not decide: the environment of the server, the
    clock, the faults of the file system, the package tools, the JSON
    parser and the pid the operating system gives a child. *)
Record World : Type :=
  { processEnv : list (str * str);
    now : Z;
    mkdirError : str -> option str;
    writeFileError : str -> str -> option str;
    rmError : str -> option str;
    commandOutcome : str -> list str -> CommandOutcome;
    jsonParseError : str -> option str;
    spawnPid : option Z }.

(** [{ success, message }] *)
Module Result.
Record t : Type := Make { success : bool; message : str }.
End Result.

(** What the engine does to the map of handles and to the rows of the
    bots, in the order in which it does it. *)
Inductive Effect : Type :=
| HandleSet (id : str) (child : ChildProcess)
| HandleDeleted (id : str)
| BotUpdated (id : str) (patch : BotPatch).

(** *** The state

    [processes] is the map of Process Handles; [bots], [botFiles] and
    [botLogs] are the store behind [storage] (log records in the order
    they were created); [disk] is [bot_workspace]: a directory per bot id
    holding files by name; [signals] are the signals sent to children, in
    order; [console] holds the lines written by [console.error] with one
    string argument; [pendingStops] are the calls of [stopBot] waiting for
    their child to exit, each with the child it signalled; [replies] are
    the results returned to callers of [startBot] and [stopBot]; [journal]
    lists the changes of the handle map and of the bot rows as they are
    made.

    A call of the store takes effect when it is made, so updates reach the
    store in the order the engine issues them. *)
Record State : Type :=
  { processes : gmap str ChildProcess;
    bots : gmap str Bot;
    botFiles : gmap str (list BotFile);
    botLogs : list BotLog;
    disk : gmap str (gmap str str);
    signals : list (ChildProcess * Signal);
    console : list str;
    pendingStops : list (str * ChildProcess);
    replies : list (str * Result.t);
    journal : list Effect }.

Definition withProcesses (f : gmap str ChildProcess -> gmap str ChildProcess)
  (s : State) : State :=
  {| processes := f (processes s); bots := bots s; botFiles := botFiles s;
     botLogs := botLogs s; disk := disk s; signals := signals s;
     console := console s; pendingStops := pendingStops s;
     replies := replies s; journal := journal s |}.

Definition withBots (f : gmap str Bot -> gmap str Bot) (s : State) : State :=
  {| processes := processes s; bots := f (bots s); botFiles := botFiles s;
     botLogs := botLogs s; disk := disk s; signals := signals s;
     console := console s; pendingStops := pendingStops s;
     replies := replies s; journal := journal s |}.

Definition withBotLogs (f : list BotLog -> list BotLog) (s : State) : State :=
  {| processes := processes s; bots := bots s; botFiles := botFiles s;
     botLogs := f (botLogs s); disk := disk s; signals := signals s;
     console := console s; pendingStops := pendingStops s;
     replies := replies s; journal := journal s |}.

Definition withDisk (f : gmap str (gmap str str) -> gmap str (gmap str str))
  (s : State) : State :=
  {| processes := processes s; bots := bots s; botFiles := botFiles s;
     botLogs := botLogs s; disk := f (disk s); signals := signals s;
     console := console s; pendingStops := pendingStops s;
     replies := replies s; journal := journal s |}.

Definition withSignals
  (f : list (ChildProcess * Signal) -> list (ChildProcess * Signal))
  (s : State) : State :=
  {| processes := processes s; bots := bots s; botFiles := botFiles s;
     botLogs := botLogs s; disk := disk s; signals := f (signals s);
     console := console s; pendingStops := pendingStops s;
     replies := replies s; journal := journal s |}.

Definition withConsole (f : list str -> list str) (s : State) : State :=
  {| processes := processes s; bots := bots s; botFiles := botFiles s;
     botLogs := botLogs s; disk := disk s; signals := signals s;
     console := f (console s); pendingStops := pendingStops s;
     replies := replies s; journal := journal s |}.

Definition withPendingStops
  (f : list (str * ChildProcess) -> list (str * ChildProcess))
  (s : State) : State :=
  {| processes := processes s; bots := bots s; botFiles := botFiles s;
     botLogs := botLogs s; disk := disk s; signals := signals s;
     console := console s; pendingStops := f (pendingStops s);
     replies := replies s; journal := journal s |}.

Definition withReplies (f : list (str * Result.t) -> list (str * Result.t))
  (s : State) : State :=
  {| processes := processes s; bots := bots s; botFiles := botFiles s;
     botLogs := botLogs s; disk := disk s; signals := signals s;
     console := console s; pendingStops := pendingStops s;
     replies := f (replies s); journal := journal s |}.

Definition withJournal (f : list Effect -> list Effect) (s : State) : State :=
  {| processes := processes s; bots := bots s; botFiles := botFiles s;
     botLogs := botLogs s; disk := disk s; signals := signals s;
     console := console s; pendingStops := pendingStops s;
     replies := replies s; journal := f (journal s) |}.

(** *** Code that reads and writes the state and may throw

    A thrown value is an [Error]; what the engine reads of it is its
    message. *)
Inductive outcome (A : Type) : Type :=
| Ok (a : A)
| Throw (msg : str).
Arguments Ok {A} a.
Arguments Throw {A} msg.

Definition M (A : Type) : Type := State -> outcome A * State.

#[export] Instance M_ret : MRet M := fun A a s => (Ok a, s).

#[export] Instance M_bind : MBind M := fun A B f m s =>
  match m s with
  | (Ok a, s') => f a s'
  | (Throw msg, s') => (Throw msg, s')
  end.

Definition throw {A : Type} (msg : str) : M A := fun s => (Throw msg, s).

(** [try { body } catch (error) { handler(error.message) }] *)
Definition tryCatch {A : Type} (body : M A) (handler : str -> M A) : M A :=
  fun s =>
    match body s with
    | (Ok a, s') => (Ok a, s')
    | (Throw msg, s') => handler msg s'
    end.

Definition gets {A : Type} (f : State -> A) : M A := fun s => (Ok (f s), s).

Definition modify (f : State -> State) : M unit := fun s => (Ok tt, f s).

(** *** The store: [storage] *)

Definition applyPatch (p : BotPatch) (b : Bot) : Bot :=
  {| token := token b;
     language := language b;
     mainFile := mainFile b;
     status := default (status b) (setStatus p);
     processId := default (processId b) (setProcessId p);
     memoryUsage := default (memoryUsage b) (setMemoryUsage p);
     cpuUsage := default (cpuUsage b) (setCpuUsage p);
     uptime := uptime b;
     lastStarted := default (lastStarted b) (setLastStarted p) |}.

Definition getBot (id : str) : M (option Bot) := gets (fun s => bots s !! id).

(** The store after [updateBot]: the row is changed when there is one. *)
Definition persist (id : str) (p : BotPatch) (s : State) : State :=
  withJournal (fun done => done ++ [BotUpdated id p])
    (withBots (alter (applyPatch p) id) s).

Definition updateBot (id : str) (p : BotPatch) : M unit :=
  modify (persist id p).

Definition getBotFiles (id : str) : M (list BotFile) :=
  gets (fun s => default [] (botFiles s !! id)).

Definition createBotLog (log : BotLog) : M unit :=
  modify (withBotLogs (fun logs => logs ++ [log])).

(** [{ status }] *)
Definition statusOnly (st : Status.t) : BotPatch :=
  {| setStatus := Some st; setProcessId := None; setMemoryUsage := None;
     setCpuUsage := None; setLastStarted := None |}.

(** [{ status, processId: null, memoryUsage: '0MB', cpuUsage: '0%' }] *)
Definition cleared (st : Status.t) : BotPatch :=
  {| setStatus := Some st; setProcessId := Some None;
     setMemoryUsage := Some (lit "0MB"); setCpuUsage := Some (lit "0%");
     setLastStarted := None |}.

(** *** The file system under [workspaceDir] and the console

    A directory is kept under the id of its bot and a file under the name
    it is written with. That is the place [path.join] gives for an id and
    a name that are one segment of a path each (not empty, not [.] or
    [..], without [/]); [path.join] resolves other names to other places,
    which this model does not follow. *)

(** [fs.mkdir(dir, { recursive: true })] *)
Definition mkdir (w : World) (dir : str) : M unit :=
  match mkdirError w dir with
  | Some msg => throw msg
  | None =>
      modify (withDisk (fun d =>
        match d !! dir with
        | Some _ => d
        | None => <[dir := ∅]> d
        end))
  end.

(** [fs.writeFile(path.join(dir, name), text)] *)
Definition writeFile (w : World) (dir name text : str) : M unit :=
  match writeFileError w dir name with
  | Some msg => throw msg
  | None =>
      files ← gets (fun s => disk s !! dir);
      match files with
      | Some fs => modify (withDisk (<[dir := <[name := text]> fs]>))
      | None => throw (lit "ENOENT: no such file or directory")
      end
  end.

(** [fs.access(path.join(dir, name)).then(() => true).catch(() => false)] *)
Definition access (dir name : str) : M bool :=
  gets (fun s => bool_decide (is_Some (disk s !! dir ≫= (.!! name)))).

(** [fs.readFile(path.join(dir, name), 'utf-8')] *)
Definition readFile (dir name : str) : M str :=
  found ← gets (fun s => disk s !! dir ≫= (.!! name));
  match found with
  | Some text => mret text
  | None => throw (lit "ENOENT: no such file or directory")
  end.

(** [fs.rm(dir, { recursive: true, force: true })] *)
Definition rm (w : World) (dir : str) : M unit :=
  match rmError w dir with
  | Some msg => throw msg
  | None => modify (withDisk (delete dir))
  end.

(** [console.error(line)] *)
Definition consoleError (line : str) : M unit :=
  modify (withConsole (fun lines => lines ++ [line])).

(** *** Workspace materialisation *)

(** [/YOUR_BOT_TOKEN|"YOUR_BOT_TOKEN"|'YOUR_BOT_TOKEN'/g] *)
Definition placeholderPattern : regex :=
  alts [kw "YOUR_BOT_TOKEN";
        cats [Chr dquote; kw "YOUR_BOT_TOKEN"; Chr dquote];
        kw "'YOUR_BOT_TOKEN'"].

(** [/process\.env\.DISCORD_TOKEN|process\.env\.BOT_TOKEN|process\.env\.TOKEN/g] *)
Definition processEnvPattern : regex :=
  alts [kw "process.env.DISCORD_TOKEN"; kw "process.env.BOT_TOKEN";
        kw "process.env.TOKEN"].

(** The two forms of [os.environ] for the key DISCORD_TOKEN, [.get(..)] and
    [[..]], the key in single or double quotes. *)
Definition osEnvironPattern : regex :=
  alts [cats [kw "os.environ.get("; quote; kw "DISCORD_TOKEN"; quote; kw ")"];
        cats [kw "os.environ["; quote; kw "DISCORD_TOKEN"; quote; kw "]"]].

(** [os.getenv(..)] for the key DISCORD_TOKEN, in single or double quotes. *)
Definition osGetenvPattern : regex :=
  cats [kw "os.getenv("; quote; kw "DISCORD_TOKEN"; quote; kw ")"].

(** The template literal that wraps the token in double quotes. *)
Definition quoted (botToken : str) : str := dquote :: botToken ++ [dquote].

(** The four [content.replace] calls, in their order. *)
Definition substituteToken (botToken : str) (text : str) : str :=
  let c1 := replaceAll placeholderPattern (quoted botToken) text in
  let c2 := replaceAll processEnvPattern (quoted botToken) c1 in
  let c3 := replaceAll osEnvironPattern (quoted botToken) c2 in
  replaceAll osGetenvPattern (quoted botToken) c3.

(** The loop over the files. *)
Fixpoint writeFiles (w : World) (botDir : str) (files : list BotFile)
  (botToken : str) : M unit :=
  match files with
  | [] => mret tt
  | file :: rest =>
      writeFile w botDir (filename file)
        (substituteToken botToken (content file));;
      writeFiles w botDir rest botToken
  end.

(** The directory of a bot is [path.join(workspaceDir, botId)]; the model
    names it by the bot id. *)
Definition createBotWorkspace (w : World) (botId : str)
  (files : list BotFile) (botToken : str) : M str :=
  let botDir := botId in
  mkdir w botDir;;
  writeFiles w botDir files botToken;;
  mret botDir.

(** *** Dependency inference *)

(** [imports.add(pin)] on a [Set], which keeps insertion order. *)
Definition add (pin : string) (imports : list str) : list str :=
  if bool_decide (lit pin ∈ imports) then imports else imports ++ [lit pin].

(** [if (test) imports.add(pin)] *)
Definition addIf (test : bool) (pin : string) (imports : list str)
  : list str :=
  if test then add pin imports else imports.

(** [s.includes(p)] for a literal [p]. *)
Definition has (s : str) (p : string) : bool := includes s (lit p).

(** The body of the loop over the lines of a Python file. *)
Definition scanLine (imports : list str) (line : str) : list str :=
  let cleanLine := toLowerCase (trim line) in
  let i1 := addIf (has cleanLine "discord.py" || has cleanLine "import discord"
                   || has cleanLine "from discord")
              "discord.py>=2.3.0" imports in
  let i2 := addIf (has cleanLine "aiohttp" || has cleanLine "import aiohttp")
              "aiohttp>=3.8.0" i1 in
  let i3 := addIf (has cleanLine "requests" || has cleanLine "import requests")
              "requests>=2.28.0" i2 in
  let i4 := addIf (has cleanLine "asyncio" || has cleanLine "import asyncio")
              "asyncio" i3 in
  let i5 := addIf (has cleanLine "json" || has cleanLine "import json")
              "json5>=0.9.0" i4 in
  let i6 := addIf (has cleanLine "sqlite3" || has cleanLine "import sqlite3")
              "sqlite3" i5 in
  let i7 := addIf (has cleanLine "mysql" || has cleanLine "pymysql")
              "PyMySQL>=1.0.0" i6 in
  let i8 := addIf (has cleanLine "postgres" || has cleanLine "psycopg")
              "psycopg2-binary>=2.9.0" i7 in
  addIf (has cleanLine "dotenv" || has cleanLine "python-dotenv")
    "python-dotenv>=0.19.0" i8.

(** The body of the loop over the Python files. *)
Definition scanPythonFile (imports : list str) (file : BotFile) : list str :=
  fold_left scanLine (split (content file) newline) imports.

Definition isPythonFile (f : BotFile) : bool := endsWith (filename f) (lit ".py").

Definition isJsFile (f : BotFile) : bool :=
  endsWith (filename f) (lit ".js") || endsWith (filename f) (lit ".ts").

(** The pins written to requirements.txt, none when the list is empty. *)
Definition pythonImports (files : list BotFile) : list str :=
  let pythonFiles := List.filter isPythonFile files in
  let imports := fold_left scanPythonFile pythonFiles [] in
  if (length imports =? 0) && (0 <? length pythonFiles)
  then add "discord.py>=2.3.0" imports
  else imports.

(** [dependencies[name] = version] on an object, which keeps the order in
    which its keys were first set. *)
Fixpoint setProp (name version : str) (deps : list (str * str))
  : list (str * str) :=
  match deps with
  | [] => [(name, version)]
  | (k, v) :: rest =>
      if bool_decide (k = name) then (k, version) :: rest
      else (k, v) :: setProp name version rest
  end.

Definition setIf (test : bool) (name version : string)
  (deps : list (str * str)) : list (str * str) :=
  if test then setProp (lit name) (lit version) deps else deps.

(** The body of the loop over the JavaScript and TypeScript files. *)
Definition scanJsFile (dependencies : list (str * str)) (file : BotFile)
  : list (str * str) :=
  let content := toLowerCase (content file) in
  let d1 := setIf (has content "discord.js" || has content "require('discord"
                   || has content "import" && has content "discord")
              "discord.js" "^14.14.1" dependencies in
  let d2 := setIf (has content "@discordjs/builders"
                   || has content "slashcommandbuilder")
              "@discordjs/builders" "^1.7.0" d1 in
  let d3 := setIf (has content "@discordjs/rest" || has content "rest")
              "@discordjs/rest" "^2.2.0" d2 in
  let d4 := setIf (has content "@discordjs/voice")
              "@discordjs/voice" "^0.16.1" d3 in
  let d5 := setIf (has content "dotenv" || has content "process.env")
              "dotenv" "^16.3.1" d4 in
  let d6 := setIf (has content "axios" || has content "http request")
              "axios" "^1.6.0" d5 in
  let d7 := setIf (has content "fs-extra") "fs-extra" "^11.2.0" d6 in
  let d8 := setIf (has content "moment" || has content "date")
              "moment" "^2.29.4" d7 in
  let d9 := setIf (has content "lodash" || has content "_")
              "lodash" "^4.17.21" d8 in
  let d10 := setIf (has content "sqlite3") "sqlite3" "^5.1.6" d9 in
  let d11 := setIf (has content "mysql") "mysql2" "^3.6.5" d10 in
  setIf (has content "mongoose" || has content "mongodb")
    "mongoose" "^8.0.3" d11.

Definition jsDependencies (files : list BotFile) : list (str * str) :=
  let jsFiles := List.filter isJsFile files in
  let dependencies := fold_left scanJsFile jsFiles [] in
  if (length dependencies =? 0) && (0 <? length jsFiles)
  then setProp (lit "discord.js") (lit "^14.14.1") dependencies
  else dependencies.

(** A JSON string; the names and versions written here need no escapes. *)
Definition jsonString (x : str) : str := dquote :: x ++ [dquote].

(** [JSON.stringify(packageJson, null, 2)] for the object
    [{ name, version, main, dependencies }] with at least one dependency. *)
Definition packageJson (dependencies : list (str * str)) : str :=
  let entry (kv : str * str) :=
    lit "    " ++ jsonString kv.1 ++ lit ": " ++ jsonString kv.2 in
  join [ lit "{";
         lit "  " ++ jsonString (lit "name") ++ lit ": "
           ++ jsonString (lit "discord-bot") ++ lit ",";
         lit "  " ++ jsonString (lit "version") ++ lit ": "
           ++ jsonString (lit "1.0.0") ++ lit ",";
         lit "  " ++ jsonString (lit "main") ++ lit ": "
           ++ jsonString (lit "index.js") ++ lit ",";
         lit "  " ++ jsonString (lit "dependencies") ++ lit ": {";
         join (map entry dependencies) (lit "," ++ [newline]);
         lit "  }";
         lit "}" ] [newline].

(** A failure inside is caught and reported with [console.warn]. *)
Definition autoCreateDependencies (w : World) (botDir language : str)
  (files : list BotFile) : M unit :=
  tryCatch
    (if bool_decide (language = lit "python") then
       requirementsExists ← access botDir (lit "requirements.txt");
       if negb requirementsExists then
         let imports := pythonImports files in
         if 0 <? length imports then
           writeFile w botDir (lit "requirements.txt") (join imports [newline])
         else mret tt
       else mret tt
     else if bool_decide (language = lit "nodejs") then
       packageJsonExists ← access botDir (lit "package.json");
       if negb packageJsonExists then
         let dependencies := jsDependencies files in
         if 0 <? length dependencies then
           writeFile w botDir (lit "package.json") (packageJson dependencies)
         else mret tt
       else mret tt
     else mret tt)
    (fun _ => mret tt).

(** *** Dependency installation *)

(** The [exit] listener of [runCommand] for a code other than 0 (null
    when a signal ended the tool): the failure is written to the console
    and the promise is rejected with it. *)
Definition onToolFailure (command : str) (args : list str)
  (code : option Z) (stderr : str) : M unit :=
  let errorMsg :=
    lit "Command '" ++ command ++ lit " " ++ join args (lit " ")
    ++ lit "' failed with exit code " ++ ofCode code in
  consoleError (lit "[" ++ command ++ lit "] " ++ errorMsg);;
  (if 0 <? length (trim stderr)
   then consoleError (lit "[" ++ command ++ lit "] stderr: " ++ trim stderr)
   else mret tt);;
  throw (errorMsg ++ lit ". "
         ++ (if 0 <? length (trim stderr)
             then lit "Error: " ++ trim stderr else [])).

(** [runCommand], up to the point where its promise is settled: it
    resolves when the command exits with code 0 and rejects when it exits
    otherwise, cannot be spawned or runs into the timeout. The timer
    kills the tool and rejects at once; the [exit] listener stays
    attached and runs later, see [onKilledToolExit]. *)
Definition runCommand (w : World) (command : str) (args : list str)
  (cwd : str) (timeout : N) : M unit :=
  match commandOutcome w command args with
  | TimedOut _ =>
      throw (lit "Command timeout after " ++ ofN timeout ++ lit "ms: "
             ++ command ++ lit " " ++ join args (lit " "))
  | SpawnFailed msg =>
      throw (lit "Failed to spawn " ++ command ++ lit ": " ++ msg)
  | Exited code stderr =>
      if bool_decide (code = Some 0%Z) then mret tt
      else onToolFailure command args code stderr
  end.

(** The [exit] listener of [runCommand] when the tool that the timer has
    killed exits: the code is null, the failure is written to the console
    as for any other code than 0, and rejecting the promise, which is
    settled, does nothing. *)
Definition onKilledToolExit (command : str) (args : list str) (stderr : str)
  : M unit :=
  tryCatch (onToolFailure command args None stderr) (fun _ => mret tt).

(** The same for the tool of an attempt, if the timer has killed it. *)
Definition killedToolExit (w : World) (command : str) (args : list str)
  : M unit :=
  match commandOutcome w command args with
  | TimedOut stderr => onKilledToolExit command args stderr
  | _ => mret tt
  end.

(** The body of the [try] of [installDependencies]. A tool that the
    timer has killed exits while the next attempt runs: its [exit]
    listener is taken to run before the next tool ends. The tool of the
    last attempt exits when the call has gone on: that is the event
    [ToolExit] of the event loop. *)
Definition installAttempts (w : World) (botDir language : str) : M unit :=
  if bool_decide (language = lit "python") then
    requirementsExists ← access botDir (lit "requirements.txt");
    if (requirementsExists : bool) then
      readFile botDir (lit "requirements.txt");;
      tryCatch
        (runCommand w (lit "python3")
           [lit "-m"; lit "pip"; lit "install"; lit "--user"; lit "-r";
            lit "requirements.txt"] botDir 180000)
        (fun _ =>
           killedToolExit w (lit "python3")
             [lit "-m"; lit "pip"; lit "install"; lit "--user"; lit "-r";
              lit "requirements.txt"];;
           tryCatch
             (runCommand w (lit "python3")
                [lit "-m"; lit "pip"; lit "install"; lit "-r";
                 lit "requirements.txt"] botDir 180000)
             (fun _ =>
                killedToolExit w (lit "python3")
                  [lit "-m"; lit "pip"; lit "install"; lit "-r";
                   lit "requirements.txt"];;
                runCommand w (lit "pip3")
                  [lit "install"; lit "--user"; lit "-r";
                   lit "requirements.txt"] botDir 180000))
    else mret tt
  else if bool_decide (language = lit "nodejs") then
    packageJsonExists ← access botDir (lit "package.json");
    if (packageJsonExists : bool) then
      packageContent ← readFile botDir (lit "package.json");
      match jsonParseError w packageContent with
      | Some msg => throw msg
      | None =>
          runCommand w (lit "npm")
            [lit "install"; lit "--production"; lit "--no-audit";
             lit "--no-fund"] botDir 240000
      end
    else mret tt
  else mret tt.

(** The error is written to the console and not thrown again: the bot may
    start without its dependencies. *)
Definition installDependencies (w : World) (botDir language : str) : M unit :=
  tryCatch (installAttempts w botDir language)
    (fun errorMessage =>
       consoleError (lit "Failed to install dependencies: " ++ errorMessage)).

(** *** Start *)

Definition validateBot (bot : Bot) : M unit :=
  if bool_decide (token bot = []) then throw (lit "Bot token is missing")
  else if bool_decide (language bot = []) then
    throw (lit "Bot language is not specified")
  else mret tt.

(** [this.logBotOutput(botId, type, message)] *)
Definition logBotOutput (id : str) (type : LogType.t) (message : str)
  : M unit :=
  createBotLog {| botId := id; type := type; message := trim message |}.

(** [{ ...env, [name]: value }] *)
Definition setEnv (name : string) (value : str) (env : list (str * str))
  : list (str * str) :=
  setProp (lit name) value env.

(** The value of a variable of the environment, undefined when not set. *)
Fixpoint getEnv (env : list (str * str)) (name : str) : option str :=
  match env with
  | [] => None
  | (k, v) :: rest => if bool_decide (k = name) then Some v else getEnv rest name
  end.

(** The environment of the child. *)
Definition childEnv (w : World) (bot : Bot) (id : str) : list (str * str) :=
  setEnv "PYTHONUNBUFFERED" (lit "1")
    (setEnv "NODE_ENV"
       (default [] (orElse (getEnv (processEnv w) (lit "NODE_ENV"))
                      (Some (lit "production"))))
       (setEnv "BOT_ID" id
          (setEnv "DISCORD_TOKEN" (token bot) (processEnv w)))).

Definition pythonMainFiles : list str :=
  [lit "main.py"; lit "bot.py"; lit "app.py"; lit "run.py"; lit "__main__.py";
   lit "start.py"].

Definition jsMainFiles : list str :=
  [lit "index.js"; lit "main.js"; lit "app.js"; lit "bot.js"; lit "start.js";
   lit "server.js"].

(** The choice of the file to run, the same for both runtimes: the main
    file of the bot, else the first file of the runtime with a common
    name, else the first file of the runtime; when the workspace does not
    hold the chosen file, the first file of the runtime. *)
Definition resolveMainFile (bot : Bot) (botDir : str) (files : list BotFile)
  (isRuntimeFile : BotFile -> bool) (commonMainFiles : list str)
  (noneToExecute noneInWorkspace : string) : M str :=
  let chosen :=
    if falsy (mainFile bot) then
      let runtimeFiles := List.filter isRuntimeFile files in
      orElse
        (filename <$> find (fun f =>
           bool_decide (toLowerCase (filename f) ∈ commonMainFiles))
           runtimeFiles)
        (filename <$> head runtimeFiles)
    else mainFile bot in
  match chosen with
  | None | Some [] => throw (lit noneToExecute)
  | Some mainFile =>
      mainFileExists ← access botDir mainFile;
      if (mainFileExists : bool) then mret mainFile
      else
        match List.filter isRuntimeFile files with
        | first :: _ => mret (filename first)
        | [] => throw (lit noneInWorkspace)
        end
  end.

(** [spawn(command, args, { cwd, env })] *)
Definition spawn (w : World) (command : str) (args : list str) (cwd : str)
  (env : list (str * str)) : ChildProcess :=
  {| pid := spawnPid w; command := command; args := args; cwd := cwd;
     env := env |}.

(** The handle map after [this.processes.set(botId, childProcess)]. *)
Definition register (id : str) (child : ChildProcess) (s : State) : State :=
  withJournal (fun done => done ++ [HandleSet id child])
    (withProcesses (<[id := child]>) s).

Definition setProcess (id : str) (child : ChildProcess) : M unit :=
  modify (register id child).

(** [childProcess.pid || 0] *)
Definition pidOrZero (child : ChildProcess) : Z := default 0%Z (pid child).

(** The body of the [try] of [startBot]. *)
Definition startAttempt (w : World) (id : str) (bot : Bot) : M Result.t :=
  validateBot bot;;
  files ← getBotFiles id;
  (* RADAR System - Analyze code for suspicious patterns *)
  let radarAnalysis := RADARSystem.analyzeCode files in
  if RADARSystem.isSuspicious radarAnalysis then
    updateBot id (statusOnly Status.error);;
    logBotOutput id LogType.error
      (lit "RADAR: Suspicious code detected. Risk score: "
       ++ ofN (RADARSystem.riskScore radarAnalysis) ++ lit ". Reasons: "
       ++ join (RADARSystem.reasons radarAnalysis) (lit ", "));;
    mret (Result.Make false
            (lit "Bot blocked by RADAR system. Suspicious activity detected: "
             ++ default (lit "undefined")
                  (head (RADARSystem.reasons radarAnalysis))))
  else
    botDir ← createBotWorkspace w id files (token bot);
    (* Auto-create dependencies file if needed and install *)
    autoCreateDependencies w botDir (language bot) files;;
    installDependencies w botDir (language bot);;
    let env := childEnv w bot id in
    childProcess ←
      (if bool_decide (language bot = lit "python") then
         mainFile ← resolveMainFile bot botDir files isPythonFile
                      pythonMainFiles "No Python files found to execute"
                      "No Python files found in workspace";
         mret (spawn w (lit "python3") [lit "-u"; mainFile] botDir env)
       else if bool_decide (language bot = lit "nodejs") then
         mainFile ← resolveMainFile bot botDir files isJsFile
                      jsMainFiles "No JavaScript files found to execute"
                      "No JavaScript files found in workspace";
         mret (spawn w (lit "node") [mainFile] botDir env)
       else throw (lit "Unsupported language: " ++ language bot));
    setProcess id childProcess;;
    (* Update bot status *)
    updateBot id
      {| setStatus := Some Status.running;
         setProcessId := Some (Some (pidOrZero childProcess));
         setMemoryUsage := None; setCpuUsage := None;
         setLastStarted := Some (Some (now w)) |};;
    mret (Result.Make true (lit "Bot started successfully")).

(** [startBot(botId)], from the call to the value it returns. The sampler
    that [startMonitoring] launches is outside this model. *)
Definition startBot (w : World) (id : str) : M Result.t :=
  bot ← getBot id;
  match bot with
  | None => throw (lit "Bot not found")
  | Some bot =>
      running ← gets (fun s => bool_decide (is_Some (processes s !! id)));
      if (running : bool) then
        mret (Result.Make false (lit "Bot is already running"))
      else
        (* Set to starting status immediately *)
        updateBot id (statusOnly Status.starting);;
        tryCatch (startAttempt w id bot)
          (fun errorMessage =>
             updateBot id (statusOnly Status.error);;
             logBotOutput id LogType.error
               (lit "Failed to start bot: " ++ errorMessage);;
             mret (Result.Make false
                     (lit "Failed to start bot: " ++ errorMessage)))
  end.

(** *** The observers attached to a child *)

(** [childProcess.stdout.on('data', ...)] *)
Definition onStdout (id : str) (data : str) : M unit :=
  let output := data in
  (* Check for common bot success indicators *)
  (if has output "Logged in as" || has output "Bot is ready"
      || has output "Successfully logged in"
   then updateBot id (statusOnly Status.running)
   else mret tt);;
  logBotOutput id LogType.info output.

(** [childProcess.stderr.on('data', ...)] *)
Definition onStderr (id : str) (data : str) : M unit :=
  let output := data in
  (* Check for critical errors that should stop the bot *)
  (if has output "LoginFailure" || has output "Improper token"
      || has output "Unauthorized" || has output "Invalid token"
   then updateBot id (statusOnly Status.error)
   else mret tt);;
  logBotOutput id LogType.error output.

(** The handle map after [this.processes.delete(botId)]. *)
Definition unregister (id : str) (s : State) : State :=
  withJournal (fun done => done ++ [HandleDeleted id])
    (withProcesses (delete id) s).

Definition deleteProcess (id : str) : M unit := modify (unregister id).

(** [childProcess.on('exit', ...)]; [code] is null when a signal ended the
    child. *)
Definition onExit (id : str) (code : option Z) : M unit :=
  deleteProcess id;;
  let status :=
    if bool_decide (code = Some 0%Z) then Status.stopped else Status.error in
  updateBot id (cleared status);;
  logBotOutput id
    (if bool_decide (code = Some 0%Z) then LogType.info else LogType.error)
    (lit "Process exited with code " ++ ofCode code).

(** [childProcess.on('error', ...)] *)
Definition onError (id : str) (errorMessage : str) : M unit :=
  deleteProcess id;;
  updateBot id (cleared Status.error);;
  logBotOutput id LogType.error (lit "Process error: " ++ errorMessage).

(** *** Stop *)

(** [process.kill(signal)] *)
Definition kill (child : ChildProcess) (signal : Signal) : M unit :=
  modify (withSignals (fun sent => sent ++ [(child, signal)])).

(** [stopBot(botId)] up to [await exitPromise]: a result when no handle is
    registered, and otherwise the graceful signal is sent and the call
    waits for the exit of the child or for its timer of 5 seconds. *)
Definition stopBotBegin (id : str) : M (option Result.t) :=
  process ← gets (fun s => processes s !! id);
  match process with
  | None =>
      updateBot id (cleared Status.stopped);;
      mret (Some (Result.Make true (lit "Bot was not running")))
  | Some process =>
      (* Send SIGTERM first for graceful shutdown *)
      kill process SIGTERM;;
      modify (withPendingStops (fun waiting => waiting ++ [(id, process)]));;
      mret None
  end.

(** [stopBot(botId)] after [await exitPromise]. Neither a signal nor the
    store fails in this model, so the outer [catch] of [stopBot] is never
    entered. *)
Definition stopBotResume (w : World) (id : str) : M Result.t :=
  deleteProcess id;;
  updateBot id (cleared Status.stopped);;
  (* Clean up workspace *)
  tryCatch (rm w id)
    (fun errorMessage =>
       consoleError (lit "Failed to clean up bot workspace: " ++ errorMessage));;
  mret (Result.Make true (lit "Bot stopped successfully")).

(** *** The event loop

    Each event runs its handler to the end before the next one is taken. *)
Inductive Event : Type :=
| CallStart (id : str)
| CallStop (id : str)
| StopTimer (id : str)
| ChildStdout (id : str) (data : str)
| ChildStderr (id : str) (data : str)
| ChildExit (id : str) (code : option Z)
| ChildError (id : str) (errorMessage : str)
| ToolExit (command : str) (args : list str) (stderr : str).

(** The state after a handler, whatever it returned. *)
Definition exec {A : Type} (m : M A) (s : State) : State := (m s).2.

(** The value a call returns to its caller is recorded in [replies]; a
    call that throws records nothing. *)
Definition reply (id : str) (m : M Result.t) : M unit :=
  tryCatch (r ← m; modify (withReplies (fun sent => sent ++ [(id, r)])))
    (fun _ => mret tt).

(** The calls of [stopBot] for bot [id] that are waiting. *)
Definition waitingFor (id : str) (waiting : list (str * ChildProcess))
  : list (str * ChildProcess) :=
  List.filter (fun p => bool_decide (p.1 = id)) waiting.

Definition notWaitingFor (id : str) (waiting : list (str * ChildProcess))
  : list (str * ChildProcess) :=
  List.filter (fun p => negb (bool_decide (p.1 = id))) waiting.

(** The timers of the waiting calls for [id] fire: each sends the forceful
    signal to its child and its call goes on. *)
Fixpoint fireTimers (w : World) (waiting : list (str * ChildProcess))
  : M unit :=
  match waiting with
  | [] => mret tt
  | (id, process) :: rest =>
      kill process SIGKILL;;
      reply id (stopBotResume w id);;
      fireTimers w rest
  end.

(** The child has exited: the waiting calls for [id] go on, their timers
    cleared. *)
Fixpoint resumeStops (w : World) (waiting : list (str * ChildProcess))
  : M unit :=
  match waiting with
  | [] => mret tt
  | (id, _) :: rest => reply id (stopBotResume w id);; resumeStops w rest
  end.

Definition handle (w : World) (e : Event) : M unit :=
  match e with
  | CallStart id => reply id (startBot w id)
  | CallStop id =>
      r ← stopBotBegin id;
      match r with
      | Some r => modify (withReplies (fun sent => sent ++ [(id, r)]))
      | None => mret tt
      end
  | StopTimer id =>
      waiting ← gets pendingStops;
      modify (withPendingStops (notWaitingFor id));;
      fireTimers w (waitingFor id waiting)
  | ChildStdout id data => onStdout id data
  | ChildStderr id data => onStderr id data
  | ChildExit id code =>
      (* the listener of startBot was registered first *)
      onExit id code;;
      waiting ← gets pendingStops;
      modify (withPendingStops (notWaitingFor id));;
      resumeStops w (waitingFor id waiting)
  | ChildError id errorMessage => onError id errorMessage
  | ToolExit command args stderr =>
      (* a package tool that the timer of runCommand has killed *)
      onKilledToolExit command args stderr
  end.

Definition step (w : World) (s : State) (e : Event) : State :=
  exec (handle w e) s.

Definition run (w : World) (s : State) (events : list Event) : State :=
  fold_left (step w) events s.

End BotManager.

(** ** Reasoning about the engine's code *)

Module Logic.

Import BotManager.

(** The code units, for properties of characters that are checked on each
    of them. *)
Definition allChars : list ascii := map ascii_of_nat (seq 0 256).

Definition forallChars (p : ascii -> bool) : bool := forallb p allChars.

(** A-Z excluded: what the text is like after [toLowerCase]. *)
Definition notUpper (c : ascii) : bool := negb (in_range 65 90 c).

(** The six suspicious patterns that are alternations of words, each as
    the list of its words. *)
Definition keywordGroups : list (list string) :=
  [ ["mining"; "miner"; "crypto"; "bitcoin"; "ethereum"; "monero"; "xmr";
     "btc"; "eth"];
    ["hashrate"; "difficulty"; "pool"; "stratum"];
    ["gpu"; "cuda"; "opencl"; "amd"; "nvidia"];
    ["ddos"; "flood"; "spam"; "attack"; "exploit"];
    ["proxy"; "vpn"; "tor"; "onion"];
    ["botnet"; "zombie"; "malware"] ]%string.

(** The words of the first pattern: the mining keywords. *)
Definition miningKeywords : list string :=
  ["mining"; "miner"; "crypto"; "bitcoin"; "ethereum"; "monero"; "xmr";
   "btc"; "eth"]%string.

(** The patterns of a list that match a text. *)
Definition matching (ps : list pattern) (lowered : str) : list pattern :=
  List.filter (fun p => test true (re p) lowered) ps.

(** [wp m Q s]: run from [s], the code [m] ends with an outcome and a state
    that satisfy [Q]. *)
Definition wp {A : Type} (m : M A) (Q : outcome A -> State -> Prop)
  (s : State) : Prop :=
  Q (m s).1 (m s).2.

(** [s'] has the handles, the bots, the files, the logs and the journal of
    [s]: what may differ is the disk, the console and the signals. *)
Definition sameStore (s s' : State) : Prop :=
  processes s' = processes s /\ bots s' = bots s
  /\ botFiles s' = botFiles s /\ botLogs s' = botLogs s
  /\ journal s' = journal s.

(** Code that stays within a relation on states: the state it ends in,
    whether it returns or throws, is related to the one it started from. *)
Definition within {A : Type} (R : relation State) (m : M A) : Prop :=
  forall s, R s (m s).2.

(** Code that leaves the handles and the store as they are. *)
Definition quiet {A : Type} (m : M A) : Prop := within sameStore m.

(** The status the exit observer persists for an exit code. *)
Definition exitStatus (code : option Z) : Status.t :=
  match code with
  | Some 0%Z => Status.stopped
  | _ => Status.error
  end.

(** The end of [stopBot]: the workspace goes, or the failure to remove it
    is written to the console. *)
Definition cleanedUp (w : World) (id : str) (s : State) : State :=
  match rmError w id with
  | Some msg =>
      withConsole (fun lines =>
        lines ++ [lit "Failed to clean up bot workspace: " ++ msg]) s
  | None => withDisk (delete id) s
  end.

(** What [startBot] persists after the spawn:
    [{ status: 'running', processId, lastStarted }]. *)
Definition runningPatch (w : World) (child : ChildProcess) : BotPatch :=
  {| setStatus := Some Status.running;
     setProcessId := Some (Some (pidOrZero child));
     setMemoryUsage := None; setCpuUsage := None;
     setLastStarted := Some (Some (now w)) |}.

(** A stdout chunk carries one of the readiness markers. *)
Definition ready (output : str) : bool :=
  has output "Logged in as" || has output "Bot is ready"
  || has output "Successfully logged in".

(** The file [name] of the workspace [dir], when there is one. *)
Definition readDisk (s : State) (dir : str) (name : string) : option str :=
  disk s !! dir ≫= (.!! lit name).

(** The table of section 4.2 of the specification: the markers looked for
    in the lines of a Python file, each with the pin the code adds for it. *)
Definition markerTable : list (string * string) :=
  [ ("discord.py", "discord.py>=2.3.0");
    ("import discord", "discord.py>=2.3.0");
    ("from discord", "discord.py>=2.3.0");
    ("aiohttp", "aiohttp>=3.8.0");
    ("requests", "requests>=2.28.0");
    ("dotenv", "python-dotenv>=0.19.0");
    ("python-dotenv", "python-dotenv>=0.19.0");
    ("pymysql", "PyMySQL>=1.0.0");
    ("mysql", "PyMySQL>=1.0.0");
    ("psycopg", "psycopg2-binary>=2.9.0");
    ("postgres", "psycopg2-binary>=2.9.0") ]%string.

(** Every text that [scanLine] looks for: the markers of the table and
    those of asyncio, json and sqlite3. *)
Definition pythonMarkers : list string :=
  [ "discord.py"; "import discord"; "from discord"; "aiohttp";
    "import aiohttp"; "requests"; "import requests"; "asyncio";
    "import asyncio"; "json"; "import json"; "sqlite3"; "import sqlite3";
    "mysql"; "pymysql"; "postgres"; "psycopg"; "dotenv";
    "python-dotenv" ]%string.

(** Every text that [scanJsFile] looks for. *)
Definition jsMarkers : list string :=
  [ "discord.js"; "require('discord"; "import"; "discord";
    "@discordjs/builders"; "slashcommandbuilder"; "@discordjs/rest"; "rest";
    "@discordjs/voice"; "dotenv"; "process.env"; "axios"; "http request";
    "fs-extra"; "moment"; "date"; "lodash"; "_"; "sqlite3"; "mysql";
    "mongoose"; "mongodb" ]%string.

(** None of the markers occurs in the lowered text of a file. *)
Definition markerFree (markers : list string) (f : BotFile) : bool :=
  forallb (fun m => negb (has (toLowerCase (content f)) m)) markers.

(** Two states that differ at most in what was written to the console. *)
Definition sameButConsole (s1 s2 : State) : Prop :=
  processes s1 = processes s2 /\ bots s1 = bots s2
  /\ botFiles s1 = botFiles s2 /\ botLogs s1 = botLogs s2
  /\ disk s1 = disk s2 /\ signals s1 = signals s2
  /\ pendingStops s1 = pendingStops s2 /\ replies s1 = replies s2
  /\ journal s1 = journal s2.



(** The same world with other package tools and another JSON parser. *)
Definition withInstaller (run : str -> list str -> CommandOutcome)
  (parse : str -> option str) (w : World) : World :=
  {| processEnv := processEnv w; now := now w; mkdirError := mkdirError w;
     writeFileError := writeFileError w; rmError := rmError w;
     commandOutcome := run; jsonParseError := parse; spawnPid := spawnPid w |}.

End Logic.

(** ** Scenarios *)

Module Scenario.

Import BotManager.

Definition b1 : str := lit "b1".

(** A world without faults: the package tools succeed and the child gets
    pid 4242. *)
Definition calm : World :=
  {| processEnv := [(lit "PATH", lit "/usr/bin")];
     now := 1700000000000;
     mkdirError := fun _ => None;
     writeFileError := fun _ _ => None;
     rmError := fun _ => None;
     commandOutcome := fun _ _ => Exited (Some 0%Z) [];
     jsonParseError := fun _ => None;
     spawnPid := Some 4242%Z |}.

(** The same world with a package tool that runs into its timeout. *)
Definition stalled : World :=
  Logic.withInstaller (fun _ _ => TimedOut []) (fun _ => None) calm.


(** A world in which no directory can be created. *)
Definition sealed : World :=
  {| processEnv := processEnv calm; now := now calm;
     mkdirError := fun _ => Some (lit "EACCES: permission denied");
     writeFileError := fun _ _ => None;
     rmError := fun _ => None;
     commandOutcome := commandOutcome calm;
     jsonParseError := jsonParseError calm;
     spawnPid := spawnPid calm |}.

(** A world in which no file can be written. *)
Definition readOnly : World :=
  {| processEnv := processEnv calm; now := now calm;
     mkdirError := fun _ => None;
     writeFileError := fun _ _ => Some (lit "EACCES: permission denied");
     rmError := fun _ => None;
     commandOutcome := commandOutcome calm;
     jsonParseError := jsonParseError calm;
     spawnPid := spawnPid calm |}.

Definition newBot (botToken : string) (runtime : string) : Bot :=
  {| token := lit botToken; language := lit runtime; mainFile := None;
     status := Status.stopped; processId := None;
     memoryUsage := lit "0MB"; cpuUsage := lit "0%"; uptime := lit "0s";
     lastStarted := None |}.

(** A server that holds the single bot [b1] with the given files, nothing
    running and nothing on disk. *)
Definition server (bot : Bot) (files : list BotFile) : State :=
  {| processes := ∅;
     bots := {[ b1 := bot ]};
     botFiles := {[ b1 := files ]};
     botLogs := [];
     disk := ∅;
     signals := [];
     console := [];
     pendingStops := [];
     replies := [];
     journal := [] |}.

Definition file (name text : string) : BotFile := File (lit name) (lit text).

(** A Python bot with one file. *)
Definition oneFile (name text : string) : State :=
  server (newBot "T0K3N" "python") [file name text].

(** Benign English words. *)
Definition benign : BotFile := file "notes.py" "method difficulty history".

(** Two mining keywords, and nothing else that a pattern matches. *)
Definition twoKeywords : BotFile := file "miner.py" "mining bitcoin".

Definition helloWorld : BotFile := file "hello.py" "hello world".

(** A text in double quotes. *)
Definition q (x : string) : str := dquote :: lit x ++ [dquote].

(** A source with the placeholder in each of its forms: bare, in single
    and in double quotes, and the lookups of the environment of both
    runtimes. *)
Definition allForms : str :=
  join [ lit "a = YOUR_BOT_TOKEN";
         lit "b = 'YOUR_BOT_TOKEN'";
         lit "c = " ++ q "YOUR_BOT_TOKEN";
         lit "d = process.env.DISCORD_TOKEN";
         lit "e = process.env.BOT_TOKEN";
         lit "f = process.env.TOKEN";
         lit "g = os.environ.get('DISCORD_TOKEN')";
         lit "h = os.environ[" ++ q "DISCORD_TOKEN" ++ lit "]";
         lit "i = os.getenv('DISCORD_TOKEN')";
         lit "j = os.getenv(" ++ q "DISCORD_TOKEN" ++ lit ")" ] [newline].

(** The same source with every form replaced by the text [x] in double
    quotes. *)
Definition allReplaced (x : string) : str :=
  join (map (fun name => lit name ++ lit " = " ++ q x)
          ["a"; "b"; "c"; "d"; "e"; "f"; "g"; "h"; "i"; "j"]%string)
    [newline].

(** A workspace that holds both manifests. *)
Definition manifested : State :=
  withDisk (<[b1 := {[ lit "requirements.txt" := lit "discord.py";
                       lit "package.json" := lit "{}" ]}]>)
    (server (newBot "T0K3N" "python") [file "bot.py" "import aiohttp"]).

(** A server whose bot [b1] has an empty workspace on disk. *)
Definition emptyWorkspace (runtime : string) (files : list BotFile) : State :=
  withDisk (<[b1 := ∅]>) (server (newBot "T0K3N" runtime) files).

(** Scenario A of the specification: a Python bot with the placeholder. *)
Definition happy : State :=
  server (newBot "T0K3N" "python")
    [File (lit "bot.py")
       (lit "import discord" ++ [newline]
        ++ lit "client=discord.Client(intents=discord.Intents.default())"
        ++ [newline]
        ++ lit "client.run(" ++ [dquote] ++ lit "YOUR_BOT_TOKEN" ++ [dquote]
        ++ lit ")")].

(** The state of [happy] once its bot has been started. *)
Definition started : State := run calm happy [CallStart b1].

(** The state in which the call of [startBot] itself leaves [happy]. *)
Definition afterStart : State := (startBot calm b1 happy).2.

(** What a program that prints its environment writes: a line
    [NAME=value] for each variable. *)
Definition echoEnv (env : list (str * str)) : str :=
  concat (map (fun kv => kv.1 ++ lit "=" ++ kv.2 ++ [newline]) env).

(** The output of the child of [b1] when it prints its environment. *)
Definition envDump (s : State) : str :=
  match processes s !! b1 with
  | Some child => echoEnv (env child)
  | None => []
  end.

Definition statusOf (s : State) (id : str) : option Status.t :=
  status <$> bots s !! id.

End Scenario.

(** ** Notions for further properties of the engine *)

Module Notions.
Import RADARSystem BotManager Logic.

(** How often a code unit occurs in a text. *)
Definition countChar (c : ascii) (s : str) : nat :=
  length (List.filter (Ascii.eqb c) s).

(** The most a single file can add to the risk score: nine patterns,
    the length check and four indicators. *)
Definition maxFileScore : N := 9 * 10 + 5 + 4 * 15.

(** A check that appends its reasons to those found so far and adds its
    points to the score reached so far. *)
Definition appends (f : list str * N -> list str * N) : Prop :=
  forall acc, f acc = (acc.1 ++ (f ([], 0%N)).1, (acc.2 + (f ([], 0%N)).2)%N).

(** A check whose reasons stand for 5 to 15 points each and that adds at
    most [most] points. *)
Definition bounded (f : list str * N -> list str * N) (most : N) : Prop :=
  forall acc,
    let n := N.of_nat (length (f acc).1 - length acc.1) in
    length acc.1 <= length (f acc).1
    /\ (acc.2 + 5 * n <= (f acc).2 <= acc.2 + 15 * n)%N
    /\ ((f acc).2 <= acc.2 + most)%N.

(** A name that is one segment of a path: it is not empty, not [.] or
    [..], and has neither a separator nor a NUL. For such a name
    [path.join(dir, name)] is the entry [name] of [dir], and different
    names are different entries. *)
Definition plainName (name : str) : bool :=
  negb (bool_decide (name = [])) && negb (bool_decide (name = lit "."))
  && negb (bool_decide (name = lit ".."))
  && negb (existsb (fun c => Ascii.eqb c "/" || Ascii.eqb c "000") name).

(** The file [name] of the workspace [dir], when there is one. *)
Definition fileAt (s : State) (dir name : str) : option str :=
  disk s !! dir ≫= (.!! name).

Definition holds (s : State) (dir name : str) : Prop :=
  is_Some (fileAt s dir name).

(** Every file of the workspace [dir] in [s] is still there in [t], with
    whatever content. *)
Definition keeps (dir : str) (s t : State) : Prop :=
  forall name, holds s dir name -> holds t dir name.

(** What the loop of [createBotWorkspace] leaves under [name]: the
    substituted content of the last file with that name. *)
Definition written (botToken : str) (files : list BotFile) (name : str)
  : option str :=
  (fun f => substituteToken botToken (content f))
  <$> last (List.filter (fun f => bool_decide (filename f = name)) files).

(** The files of a directory after the loop over [files]. *)
Definition writeAll (botToken : str) (files : list BotFile)
  (fs : gmap str str) : gmap str str :=
  fold_left (fun fs f =>
               <[filename f := substituteToken botToken (content f)]> fs)
    files fs.

(** None of the texts the four substitution patterns begin with occurs. *)
Definition placeholderFree (text : str) : bool :=
  negb (has text "YOUR_BOT_TOKEN") && negb (has text "process.env.")
  && negb (has text "os.environ") && negb (has text "os.getenv(").

(** The markers looked for in the lowered text of a JavaScript or
    TypeScript file, each with the dependency the code sets for it. (The
    chat library is also set for a file with both [import] and
    [discord].) *)
Definition jsMarkerTable : list (string * (string * string)) :=
  [ ("discord.js", ("discord.js", "^14.14.1"));
    ("require('discord", ("discord.js", "^14.14.1"));
    ("@discordjs/builders", ("@discordjs/builders", "^1.7.0"));
    ("slashcommandbuilder", ("@discordjs/builders", "^1.7.0"));
    ("@discordjs/rest", ("@discordjs/rest", "^2.2.0"));
    ("rest", ("@discordjs/rest", "^2.2.0"));
    ("@discordjs/voice", ("@discordjs/voice", "^0.16.1"));
    ("dotenv", ("dotenv", "^16.3.1"));
    ("process.env", ("dotenv", "^16.3.1"));
    ("axios", ("axios", "^1.6.0"));
    ("http request", ("axios", "^1.6.0"));
    ("fs-extra", ("fs-extra", "^11.2.0"));
    ("moment", ("moment", "^2.29.4"));
    ("date", ("moment", "^2.29.4"));
    ("lodash", ("lodash", "^4.17.21"));
    ("_", ("lodash", "^4.17.21"));
    ("sqlite3", ("sqlite3", "^5.1.6"));
    ("mysql", ("mysql2", "^3.6.5"));
    ("mongoose", ("mongoose", "^8.0.3"));
    ("mongodb", ("mongoose", "^8.0.3")) ]%string.

(** A dependency as [package.json] lists it. *)
Definition dep (pin : string * string) : str * str := (lit pin.1, lit pin.2).

(** A package-tool command ends with exit code 0. *)
Definition succeeds (w : World) (command : str) (args : list str) : bool :=
  match commandOutcome w command args with
  | Exited (Some 0%Z) _ => true
  | _ => false
  end.

(** The three commands [installDependencies] tries for a Python bot, in
    their order. *)
Definition pipAttempts : list (str * list str) :=
  [ (lit "python3", [lit "-m"; lit "pip"; lit "install"; lit "--user";
                     lit "-r"; lit "requirements.txt"]);
    (lit "python3", [lit "-m"; lit "pip"; lit "install"; lit "-r";
                     lit "requirements.txt"]);
    (lit "pip3", [lit "install"; lit "--user"; lit "-r";
                  lit "requirements.txt"]) ].

(** The command tried for a Node.js bot. *)
Definition npmInstall : str * list str :=
  (lit "npm", [lit "install"; lit "--production"; lit "--no-audit";
               lit "--no-fund"]).

(** The failure of a command that has ended with [code], as the [exit]
    listener of [runCommand] words it. *)
Definition exitFailure (command : str) (args : list str) (code : option Z)
  : str :=
  lit "Command '" ++ command ++ lit " " ++ join args (lit " ")
  ++ lit "' failed with exit code " ++ ofCode code.

(** The line on the console for that failure. *)
Definition toolFailed (command : str) (args : list str) (code : option Z)
  : str :=
  lit "[" ++ command ++ lit "] " ++ exitFailure command args code.

(** A decimal digit. *)
Definition isDigit (c : ascii) : Prop := in_range 48 57 c = true.

(** A text at which the digits of a number before it end: it is empty, or
    it begins with a character that is neither a digit nor the [x] of a
    hexadecimal prefix. *)
Definition endsNumber (rest : str) : bool :=
  match rest with
  | [] => true
  | c :: _ =>
      negb (in_range 48 57 c) && negb (Ascii.eqb c "x")
      && negb (Ascii.eqb c "X")
  end.

(** The world [w] with another environment of the server. *)
Definition withEnv (env : list (str * str)) (w : World) : World :=
  {| processEnv := env; now := now w; mkdirError := mkdirError w;
     writeFileError := writeFileError w; rmError := rmError w;
     commandOutcome := commandOutcome w; jsonParseError := jsonParseError w;
     spawnPid := spawnPid w |}.

(** A stderr chunk carries one of the markers of a critical error. *)
Definition critical (output : str) : bool :=
  has output "LoginFailure" || has output "Improper token"
  || has output "Unauthorized" || has output "Invalid token".

(** The log record [logBotOutput] creates. *)
Definition logged (id : str) (type : LogType.t) (message : str) : BotLog :=
  {| botId := id; type := type; message := trim message |}.

End Notions.

(** ** More of BotManager: the handle map seen from outside, the check
    of the resources and the uptime *)

Module Runtime.
Import RADARSystem BotManager Logic.

(** [isRunning(botId)] *)
Definition isRunning (id : str) (s : State) : bool :=
  bool_decide (is_Some (processes s !! id)).

(** *** Numbers

    The numbers of this part of the engine are integers and the finite
    doubles that sampling reports. A finite double is a dyadic rational,
    [mantissa / 2^scale]; dividing it by 1024 is exact. *)
Record Number : Type := Dyadic { mantissa : Z; scale : N }.

(** [x / 1024] *)
Definition div1024 (x : Number) : Number :=
  Dyadic (mantissa x) (scale x + 10).

(** [x > limit], false when the limit is NaN. *)
Definition exceeds (x : Number) (limit : option Z) : bool :=
  match limit with
  | Some l => (l * 2 ^ Z.of_N (scale x) <? mantissa x)%Z
  | None => false
  end.

(** An integer in a template literal. *)
Definition ofZ (n : Z) : str := lit (pretty n).

(** [x.toFixed(1)], for [x] below 10^21 in magnitude: the nearest number
    with one decimal, the larger one of two that are equally near, after
    the sign. *)
Definition toFixed1 (x : Number) : str :=
  let m := Z.abs (mantissa x) in
  let unit := (2 ^ Z.of_N (scale x))%Z in
  let n := ((20 * m + unit) / (2 * unit))%Z in
  (if (mantissa x <? 0)%Z then lit "-" else [])
  ++ ofZ (n / 10) ++ lit "." ++ ofZ (n mod 10).

(** The value of a digit in a radix, for the digits of the radix. *)
Definition digitOf (radix : Z) (c : ascii) : option Z :=
  let d :=
    if in_range 48 57 c then Some (Z.of_N (code c) - 48)%Z
    else if in_range 97 122 c then Some (Z.of_N (code c) - 87)%Z
    else if in_range 65 90 c then Some (Z.of_N (code c) - 55)%Z
    else None in
  d ≫= fun d => if (d <? radix)%Z then Some d else None.

(** The value of the longest prefix of digits, none when it is empty. *)
Fixpoint digitsValue (radix : Z) (acc : option Z) (s : str) : option Z :=
  match s with
  | c :: s' =>
      match digitOf radix c with
      | Some d => digitsValue radix (Some (default 0 acc * radix + d)%Z) s'
      | None => acc
      end
  | [] => acc
  end.

(** [parseInt(s)] without a radix: white space is skipped, then a sign,
    then [0x] or [0X] (which makes the radix 16), and the digits that
    follow are read as far as they go; the result is NaN, here [None],
    when there is no digit. The result is the integer the digits stand
    for when that is below 2^53 in magnitude; from there on [parseInt]
    gives the nearest double, which this definition does not follow. *)
Definition parseInt (s : str) : option Z :=
  let s1 := trimStart s in
  let negative :=
    match s1 with c :: _ => Ascii.eqb c "-" | [] => false end in
  let s2 :=
    match s1 with
    | c :: t => if Ascii.eqb c "-" || Ascii.eqb c "+" then t else s1
    | [] => s1
    end in
  let hex :=
    match s2 with
    | a :: b :: _ => Ascii.eqb a "0" && (Ascii.eqb b "x" || Ascii.eqb b "X")
    | _ => false
    end in
  let s3 := if hex then drop 2 s2 else s2 in
  (fun n => if negative then (- n)%Z else n)
  <$> digitsValue (if hex then 16 else 10) None s3.

(** [s.replace(c, '')] for a one-character string [c]: the first
    occurrence goes. *)
Fixpoint removeFirst (c : ascii) (s : str) : str :=
  match s with
  | x :: s' => if Ascii.eqb x c then s' else x :: removeFirst c s'
  | [] => []
  end.

(** A number in a template literal; NaN for the result of [parseInt]
    that is no number. *)
Definition ofNumber (n : option Z) : str :=
  match n with
  | Some n => ofZ n
  | None => lit "NaN"
  end.

(** *** RADAR: the check of the resources a bot uses *)

(** [{ memory, cpu }] as sampled: bytes and percent. *)
Record Stats : Type := { memory : Number; cpu : Number }.

(** [{ isAbusive, reasons }] *)
Module Abuse.
Record t : Type := Make { isAbusive : bool; reasons : list str }.
End Abuse.

(** [parseInt(process.env[name]?.replace(unit, '') || fallback)] *)
Definition limitOf (w : World) (name : string) (unit : ascii)
  (fallback : string) : option Z :=
  parseInt
    (default []
       (orElse (removeFirst unit <$> getEnv (processEnv w) (lit name))
          (Some (lit fallback)))).

Definition memoryLimit (w : World) : option Z :=
  limitOf w "MEMORY_MAX" "M" "128".

Definition cpuLimit (w : World) : option Z :=
  limitOf w "CPU_QUOTA" "%" "50".

(** [RADARSystem.monitorResourceUsage(botId, stats)] *)
Definition monitorResourceUsage (w : World) (botId : str) (stats : Stats)
  : Abuse.t :=
  let memoryMB := div1024 (div1024 (memory stats)) in
  let reasons1 :=
    if exceeds memoryMB (memoryLimit w) then
      [lit "Memory usage exceeded limit: " ++ toFixed1 memoryMB ++ lit "MB > "
       ++ ofNumber (memoryLimit w) ++ lit "MB"]
    else [] in
  let reasons2 :=
    if exceeds (cpu stats) (cpuLimit w) then
      reasons1 ++
      [lit "CPU usage exceeded limit: " ++ toFixed1 (cpu stats) ++ lit "% > "
       ++ ofNumber (cpuLimit w) ++ lit "%"]
    else reasons1 in
  Abuse.Make (0 <? length reasons2) reasons2.

(** *** Uptime *)

(** [formatUptime(ms)] for an integer number of milliseconds below 2^53
    in magnitude, as the difference of two time stamps is. There a double
    holds every number of the computation but the quotients, and a
    quotient by 1000, 60 or 24, rounded to a double, has the same
    [Math.floor] as the exact one: it is the quotient of [Z]; [%] is the
    remainder with the sign of the dividend. From 2^53 on the doubles of
    the code round, which this definition does not follow. *)
Definition formatUptime (ms : Z) : str :=
  let seconds := (ms / 1000)%Z in
  let minutes := (seconds / 60)%Z in
  let hours := (minutes / 60)%Z in
  let days := (hours / 24)%Z in
  if (0 <? days)%Z then
    ofZ days ++ lit "d " ++ ofZ (Z.rem hours 24) ++ lit "h "
    ++ ofZ (Z.rem minutes 60) ++ lit "m"
  else if (0 <? hours)%Z then
    ofZ hours ++ lit "h " ++ ofZ (Z.rem minutes 60) ++ lit "m "
    ++ ofZ (Z.rem seconds 60) ++ lit "s"
  else if (0 <? minutes)%Z then
    ofZ minutes ++ lit "m " ++ ofZ (Z.rem seconds 60) ++ lit "s"
  else
    ofZ seconds ++ lit "s".

End Runtime.

(** ** The store in memory (server/storage.ts, MemStorage)

    The maps of [MemStorage] for bots, files and log records. A [Map]
    keeps its entries in the order in which their keys were first set;
    the identifiers come from [randomUUID] and the time stamps from the
    clock, which the operations take as arguments. *)

Module MemStorage.
Import RADARSystem BotManager Logic.

Section Maps.
Context {V : Type}.

Definition Map : Type := list (str * V).

(** [map.get(key)] *)
Definition get (m : Map) (key : str) : option V :=
  snd <$> List.find (fun e => bool_decide (e.1 = key)) m.

(** [map.has(key)] *)
Definition has (m : Map) (key : str) : bool :=
  bool_decide (is_Some (get m key)).

(** [map.set(key, value)]: a key that is there keeps its place. *)
Fixpoint set (key : str) (value : V) (m : Map) : Map :=
  match m with
  | [] => [(key, value)]
  | (k, v) :: rest =>
      if bool_decide (k = key) then (k, value) :: rest
      else (k, v) :: set key value rest
  end.

(** [map.delete(key)] *)
Definition delete (key : str) (m : Map) : Map :=
  List.filter (fun e => negb (bool_decide (e.1 = key))) m.

(** [Array.from(map.values())] *)
Definition values (m : Map) : list V := map snd m.

End Maps.
Arguments Map : clear implicits.

(** [InsertBot] *)
Module InsertBot.
Record t : Type :=
  Make { userId : str; name : str; token : str; language : str;
         mainFile : option str }.
End InsertBot.

(** A row of [bots]: the columns the engine works with, and the others. *)
Module StoredBot.
Record t : Type :=
  Make { id : str; userId : str; name : str; columns : Bot;
         createdAt : Z; updatedAt : Z }.
End StoredBot.

(** A row of [botFiles]. *)
Module StoredFile.
Record t : Type :=
  Make { id : str; botId : str; filename : str; content : str; size : N;
         createdAt : Z }.
End StoredFile.

(** [InsertBotFile] *)
Module InsertFile.
Record t : Type :=
  Make { botId : str; filename : str; content : str; size : N }.
End InsertFile.

(** A row of [botLogs]. *)
Module StoredLog.
Record t : Type :=
  Make { id : str; botId : str; type : LogType.t; message : str;
         timestamp : Z }.
End StoredLog.

Record Store : Type :=
  { bots : Map StoredBot.t;
    botFiles : Map StoredFile.t;
    botLogs : Map StoredLog.t }.

Definition empty : Store := {| bots := []; botFiles := []; botLogs := [] |}.

Definition withBots (f : Map StoredBot.t -> Map StoredBot.t) (st : Store)
  : Store :=
  {| bots := f (bots st); botFiles := botFiles st; botLogs := botLogs st |}.

Definition withBotFiles (f : Map StoredFile.t -> Map StoredFile.t)
  (st : Store) : Store :=
  {| bots := bots st; botFiles := f (botFiles st); botLogs := botLogs st |}.

Definition withBotLogs (f : Map StoredLog.t -> Map StoredLog.t) (st : Store)
  : Store :=
  {| bots := bots st; botFiles := botFiles st; botLogs := f (botLogs st) |}.

(** *** Bots *)

Definition getBot (id : str) (st : Store) : option StoredBot.t :=
  get (bots st) id.

Definition getBotsByUserId (userId : str) (st : Store) : list StoredBot.t :=
  List.filter (fun bot => bool_decide (StoredBot.userId bot = userId))
    (values (bots st)).

(** [createBot(insertBot)]; [uuid] is the identifier drawn and [now] the
    time. *)
Definition createBot (uuid : str) (now : Z) (insertBot : InsertBot.t)
  (st : Store) : StoredBot.t * Store :=
  let bot :=
    StoredBot.Make uuid (InsertBot.userId insertBot) (InsertBot.name insertBot)
      {| token := InsertBot.token insertBot;
         language := InsertBot.language insertBot;
         mainFile := InsertBot.mainFile insertBot;
         status := Status.stopped;
         processId := None;
         memoryUsage := lit "0MB";
         cpuUsage := lit "0%";
         uptime := lit "0s";
         lastStarted := None |}
      now now in
  (bot, withBots (set uuid bot) st).

(** [updateBot(id, updates)] for the updates the engine makes. *)
Definition updateBot (now : Z) (id : str) (updates : BotPatch) (st : Store)
  : option StoredBot.t * Store :=
  match get (bots st) id with
  | None => (None, st)
  | Some bot =>
      let updatedBot :=
        StoredBot.Make (StoredBot.id bot) (StoredBot.userId bot)
          (StoredBot.name bot) (applyPatch updates (StoredBot.columns bot))
          (StoredBot.createdAt bot) now in
      (Some updatedBot, withBots (set id updatedBot) st)
  end.

(** *** Files *)

Definition getBotFiles (botId : str) (st : Store) : list StoredFile.t :=
  List.filter (fun file => bool_decide (StoredFile.botId file = botId))
    (values (botFiles st)).

Definition createBotFile (uuid : str) (now : Z) (insertFile : InsertFile.t)
  (st : Store) : StoredFile.t * Store :=
  let file :=
    StoredFile.Make uuid (InsertFile.botId insertFile)
      (InsertFile.filename insertFile) (InsertFile.content insertFile)
      (InsertFile.size insertFile) now in
  (file, withBotFiles (set uuid file) st).

(** [Buffer.byteLength(content, 'utf8')] for code units below U+0100: one
    byte below U+0080 and two from there on. *)
Definition byteLength (content : str) : N :=
  fold_right (fun c n => ((if (code c <? 128)%N then 1 else 2) + n)%N) 0%N
    content.

Definition updateBotFile (botId filename content : str) (st : Store)
  : bool * Store :=
  let files :=
    List.filter (fun f => bool_decide (StoredFile.botId f = botId)
                          && bool_decide (StoredFile.filename f = filename))
      (values (botFiles st)) in
  match files with
  | file :: _ =>
      let updated :=
        StoredFile.Make (StoredFile.id file) (StoredFile.botId file)
          (StoredFile.filename file) content (byteLength content)
          (StoredFile.createdAt file) in
      (true, withBotFiles (set (StoredFile.id file) updated) st)
  | [] => (false, st)
  end.

(** [files.forEach(file => this.botFiles.delete(file.id))] *)
Definition deleteBotFiles (botId : str) (st : Store) : bool * Store :=
  let files := getBotFiles botId st in
  (true,
   withBotFiles (fun m =>
     fold_left (fun m file => delete (StoredFile.id file) m) files m) st).

(** *** Log records *)

(** One step of a stable sort, newest first: the record goes before the
    records that came after it, up to the first one that is not newer. *)
Fixpoint insertNewest (log : StoredLog.t) (sorted : list StoredLog.t)
  : list StoredLog.t :=
  match sorted with
  | [] => [log]
  | other :: rest =>
      if (StoredLog.timestamp other <=? StoredLog.timestamp log)%Z
      then log :: sorted
      else other :: insertNewest log rest
  end.

(** [logs.sort((a, b) => b.timestamp.getTime() - a.timestamp.getTime())]:
    newest first, records of the same time in the order they had. *)
Definition sortNewestFirst (logs : list StoredLog.t) : list StoredLog.t :=
  fold_right insertNewest [] logs.

(** [array.slice(0, limit)] for an integer [limit]; a negative one counts
    from the end. *)
Definition slice0 {A : Type} (limit : Z) (l : list A) : list A :=
  if (limit <? 0)%Z then take (Z.to_nat (Z.of_nat (length l) + limit)) l
  else take (Z.to_nat limit) l.

Definition getBotLogs (botId : str) (limit : Z) (st : Store)
  : list StoredLog.t :=
  slice0 limit
    (sortNewestFirst
       (List.filter (fun log => bool_decide (StoredLog.botId log = botId))
          (values (botLogs st)))).

Definition createBotLog (uuid : str) (now : Z) (insertLog : BotLog)
  (st : Store) : StoredLog.t * Store :=
  let log :=
    StoredLog.Make uuid (botId insertLog) (type insertLog)
      (message insertLog) now in
  (log, withBotLogs (set uuid log) st).

(** [clearBotLogs(botId)]: the records that [getBotLogs(botId)] returns,
    with its default limit of 100, are deleted. *)
Definition clearBotLogs (botId : str) (st : Store) : bool * Store :=
  let logs := getBotLogs botId 100 st in
  (true,
   withBotLogs (fun m =>
     fold_left (fun m log => delete (StoredLog.id log) m) logs m) st).

(** [deleteBot(id)] *)
Definition deleteBot (id : str) (st : Store) : bool * Store :=
  let deleted := has (bots st) id in
  if deleted then
    let st1 := withBots (delete id) st in
    let st2 := (deleteBotFiles id st1).2 in
    let st3 := (clearBotLogs id st2).2 in
    (true, st3)
  else (false, st).

(** *** Notions for the properties of the store *)

(** The keys of a map are pairwise different and every row is stored
    under its own identifier. *)
Definition keyed {V : Type} (key : V -> str) (m : Map V) : Prop :=
  NoDup m.*1 /\ Forall (fun e => key e.2 = e.1) m.

Definition wellFormed (st : Store) : Prop :=
  keyed StoredBot.id (bots st) /\ keyed StoredFile.id (botFiles st)
  /\ keyed StoredLog.id (botLogs st).

(** The log records of a bot, in the order of the map. *)
Definition logsOf (botId : str) (st : Store) : list StoredLog.t :=
  List.filter (fun log => bool_decide (StoredLog.botId log = botId))
    (values (botLogs st)).

(** No record is older than the one before it. *)
Fixpoint newestFirst (logs : list StoredLog.t) : Prop :=
  match logs with
  | [] => True
  | a :: rest =>
      Forall (fun b => (StoredLog.timestamp b <= StoredLog.timestamp a)%Z) rest
      /\ newestFirst rest
  end.

(** The store after log records with the given time stamps were created
    for one bot, the record number [i] under the identifier [i]. *)
Definition logged (bot : str) (times : list Z) : Store :=
  fold_left (fun st it =>
               (createBotLog (ofN (N.of_nat it.1)) it.2
                  {| botId := bot; type := LogType.info;
                     message := lit "line" |} st).2)
    (imap (fun i t => (i, t)) times) empty.

(** A store with one bot that has two files and three log records. *)
Definition sample : Store :=
  let st1 :=
    (createBot (lit "b1") 10
       (InsertBot.Make (lit "u1") (lit "echo") (lit "T0K3N") (lit "python")
          (Some (lit "bot.py"))) empty).2 in
  let st2 :=
    (createBotFile (lit "f1") 11
       (InsertFile.Make (lit "b1") (lit "bot.py") (lit "print(1)") 8) st1).2 in
  let st3 :=
    (createBotFile (lit "f2") 12
       (InsertFile.Make (lit "b1") (lit "util.py") (lit "x = 1") 5) st2).2 in
  fold_left (fun st it =>
               (createBotLog (lit it.1) it.2
                  {| botId := lit "b1"; type := LogType.info;
                     message := lit "line" |} st).2)
    [("l1", 20%Z); ("l2", 22%Z); ("l3", 21%Z)]%string st3.

(** The file as [updateBotFile] leaves it. *)
Definition withContent (content : str) (file : StoredFile.t) : StoredFile.t :=
  StoredFile.Make (StoredFile.id file) (StoredFile.botId file)
    (StoredFile.filename file) content (byteLength content)
    (StoredFile.createdAt file).

End MemStorage.

(** ** Validation of an upload (server/services/file-handler.ts) *)

Module FileHandler.
Import RADARSystem BotManager Logic.

(** An uploaded file: its name and its bytes read as UTF-8 text. *)
Record Upload : Type := { originalname : str; buffer : str }.

(** [{ isValid, error, mainFile, warnings }] *)
Module Validation.
Record t : Type :=
  Make { isValid : bool; error : option str; mainFile : option str;
         warnings : option (list str) }.
End Validation.

Definition invalid (error : str) : Validation.t :=
  Validation.Make false (Some error) None None.

(** [files.some(test)] *)
Definition some {A : Type} (test : A -> bool) (l : list A) : bool :=
  existsb test l.

(** [warnings.push(text)] when [test] holds. *)
Definition pushIf (test : bool) (text : str) (warnings : list str)
  : list str :=
  if test then warnings ++ [text] else warnings.

Definition pythonCommonMainFiles : list str :=
  [lit "main.py"; lit "bot.py"; lit "app.py"; lit "run.py"; lit "__main__.py";
   lit "start.py"].

Definition jsCommonMainFiles : list str :=
  [lit "index.js"; lit "bot.js"; lit "app.js"; lit "main.js"; lit "server.js";
   lit "start.js"; lit "index.ts"; lit "bot.ts"; lit "app.ts"; lit "main.ts"].

(** The main file: the first file with a common name, else the first
    file. *)
Definition pickMainFile (commonMainFiles : list str)
  (runtimeFiles : list Upload) : option str :=
  orElse
    (originalname <$> find (fun f =>
       bool_decide (toLowerCase (originalname f) ∈ commonMainFiles))
       runtimeFiles)
    (originalname <$> head runtimeFiles).

Definition hasTokenPlaceholder (runtimeFiles : list Upload) : bool :=
  some (fun file =>
          JS.includes (buffer file) (lit "YOUR_BOT_TOKEN")
          || JS.includes (buffer file) (lit "TOKEN_HERE")) runtimeFiles.

(** [warnings.length > 0 ? warnings : undefined] *)
Definition orUndefined (warnings : list str) : option (list str) :=
  if 0 <? length warnings then Some warnings else None.

Definition validateBotFiles (files : list Upload) (language : str)
  : Validation.t :=
  if length files =? 0 then invalid (lit "No files uploaded")
  else if bool_decide (language = lit "python") then
    (* Look for main Python file *)
    let pythonFiles :=
      List.filter (fun f => endsWith (originalname f) (lit ".py")) files in
    if length pythonFiles =? 0 then
      invalid (lit "No Python (.py) files found. Please upload at least one Python file.")
    else
      let mainFile := pickMainFile pythonCommonMainFiles pythonFiles in
      let hasDiscordImports :=
        some (fun file =>
                let content := toLowerCase (buffer file) in
                JS.includes content (lit "import discord")
                || JS.includes content (lit "from discord")) pythonFiles in
      let w1 :=
        pushIf (negb hasDiscordImports)
          (lit "Warning: No Discord.py imports detected. Make sure you have "
           ++ [dquote] ++ lit "import discord" ++ [dquote]
           ++ lit " in your code.")
          [] in
      let hasBotRun :=
        some (fun file =>
                JS.includes (buffer file) (lit ".run(")
                || JS.includes (buffer file) (lit "bot.start")) pythonFiles in
      let w2 :=
        pushIf (negb hasBotRun)
          (lit "Warning: No bot.run() or bot.start() found. Make sure your bot has a way to start.")
          w1 in
      let w3 :=
        pushIf (hasTokenPlaceholder pythonFiles)
          (lit "Note: Token placeholders detected. These will be automatically replaced with your actual bot token.")
          w2 in
      Validation.Make true None mainFile (orUndefined w3)
  else if bool_decide (language = lit "nodejs") then
    (* Look for main JavaScript/TypeScript file *)
    let jsFiles :=
      List.filter (fun f => endsWith (originalname f) (lit ".js")
                            || endsWith (originalname f) (lit ".ts")) files in
    if length jsFiles =? 0 then
      invalid (lit "No JavaScript/TypeScript files found. Please upload at least one .js or .ts file.")
    else
      let mainFile := pickMainFile jsCommonMainFiles jsFiles in
      let hasDiscordImports :=
        some (fun file =>
                let content := toLowerCase (buffer file) in
                JS.includes content (lit "discord.js")
                || JS.includes content (lit "require('discord")
                || JS.includes content (lit "import")
                   && JS.includes content (lit "discord")) jsFiles in
      let w1 :=
        pushIf (negb hasDiscordImports)
          (lit "Warning: No Discord.js imports detected. Make sure you have Discord.js in your code.")
          [] in
      let hasClientLogin :=
        some (fun file =>
                JS.includes (buffer file) (lit ".login(")
                || JS.includes (buffer file) (lit "client.start")) jsFiles in
      let w2 :=
        pushIf (negb hasClientLogin)
          (lit "Warning: No client.login() found. Make sure your bot has a way to start.")
          w1 in
      let hasPackageJson :=
        some (fun f => bool_decide (originalname f = lit "package.json"))
          files in
      let w3 :=
        pushIf (negb hasPackageJson)
          (lit "Note: No package.json found. Dependencies will be auto-generated based on your code.")
          w2 in
      let w4 :=
        pushIf (hasTokenPlaceholder jsFiles)
          (lit "Note: Token placeholders detected. These will be automatically replaced with your actual bot token.")
          w3 in
      Validation.Make true None mainFile (orUndefined w4)
  else
    invalid (lit "Unsupported language: " ++ language
             ++ lit ". Please select Python or Node.js.").

(** The file as the route stores it: [{ filename: file.originalname,
    content: file.buffer.toString('utf-8') }]. *)
Definition stored (file : Upload) : BotFile :=
  File (originalname file) (buffer file).

(** Whether an uploaded file is a source file of the runtime of the
    language. *)
Definition ofRuntime (language : str) (f : Upload) : bool :=
  if bool_decide (language = lit "python") then
    endsWith (originalname f) (lit ".py")
  else if bool_decide (language = lit "nodejs") then
    endsWith (originalname f) (lit ".js")
    || endsWith (originalname f) (lit ".ts")
  else false.

End FileHandler.

(** * Properties *)

Import RADARSystem BotManager Logic.

Module CharFacts.

Lemma allChars_complete (c : ascii) : In c allChars.
Proof.
  unfold allChars. rewrite <- (ascii_nat_embedding c).
  apply in_map, in_seq. pose proof (nat_ascii_bounded c). lia.
Qed.

Lemma forallChars_spec (p : ascii -> bool) :
  forallChars p = true -> forall c, p c = true.
Proof.
  unfold forallChars. rewrite forallb_forall.
  intros H c. apply H, allChars_complete.
Qed.

Lemma eqb_true_iff (a b : ascii) : Ascii.eqb a b = true <-> a = b.
Proof. apply Ascii.eqb_eq. Qed.

Lemma toLowerChar_notUpper (c : ascii) : notUpper (toLowerChar c) = true.
Proof. revert c. apply forallChars_spec. vm_compute. reflexivity. Qed.

Lemma charMatches_lowered (c x : ascii) :
  notUpper c = true -> notUpper x = true ->
  charMatches true c x = Ascii.eqb c x.
Proof.
  revert c x.
  assert (H : forallChars (fun c => forallChars (fun x =>
            implb (notUpper c && notUpper x)
              (Bool.eqb (charMatches true c x) (Ascii.eqb c x)))) = true)
    by (vm_compute; reflexivity).
  intros c x Hc Hx.
  pose proof (forallChars_spec _ (forallChars_spec _ H c) x) as E.
  rewrite Hc, Hx in E. simpl in E. apply Bool.eqb_prop in E. exact E.
Qed.

End CharFacts.

Module StringFacts.
Import CharFacts.

Lemma startsWith_spec (s p : str) :
  startsWith s p = true <-> exists b, s = p ++ b.
Proof.
  revert s. induction p as [|a p IH]; intros s.
  - destruct s; split; eauto.
  - destruct s as [|x s].
    + split; [discriminate | intros [b Hb]; discriminate].
    + simpl. destruct (Ascii.eqb a x) eqn:E.
      * apply Ascii.eqb_eq in E. subst x. split.
        -- intros H. apply IH in H as [b ->]. by exists b.
        -- intros [b Hb]. apply IH. exists b. by inversion Hb.
      * split; [discriminate |]. intros [b Hb]. inversion Hb. subst.
        rewrite Ascii.eqb_refl in E. discriminate.
Qed.

Lemma includes_nil (p : str) : includes [] p = startsWith [] p.
Proof. unfold includes. apply orb_false_r. Qed.

Lemma includes_cons (x : ascii) (s p : str) :
  includes (x :: s) p = startsWith (x :: s) p || includes s p.
Proof. reflexivity. Qed.

Lemma includes_spec (s p : str) :
  includes s p = true <-> exists a b, s = a ++ p ++ b.
Proof.
  induction s as [|x s IH].
  - rewrite includes_nil, startsWith_spec. split.
    + intros [b Hb]. exists [], b. exact Hb.
    + intros (a & b & H). destruct a; [eauto|discriminate].
  - rewrite includes_cons, orb_true_iff, startsWith_spec, IH. split.
    + intros [[b Hb] | (a & b & H)].
      * exists [], b. exact Hb.
      * exists (x :: a), b. by rewrite H.
    + intros (a & b & H). destruct a as [|y a].
      * left. eauto.
      * right. inversion H. eauto.
Qed.

Lemma includes_app (a p b : str) : includes (a ++ p ++ b) p = true.
Proof. apply includes_spec. eauto. Qed.

Lemma toLowerCase_app (a b : str) :
  toLowerCase (a ++ b) = toLowerCase a ++ toLowerCase b.
Proof. apply map_app. Qed.

Lemma toLowerCase_notUpper (t : str) :
  Forall (fun c => notUpper c = true) (toLowerCase t).
Proof.
  induction t; constructor; auto using toLowerChar_notUpper.
Qed.

(** What [trimStart] removes is a prefix of white space. *)
Lemma trimStart_prefix (s : str) :
  exists ws, s = ws ++ trimStart s /\ forallb isSpace ws = true.
Proof.
  induction s as [|c s (ws & E & Hws)]; simpl.
  - by exists [].
  - destruct (isSpace c) eqn:Hc.
    + exists (c :: ws). simpl. rewrite Hc, Hws. split; [by rewrite <- E | done].
    + by exists [].
Qed.

(** A text that begins with a character that is not white space keeps it. *)
Lemma trimStart_keeps (a p b : str) c :
  head p = Some c -> isSpace c = false ->
  exists a', trimStart (a ++ p ++ b) = a' ++ p ++ b.
Proof.
  intros Hp Hc. induction a as [|x a IH]; simpl.
  - exists []. destruct p as [|y p]; [discriminate|]. simpl in *.
    inversion Hp; subst. by rewrite Hc.
  - destruct (isSpace x); [exact IH|]. by exists (x :: a).
Qed.

Lemma head_rev (p : str) : head (rev p) = last p.
Proof.
  induction p as [|x l _] using rev_ind; [done|].
  by rewrite rev_app_distr, last_snoc.
Qed.

Lemma trimEnd_keeps (a p b : str) c :
  last p = Some c -> isSpace c = false ->
  exists b', trimEnd (a ++ p ++ b) = a ++ p ++ b'.
Proof.
  intros Hp Hc. unfold trimEnd.
  rewrite !rev_app_distr, <- app_assoc.
  destruct (trimStart_keeps (rev b) (rev p) (rev a) c) as [b' Hb']; [|done|].
  - by rewrite head_rev.
  - rewrite Hb'. exists (rev b').
    by rewrite !rev_app_distr, !rev_involutive, <- app_assoc.
Qed.

(** [trim] keeps an occurrence of a text that neither begins nor ends with
    white space. *)
Lemma trim_keeps (s p : str) c d :
  head p = Some c -> isSpace c = false ->
  last p = Some d -> isSpace d = false ->
  includes s p = true -> includes (trim s) p = true.
Proof.
  intros Hc Hcs Hd Hds. rewrite !includes_spec. intros (a & b & ->).
  unfold trim.
  destruct (trimStart_keeps a p b c Hc Hcs) as [a' ->].
  destruct (trimEnd_keeps a' p b d Hd Hds) as [b' ->]. eauto.
Qed.

(** What [trim] keeps is a part of the text. *)
Lemma trim_infix (s : str) : exists a b, s = a ++ trim s ++ b.
Proof.
  unfold trim, trimEnd.
  destruct (trimStart_prefix s) as (ws & E & _).
  destruct (trimStart_prefix (rev (trimStart s))) as (ws' & E' & _).
  exists ws, (rev ws').
  rewrite E at 1. f_equal.
  apply (f_equal (@rev ascii)) in E'. rewrite rev_involutive in E'.
  rewrite E' at 1. by rewrite rev_app_distr.
Qed.

End StringFacts.

Module RegexFacts.
Import CharFacts StringFacts.

Lemma startsWith_nil (s : str) : startsWith s [] = true.
Proof. by destruct s. Qed.

(** A word matches where the text starts with it. *)
Lemma matchK_word ic (w : str) (k : str -> option str) (s : str) :
  (forall c x, In c w -> In x s -> charMatches ic c x = Ascii.eqb c x) ->
  matchK ic (word w) k s
  = if startsWith s w then k (drop (length w) s) else None.
Proof.
  revert k s. induction w as [|c w IH]; intros k s Hcs.
  - simpl. by rewrite startsWith_nil.
  - assert (Hone : matchK ic (Cat (Chr c) (word w)) k s
                   = if startsWith s (c :: w) then k (drop (length (c :: w)) s)
                     else None).
    { destruct s as [|x s]; [done|]. simpl.
      rewrite (Hcs c x) by (simpl; auto).
      destruct (Ascii.eqb c x); [|done].
      apply IH. intros c' x' Hc' Hx'. apply Hcs; simpl; auto. }
    destruct w as [|d w]; [|exact Hone].
    rewrite <- Hone. simpl. destruct s as [|x s]; [done|].
    by destruct (charMatches ic c x).
Qed.

Lemma matchAt_word ic (w s : str) :
  (forall c x, In c w -> In x s -> charMatches ic c x = Ascii.eqb c x) ->
  is_Some (matchAt ic (word w) s) <-> startsWith s w = true.
Proof.
  intros H. unfold matchAt. rewrite matchK_word by done.
  destruct (startsWith s w); split; try done; eauto.
Qed.

Lemma matchAt_alts ic (rs : list regex) (s : str) :
  is_Some (matchAt ic (alts rs) s)
  <-> exists r, In r rs /\ is_Some (matchAt ic r s).
Proof.
  induction rs as [|r rs IH].
  - split; [|by intros (? & [] & _)].
    unfold matchAt. simpl. destruct s; by intros [? ?].
  - destruct rs as [|r' rs].
    + simpl. split; [eauto|]. by intros (? & [<-|[]] & ?).
    + change (alts (r :: r' :: rs)) with (Alt r (alts (r' :: rs))).
      unfold matchAt in *. simpl matchK.
      destruct (matchK ic r Some s) eqn:E.
      * split; [|eauto]. intros _. exists r. rewrite E. simpl; eauto.
      * rewrite IH. split.
        -- intros (x & Hx & Hm). exists x. split; [by right | done].
        -- intros (x & [<-|Hx] & Hm); [|eauto].
           rewrite E in Hm. by destruct Hm.
Qed.

Lemma test_spec ic (r : regex) (s : str) :
  test ic r s = true <-> exists a b, s = a ++ b /\ is_Some (matchAt ic r b).
Proof.
  induction s as [|x s IH]; simpl.
  - destruct (matchAt ic r []) eqn:E.
    + split; [|done]. intros _. exists [], []. rewrite E. eauto.
    + split; [done|]. intros (a & b & Hab & Hm).
      symmetry in Hab. apply app_eq_nil in Hab as [-> ->].
      rewrite E in Hm. by destruct Hm.
  - destruct (matchAt ic r (x :: s)) eqn:E.
    + split; [|done]. intros _. exists [], (x :: s). rewrite E. eauto.
    + rewrite IH. split.
      * intros (a & b & -> & Hm). by exists (x :: a), b.
      * intros (a & b & Hab & Hm). destruct a as [|y a].
        -- simpl in Hab. subst b. rewrite E in Hm. by destruct Hm.
        -- inversion Hab. eauto.
Qed.

(** An alternation of words, tried on a text without capital letters under
    the [i] flag, finds a match exactly when one of the words occurs in
    the text. *)
Lemma test_keywords (ws : list str) (s : str) :
  Forall (fun c => notUpper c = true) s ->
  Forall (Forall (fun c => notUpper c = true)) ws ->
  test true (alts (map word ws)) s = true
  <-> exists w, In w ws /\ includes s w = true.
Proof.
  intros Hs Hws.
  assert (Hm : forall w b a, In w ws -> s = a ++ b ->
            (is_Some (matchAt true (word w) b) <-> startsWith b w = true)).
  { intros w b a Hw ->. apply matchAt_word. intros c x Hc Hx.
    apply charMatches_lowered.
    - rewrite Forall_forall in Hws. apply list_elem_of_In in Hw.
      specialize (Hws w Hw). rewrite Forall_forall in Hws.
      apply Hws. by apply list_elem_of_In.
    - rewrite Forall_forall in Hs. apply Hs, list_elem_of_In.
      apply in_or_app. by right. }
  rewrite test_spec. split.
  - intros (a & b & Hab & Hsome). apply matchAt_alts in Hsome as (r & Hr & Hsome).
    apply in_map_iff in Hr as (w & <- & Hw). exists w. split; [done|].
    apply (Hm w b a Hw Hab) in Hsome. apply startsWith_spec in Hsome as [t ->].
    subst s. apply includes_app.
  - intros (w & Hw & Hinc). apply includes_spec in Hinc as (a & b & Hab).
    exists a, (w ++ b). split; [done|]. apply matchAt_alts.
    exists (word w). split; [by apply in_map|].
    apply (Hm w (w ++ b) a Hw Hab). apply startsWith_spec. eauto.
Qed.

End RegexFacts.

Module SplitFacts.
Import CharFacts StringFacts RegexFacts.

Lemma split_nonempty (s : str) (sep : ascii) :
  exists piece rest, split s sep = piece :: rest.
Proof.
  induction s as [|c s (piece & rest & E)]; cbn [split]; [eauto|].
  destruct (Ascii.eqb c sep); [eauto|]. rewrite E. eauto.
Qed.

Lemma split_cons_ne (c sep : ascii) (s piece : str) (rest : list str) :
  Ascii.eqb c sep = false -> split s sep = piece :: rest ->
  split (c :: s) sep = (c :: piece) :: rest.
Proof. intros Hc E. cbn [split]. by rewrite Hc, E. Qed.

(** The first piece is a prefix of the text. *)
Lemma split_head_prefix (s : str) (sep : ascii) piece rest :
  split s sep = piece :: rest -> exists b, s = piece ++ b.
Proof.
  revert piece rest. induction s as [|c s IH]; intros piece rest; cbn [split].
  - intros [= <- <-]. by exists [].
  - destruct (Ascii.eqb c sep).
    + intros [= <- <-]. by exists (c :: s).
    + destruct (split_nonempty s sep) as (p & r & E). rewrite E.
      intros [= <- <-]. destruct (IH p r E) as [b ->]. by exists b.
Qed.

(** A piece is a part of the text. *)
Lemma split_infix (s : str) (sep : ascii) (line : str) :
  In line (split s sep) -> exists a b, s = a ++ line ++ b.
Proof.
  revert line. induction s as [|c s IH]; intros line; cbn [split].
  - intros [<-|[]]. by exists [], [].
  - destruct (Ascii.eqb c sep).
    + intros [<-|Hin]; [by exists [], (c :: s)|].
      destruct (IH line Hin) as (a & b & ->). by exists (c :: a), b.
    + destruct (split_nonempty s sep) as (p & r & E). rewrite E.
      intros [<-|Hin].
      * destruct (split_head_prefix s sep p r E) as [b ->]. by exists [], b.
      * destruct (IH line) as (a & b & ->); [rewrite E; by right|].
        by exists (c :: a), b.
Qed.

(** A text without the separator that the text starts with is at the start
    of the first piece. *)
Lemma split_head_startsWith (m s : str) (sep : ascii) :
  ~ In sep m -> startsWith s m = true ->
  exists piece rest, split s sep = piece :: rest /\ startsWith piece m = true.
Proof.
  revert s. induction m as [|a m IH]; intros s Hsep Hst.
  - destruct (split_nonempty s sep) as (p & r & E).
    exists p, r. by rewrite startsWith_nil.
  - destruct s as [|x s]; [done|]. simpl in Hst.
    destruct (Ascii.eqb a x) eqn:Eax; [|done].
    apply Ascii.eqb_eq in Eax. subst x.
    destruct (IH s) as (p & r & E & Hp); [intros ?; apply Hsep; by right|done|].
    exists (a :: p), r. split.
    + apply split_cons_ne; [|done]. apply Ascii.eqb_neq.
      intros ->. apply Hsep. by left.
    + simpl. by rewrite Ascii.eqb_refl.
Qed.

(** A text without the separator that occurs in the text occurs in one of
    the pieces. *)
Lemma split_includes (s m : str) (sep : ascii) :
  ~ In sep m -> includes s m = true ->
  exists line, In line (split s sep) /\ includes line m = true.
Proof.
  intros Hsep. induction s as [|c s IH].
  - rewrite includes_nil. intros H. exists []. split; [by left|].
    by rewrite includes_nil.
  - rewrite includes_cons. intros [Hst|Hinc]%orb_true_iff.
    + destruct (split_head_startsWith m (c :: s) sep Hsep Hst)
        as (p & r & E & Hp).
      exists p. rewrite E. split; [by left|].
      destruct p; [by rewrite includes_nil|].
      by rewrite includes_cons, Hp.
    + destruct (IH Hinc) as (line & Hin & Hline).
      cbn [split]. destruct (Ascii.eqb c sep); [exists line; split; [by right|done]|].
      destruct (split s sep) as [|p r]; [done|].
      destruct Hin as [<-|Hin].
      * exists (c :: p). split; [by left|].
        by rewrite includes_cons, Hline, orb_true_r.
      * exists line. split; [by right|done].
Qed.

(** An occurrence in a part of a text is an occurrence in the text. *)
Lemma includes_infix (a s b m : str) :
  includes s m = true -> includes (a ++ s ++ b) m = true.
Proof.
  rewrite !includes_spec. intros (x & y & ->).
  exists (a ++ x), (y ++ b). by rewrite <- !app_assoc.
Qed.

(** The lowered form of a text that contains a text in lower case contains
    it too. *)
Lemma includes_toLowerCase (s m : str) :
  toLowerCase m = m -> includes s m = true ->
  includes (toLowerCase s) m = true.
Proof.
  intros Hm. rewrite !includes_spec. intros (a & b & ->).
  exists (toLowerCase a), (toLowerCase b).
  by rewrite !toLowerCase_app, Hm.
Qed.

(** What [scanLine] reads of a line is a part of the lowered text of the
    file. *)
Lemma cleanLine_includes (text line : str) (m : str) :
  In line (split text newline) ->
  includes (toLowerCase (trim line)) m = true ->
  includes (toLowerCase text) m = true.
Proof.
  intros Hin Hinc.
  destruct (split_infix text newline line Hin) as (a & b & ->).
  destruct (trim_infix line) as (x & y & E).
  assert (H1 : includes (toLowerCase line) m = true).
  { rewrite E, !toLowerCase_app. by apply includes_infix. }
  rewrite !toLowerCase_app. by apply includes_infix.
Qed.

End SplitFacts.

Module RadarFacts.
Import CharFacts StringFacts RegexFacts.

Lemma checkPattern_score file lowered acc p :
  (checkPattern file lowered acc p).2
  = (acc.2 + if test true (re p) lowered then 10 else 0)%N.
Proof. unfold checkPattern. destruct (test true (re p) lowered); simpl; lia. Qed.

(** The loop over the patterns adds 10 for each pattern that matches. *)
Lemma patterns_score file lowered ps acc :
  (fold_left (checkPattern file lowered) ps acc).2
  = (acc.2 + 10 * N.of_nat (length (matching ps lowered)))%N.
Proof.
  revert acc. induction ps as [|p ps IH]; intros acc; simpl.
  - lia.
  - rewrite IH, checkPattern_score.
    destruct (test true (re p) lowered); simpl; lia.
Qed.

Lemma matching_length ps lowered : length (matching ps lowered) <= length ps.
Proof. apply List.filter_length_le. Qed.

Lemma checkIndicator_score file lowered acc p :
  (acc.2 <= (checkIndicator file lowered acc p).2)%N.
Proof. unfold checkIndicator. destruct (test true (re p) lowered); simpl; lia. Qed.

Lemma indicators_score file lowered ps acc :
  (acc.2 <= (fold_left (checkIndicator file lowered) ps acc).2)%N.
Proof.
  revert acc. induction ps as [|p ps IH]; intros acc; simpl; [lia|].
  etrans; [|apply IH]. apply checkIndicator_score.
Qed.

Lemma checkLength_score file lowered acc :
  (acc.2 <= (checkLength file lowered acc).2)%N.
Proof. unfold checkLength. case_match; simpl; lia. Qed.

(** The score after a file is the score before it, 10 for each matching
    pattern, and what the length and the obfuscation checks add. *)
Lemma analyzeFile_score acc file :
  (acc.2 + 10 * N.of_nat (length (matching suspiciousPatterns
                                     (toLowerCase (content file))))
   <= (analyzeFile acc file).2)%N.
Proof.
  unfold analyzeFile. cbv zeta.
  etrans; [|apply indicators_score]. etrans; [|apply checkLength_score].
  by rewrite patterns_score.
Qed.

Lemma keywordGroups_patterns :
  map re (take 6 suspiciousPatterns)
  = map (fun ws => alts (map word (map lit ws))) keywordGroups.
Proof. reflexivity. Qed.

Lemma keywordGroups_lower :
  Forall (fun ws => Forall (Forall (fun c => notUpper c = true)) (map lit ws))
    keywordGroups.
Proof. repeat (constructor; try reflexivity). Qed.

End RadarFacts.

Module WpRules.

Section Rules.
Context {A B : Type}.
Implicit Types (Q : outcome A -> State -> Prop) (s : State).

Lemma wp_ret (a : A) Q s : Q (Ok a) s -> wp (mret a) Q s.
Proof. done. Qed.

Lemma wp_throw (msg : str) Q s : Q (Throw msg) s -> wp (throw msg) Q s.
Proof. done. Qed.

Lemma wp_gets (f : State -> A) Q s : Q (Ok (f s)) s -> wp (gets f) Q s.
Proof. done. Qed.

Lemma wp_bind (m : M B) (f : B -> M A) Q s :
  wp m (fun o s' =>
          match o with
          | Ok b => wp (f b) Q s'
          | Throw msg => Q (Throw msg) s'
          end) s ->
  wp (m ≫= f) Q s.
Proof.
  unfold wp, mbind, M_bind. by destruct (m s) as [[b|msg] s'].
Qed.

Lemma wp_tryCatch (body : M A) (handler : str -> M A) Q s :
  wp body (fun o s' =>
             match o with
             | Ok a => Q (Ok a) s'
             | Throw msg => wp (handler msg) Q s'
             end) s ->
  wp (tryCatch body handler) Q s.
Proof.
  unfold wp, tryCatch. by destruct (body s) as [[a|msg] s'].
Qed.

Lemma wp_mono (m : M A) Q Q' s :
  wp m Q s -> (forall o s', Q o s' -> Q' o s') -> wp m Q' s.
Proof. unfold wp. auto. Qed.

Lemma wp_run (m : M A) Q s : wp m Q s -> Q (m s).1 (m s).2.
Proof. done. Qed.

Lemma wp_eq (m : M A) Q s o s' : m s = (o, s') -> Q o s' -> wp m Q s.
Proof. unfold wp. by intros ->. Qed.

End Rules.

Lemma wp_modify (f : State -> State) (Q : outcome unit -> State -> Prop) s :
  Q (Ok tt) (f s) -> wp (modify f) Q s.
Proof. done. Qed.

Lemma wp_updateBot id p (Q : outcome unit -> State -> Prop) s :
  Q (Ok tt) (persist id p s) -> wp (updateBot id p) Q s.
Proof. done. Qed.

Lemma wp_logBotOutput id ty msg (Q : outcome unit -> State -> Prop) s :
  Q (Ok tt) (withBotLogs (fun logs =>
               logs ++ [{| botId := id; type := ty; message := trim msg |}]) s) ->
  wp (logBotOutput id ty msg) Q s.
Proof. done. Qed.

Lemma wp_consoleError line (Q : outcome unit -> State -> Prop) s :
  Q (Ok tt) (withConsole (fun lines => lines ++ [line]) s) ->
  wp (consoleError line) Q s.
Proof. done. Qed.

Lemma state_ext (s1 s2 : State) :
  processes s1 = processes s2 -> bots s1 = bots s2 ->
  botFiles s1 = botFiles s2 -> botLogs s1 = botLogs s2 ->
  disk s1 = disk s2 -> signals s1 = signals s2 ->
  console s1 = console s2 -> pendingStops s1 = pendingStops s2 ->
  replies s1 = replies s2 -> journal s1 = journal s2 -> s1 = s2.
Proof. destruct s1, s2; simpl; intros; by subst. Qed.

(** The projections of a state after an update of one of its parts. *)
Ltac state :=
  cbn [processes bots botFiles botLogs disk signals console pendingStops
       replies journal withProcesses withBots withBotLogs withDisk
       withSignals withConsole withPendingStops withReplies withJournal
       persist register unregister] in *.

(** Two states are equal when their parts are. *)
Ltac state_eq := apply state_ext; state.

(** One step of the code under [wp]. *)
Ltac wp_step :=
  lazymatch goal with
  | |- wp (mbind _ _) _ _ => apply wp_bind
  | |- wp (mret _) _ _ => apply wp_ret
  | |- wp (throw _) _ _ => apply wp_throw
  | |- wp (gets _) _ _ => apply wp_gets
  | |- wp (modify _) _ _ => apply wp_modify
  | |- wp (tryCatch _ _) _ _ => apply wp_tryCatch
  | |- wp (updateBot _ _) _ _ => apply wp_updateBot
  | |- wp (logBotOutput _ _ _) _ _ => apply wp_logBotOutput
  | |- wp (consoleError _) _ _ => apply wp_consoleError
  | |- wp (getBot _) _ _ => apply wp_gets
  | |- wp (getBotFiles _) _ _ => apply wp_gets
  | |- wp (deleteProcess _) _ _ => apply wp_modify
  | |- wp (setProcess _ _) _ _ => apply wp_modify
  | |- wp (kill _ _) _ _ => apply wp_modify
  | |- wp (createBotLog _) _ _ => apply wp_modify
  | |- wp (if ?b then _ else _) _ _ => destruct b eqn:?
  end; state.

Ltac wp_steps := repeat wp_step.

End WpRules.

Module StartFacts.
Import WpRules.

(** A suspicious verdict, like a failed validation, ends the attempt with
    status 'error': nothing is written to disk and no child is spawned. *)
Lemma startBot_veto (w : World) (s : State) (id : str) (bot : Bot) :
  bots s !! id = Some bot ->
  processes s !! id = None ->
  isSuspicious (analyzeCode (default [] (botFiles s !! id))) = true ->
  exists r s',
    startBot w id s = (Ok r, s')
    /\ Result.success r = false
    /\ status <$> bots s' !! id = Some Status.error
    /\ processes s' = processes s
    /\ disk s' = disk s.
Proof.
  intros Hbot Hproc Hsus.
  enough (wp (startBot w id)
            (fun o s' => exists r, o = Ok r /\ Result.success r = false
               /\ status <$> bots s' !! id = Some Status.error
               /\ processes s' = processes s /\ disk s' = disk s) s) as H.
  { apply wp_run in H. destruct (startBot w id s) as [o s']. simpl in H.
    destruct H as (r & -> & H). eauto. }
  unfold startBot. wp_step. wp_step. rewrite Hbot.
  wp_step. wp_step. rewrite Hproc.
  rewrite bool_decide_eq_false_2 by (by intros [? ?]).
  wp_step. wp_step. wp_step.
  unfold startAttempt, validateBot.
  assert (Hst : status <$> alter (applyPatch (statusOnly Status.error)) id
                  (alter (applyPatch (statusOnly Status.starting)) id (bots s))
                  !! id = Some Status.error)
    by (by rewrite !lookup_alter_eq, Hbot).
  wp_steps; try discriminate; eauto 10.
Qed.

End StartFacts.

Module QuietFacts.
Import WpRules.

#[export] Instance sameStore_preorder : PreOrder sameStore.
Proof.
  split.
  - intros s. by repeat split.
  - intros s1 s2 s3 (? & ? & ? & ? & ?) (? & ? & ? & ? & ?).
    repeat split; congruence.
Qed.

#[export] Instance sameButConsole_equivalence : Equivalence sameButConsole.
Proof.
  split.
  - intros s. by repeat split.
  - intros s1 s2 (?&?&?&?&?&?&?&?&?). by repeat split.
  - intros s1 s2 s3 (?&?&?&?&?&?&?&?&?) (?&?&?&?&?&?&?&?&?).
    repeat split; congruence.
Qed.

Section Rules.
Context {A B : Type} (R : relation State) `{!PreOrder R}.

Lemma within_ret (a : A) : within R (mret a).
Proof. intros s. reflexivity. Qed.

Lemma within_throw (msg : str) : within R (throw (A := A) msg).
Proof. intros s. reflexivity. Qed.

Lemma within_gets (f : State -> A) : within R (gets f).
Proof. intros s. reflexivity. Qed.

Lemma within_bind (m : M B) (f : B -> M A) :
  within R m -> (forall b, within R (f b)) -> within R (m ≫= f).
Proof.
  intros Hm Hf s. specialize (Hm s). unfold mbind, M_bind.
  destruct (m s) as [[b|msg] s1]; [|exact Hm].
  etrans; [exact Hm|apply Hf].
Qed.

Lemma within_tryCatch (body : M A) (handler : str -> M A) :
  within R body -> (forall msg, within R (handler msg)) ->
  within R (tryCatch body handler).
Proof.
  intros Hm Hh s. specialize (Hm s). unfold tryCatch.
  destruct (body s) as [[a|msg] s1]; [exact Hm|].
  etrans; [exact Hm|apply Hh].
Qed.

Lemma wp_within (m : M A) (Q : outcome A -> State -> Prop) s :
  within R m -> (forall o s', R s s' -> Q o s') -> wp m Q s.
Proof. intros Hm HQ. apply HQ, Hm. Qed.

End Rules.

Lemma within_consoleError R `{!PreOrder R} line :
  (forall f s, R s (withConsole f s)) -> within R (consoleError line).
Proof. intros H s. apply H. Qed.

Lemma sameStore_withConsole f s : sameStore s (withConsole f s).
Proof. by repeat split. Qed.


(** The package tools write to the console and to nothing else. *)
Lemma within_onToolFailure R `{!PreOrder R} cmd args code stderr :
  (forall f s, R s (withConsole f s)) ->
  within R (onToolFailure cmd args code stderr).
Proof.
  intros HR. unfold onToolFailure. cbv zeta.
  apply within_bind; [done|by apply within_consoleError|intros _].
  apply within_bind; [done| |intros _; by apply within_throw].
  destruct (0 <? _); [by apply within_consoleError|by apply within_ret].
Qed.

Lemma within_runCommand R `{!PreOrder R} w cmd args cwd timeout :
  (forall f s, R s (withConsole f s)) ->
  within R (runCommand w cmd args cwd timeout).
Proof.
  intros HR. unfold runCommand.
  destruct (commandOutcome w cmd args); try apply within_throw; try done.
  destruct (bool_decide _); [by apply within_ret|].
  by apply within_onToolFailure.
Qed.

Lemma within_onKilledToolExit R `{!PreOrder R} cmd args stderr :
  (forall f s, R s (withConsole f s)) ->
  within R (onKilledToolExit cmd args stderr).
Proof.
  intros HR. unfold onKilledToolExit.
  apply within_tryCatch; [done|by apply within_onToolFailure|].
  intros _. by apply within_ret.
Qed.

Lemma within_killedToolExit R `{!PreOrder R} w cmd args :
  (forall f s, R s (withConsole f s)) ->
  within R (killedToolExit w cmd args).
Proof.
  intros HR. unfold killedToolExit.
  destruct (commandOutcome w cmd args); try (by apply within_ret).
  by apply within_onKilledToolExit.
Qed.

Lemma quiet_ret {A} (a : A) : quiet (mret a).
Proof. apply within_ret; apply _. Qed.

Lemma quiet_throw {A} (msg : str) : quiet (throw (A := A) msg).
Proof. apply within_throw; apply _. Qed.

Lemma quiet_gets {A} (f : State -> A) : quiet (gets f).
Proof. apply within_gets; apply _. Qed.

Lemma quiet_bind {A B} (m : M B) (f : B -> M A) :
  quiet m -> (forall b, quiet (f b)) -> quiet (m ≫= f).
Proof. apply within_bind; apply _. Qed.

Lemma quiet_tryCatch {A} (body : M A) (handler : str -> M A) :
  quiet body -> (forall msg, quiet (handler msg)) ->
  quiet (tryCatch body handler).
Proof. apply within_tryCatch; apply _. Qed.

Lemma wp_quiet {A} (m : M A) (Q : outcome A -> State -> Prop) s :
  quiet m -> (forall o s', sameStore s s' -> Q o s') -> wp m Q s.
Proof. apply wp_within. Qed.

Lemma quiet_withDisk f : quiet (modify (withDisk f)).
Proof. intros s. by repeat split. Qed.

Lemma quiet_consoleError line : quiet (consoleError line).
Proof. apply within_consoleError; [apply _|apply sameStore_withConsole]. Qed.

Ltac quiet_step :=
  lazymatch goal with
  | |- quiet (mbind _ _) => apply quiet_bind; [|intros ?]
  | |- quiet (mret _) => apply quiet_ret
  | |- quiet (throw _) => apply quiet_throw
  | |- quiet (gets _) => apply quiet_gets
  | |- quiet (tryCatch _ _) => apply quiet_tryCatch; [|intros ?]
  | |- quiet (modify (withDisk _)) => apply quiet_withDisk
  | |- quiet (consoleError _) => apply quiet_consoleError
  | |- quiet (if ?b then _ else _) => destruct b
  | |- quiet (match ?x with _ => _ end) => destruct x
  end.

Lemma quiet_mkdir w dir : quiet (mkdir w dir).
Proof. unfold mkdir. repeat quiet_step. Qed.

Lemma quiet_writeFile w dir name text : quiet (writeFile w dir name text).
Proof. unfold writeFile. repeat quiet_step. Qed.

Lemma quiet_access dir name : quiet (access dir name).
Proof. apply quiet_gets. Qed.

Lemma quiet_readFile dir name : quiet (readFile dir name).
Proof. unfold readFile. repeat quiet_step. Qed.

Lemma quiet_writeFiles w dir files tok : quiet (writeFiles w dir files tok).
Proof.
  induction files as [|f files IH]; cbn [writeFiles].
  - apply quiet_ret.
  - apply quiet_bind; [apply quiet_writeFile|intros _; exact IH].
Qed.

Lemma quiet_createBotWorkspace w id files tok :
  quiet (createBotWorkspace w id files tok).
Proof.
  unfold createBotWorkspace. cbv zeta.
  apply quiet_bind; [apply quiet_mkdir|intros _].
  apply quiet_bind; [apply quiet_writeFiles|intros _]. apply quiet_ret.
Qed.

Lemma quiet_autoCreateDependencies w dir lang files :
  quiet (autoCreateDependencies w dir lang files).
Proof.
  unfold autoCreateDependencies. cbv zeta.
  apply quiet_tryCatch; [|intros _; apply quiet_ret].
  destruct (bool_decide (lang = lit "python")).
  - apply quiet_bind; [apply quiet_access|intros b].
    destruct (negb b); [|apply quiet_ret].
    destruct (0 <? _); [apply quiet_writeFile|apply quiet_ret].
  - destruct (bool_decide (lang = lit "nodejs")); [|apply quiet_ret].
    apply quiet_bind; [apply quiet_access|intros b].
    destruct (negb b); [|apply quiet_ret].
    destruct (0 <? _); [apply quiet_writeFile|apply quiet_ret].
Qed.

Lemma quiet_runCommand w cmd args cwd timeout :
  quiet (runCommand w cmd args cwd timeout).
Proof. apply within_runCommand; [apply _|apply sameStore_withConsole]. Qed.

Lemma quiet_killedToolExit w cmd args : quiet (killedToolExit w cmd args).
Proof. apply within_killedToolExit; [apply _|apply sameStore_withConsole]. Qed.

Lemma quiet_installAttempts w dir lang : quiet (installAttempts w dir lang).
Proof.
  unfold installAttempts.
  destruct (bool_decide (lang = lit "python")).
  - apply quiet_bind; [apply quiet_access|intros b].
    destruct b; [|apply quiet_ret].
    apply quiet_bind; [apply quiet_readFile|intros _].
    repeat (apply quiet_tryCatch; [apply quiet_runCommand|intros _];
            apply quiet_bind; [apply quiet_killedToolExit|intros _]).
    apply quiet_runCommand.
  - destruct (bool_decide (lang = lit "nodejs")); [|apply quiet_ret].
    apply quiet_bind; [apply quiet_access|intros b].
    destruct b; [|apply quiet_ret].
    apply quiet_bind; [apply quiet_readFile|intros text].
    destruct (jsonParseError w text); [apply quiet_throw|apply quiet_runCommand].
Qed.

Lemma quiet_installDependencies w dir lang :
  quiet (installDependencies w dir lang).
Proof.
  unfold installDependencies.
  apply quiet_tryCatch; [apply quiet_installAttempts|intros msg].
  apply quiet_consoleError.
Qed.

Lemma quiet_resolveMainFile bot dir files isRt common e1 e2 :
  quiet (resolveMainFile bot dir files isRt common e1 e2).
Proof.
  unfold resolveMainFile. cbv zeta.
  destruct (if falsy (mainFile bot) then _ else _) as [[|c m]|];
    try apply quiet_throw.
  apply quiet_bind; [apply quiet_access|intros b].
  destruct b; [apply quiet_ret|].
  destruct (List.filter isRt files); [apply quiet_throw|apply quiet_ret].
Qed.

End QuietFacts.

Module StartSuccess.
Import WpRules QuietFacts.

(** The child that [startAttempt] spawns has the environment of the server
    with the token of the bot in it. *)
Lemma startAttempt_success (w : World) (id : str) (bot : Bot) (s : State) :
  wp (startAttempt w id bot)
    (fun o s' => forall r, o = Ok r -> Result.success r = true ->
       exists child,
         env child = childEnv w bot id
         /\ pid child = spawnPid w
         /\ processes s' = <[id := child]> (processes s)
         /\ bots s' = alter (applyPatch (runningPatch w child)) id (bots s)
         /\ botFiles s' = botFiles s
         /\ botLogs s' = botLogs s
         /\ journal s'
            = journal s ++ [HandleSet id child;
                            BotUpdated id (runningPatch w child)]) s.
Proof.
  unfold startAttempt.
  wp_step. unfold validateBot. wp_steps; try discriminate.
  all: try (intros r Hr; inversion Hr; subst; discriminate).
  apply wp_quiet; [apply quiet_createBotWorkspace|].
  intros [botDir|msg] s1 (Hp1 & Hb1 & Hf1 & Hl1 & Hj1); [|discriminate].
  wp_step.
  apply wp_quiet; [apply quiet_autoCreateDependencies|].
  intros [[]|msg] s2 (Hp2 & Hb2 & Hf2 & Hl2 & Hj2); [|discriminate].
  wp_step.
  apply wp_quiet; [apply quiet_installDependencies|].
  intros [[]|msg] s3 (Hp3 & Hb3 & Hf3 & Hl3 & Hj3); [|discriminate].
  cbv zeta. wp_step.
  assert (Hdone : forall child s4,
            env child = childEnv w bot id -> pid child = spawnPid w ->
            sameStore s3 s4 ->
            wp (setProcess id child
                ≫= (fun _ => updateBot id
                     {| setStatus := Some Status.running;
                        setProcessId := Some (Some (pidOrZero child));
                        setMemoryUsage := None; setCpuUsage := None;
                        setLastStarted := Some (Some (now w)) |}
                ≫= fun _ => mret (Result.Make true (lit "Bot started successfully"))))
              (fun o s' => forall r, o = Ok r -> Result.success r = true ->
                 exists child,
                   env child = childEnv w bot id
                   /\ pid child = spawnPid w
                   /\ processes s' = <[id := child]> (processes s)
                   /\ bots s' = alter (applyPatch (runningPatch w child)) id (bots s)
                   /\ botFiles s' = botFiles s
                   /\ botLogs s' = botLogs s
                   /\ journal s'
                      = journal s ++ [HandleSet id child;
                                      BotUpdated id (runningPatch w child)])
              s4).
  { intros child s4 He Hpid (Hp4 & Hb4 & Hf4 & Hl4 & Hj4).
    wp_steps. intros r _ _. exists child. unfold runningPatch.
    rewrite <- app_assoc. cbn [app].
    repeat split; try done; congruence. }
  wp_step.
  - wp_step.
    apply wp_quiet; [apply quiet_resolveMainFile|].
    intros [mainFile|msg] s4 Hs4; [|discriminate].
    wp_step. by apply Hdone.
  - wp_step.
    + wp_step.
      apply wp_quiet; [apply quiet_resolveMainFile|].
      intros [mainFile|msg] s4 Hs4; [|discriminate].
      wp_step. by apply Hdone.
    + wp_step. discriminate.
Qed.

(** A start that returns success has found the bot without a handle, has
    spawned a child and has persisted 'starting' and then 'running'. *)
Lemma startBot_success (w : World) (id : str) (s s' : State) (r : Result.t) :
  startBot w id s = (Ok r, s') ->
  Result.success r = true ->
  exists bot child,
    bots s !! id = Some bot
    /\ processes s !! id = None
    /\ env child = childEnv w bot id
    /\ pid child = spawnPid w
    /\ processes s' = <[id := child]> (processes s)
    /\ bots s' = alter (applyPatch (runningPatch w child)) id
                   (alter (applyPatch (statusOnly Status.starting)) id (bots s))
    /\ botFiles s' = botFiles s
    /\ botLogs s' = botLogs s
    /\ journal s'
       = journal s ++ [BotUpdated id (statusOnly Status.starting);
                       HandleSet id child;
                       BotUpdated id (runningPatch w child)].
Proof.
  intros Hrun Hok.
  enough (wp (startBot w id)
            (fun o t => forall r, o = Ok r -> Result.success r = true ->
               exists bot child,
                 bots s !! id = Some bot
                 /\ processes s !! id = None
                 /\ env child = childEnv w bot id
                 /\ pid child = spawnPid w
                 /\ processes t = <[id := child]> (processes s)
                 /\ bots t = alter (applyPatch (runningPatch w child)) id
                      (alter (applyPatch (statusOnly Status.starting)) id (bots s))
                 /\ botFiles t = botFiles s
                 /\ botLogs t = botLogs s
                 /\ journal t
                    = journal s ++ [BotUpdated id (statusOnly Status.starting);
                                    HandleSet id child;
                                    BotUpdated id (runningPatch w child)])
            s) as H.
  { apply wp_run in H. rewrite Hrun in H. by apply (H r). }
  unfold startBot. wp_step. wp_step.
  destruct (bots s !! id) as [bot|] eqn:Hbot; [|wp_step; discriminate].
  wp_step. wp_step.
  destruct (processes s !! id) as [c|] eqn:Hproc.
  { rewrite bool_decide_eq_true_2 by eauto. wp_step.
    intros ? [= <-]. discriminate. }
  rewrite bool_decide_eq_false_2 by (by intros [? ?]).
  wp_step. wp_step. wp_step.
  eapply wp_mono; [apply startAttempt_success|].
  intros [r0|msg] t Ht.
  - intros r1 [= <-] Hr1. destruct (Ht r0 eq_refl Hr1) as (child & H).
    exists bot, child. state. destruct H as (? & ? & ? & ? & ? & ? & Hj).
    rewrite <- app_assoc in Hj. repeat split; done.
  - wp_steps. intros ? [= <-]. discriminate.
Qed.

End StartSuccess.

Module AlikeFacts.
Import WpRules QuietFacts.

Section Rules.
Context {A B : Type}.






End Rules.











End AlikeFacts.

Module SupervisorFacts.
Import WpRules Scenario.

Lemma exec_wp {A : Type} (m : M A) (s s' : State) :
  wp m (fun _ t => t = s') s -> exec m s = s'.
Proof. done. Qed.

(** The exit observer, step by step. *)
Lemma onExit_exec (id : str) (code : option Z) (s : State) :
  exec (onExit id code) s
  = exec (logBotOutput id
            (if bool_decide (code = Some 0%Z) then LogType.info
             else LogType.error)
            (lit "Process exited with code " ++ ofCode code))
      (exec (updateBot id
               (cleared (if bool_decide (code = Some 0%Z) then Status.stopped
                         else Status.error)))
         (exec (deleteProcess id) s)).
Proof. reflexivity. Qed.

Lemma exitStatus_decide (code : option Z) :
  (if bool_decide (code = Some 0%Z) then Status.stopped else Status.error)
  = exitStatus code.
Proof.
  case_bool_decide as H; [by subst|].
  destruct code as [[| |]|]; done.
Qed.

(** A call of [stopBot] for a bot with a handle sends the graceful signal
    and waits. *)
Lemma callStop_waits (w : World) (s : State) (id : str) (child : ChildProcess) :
  processes s !! id = Some child ->
  step w s (CallStop id)
  = withPendingStops (fun waiting => waiting ++ [(id, child)])
      (withSignals (fun sent => sent ++ [(child, SIGTERM)]) s).
Proof.
  intros Hp. unfold step. apply exec_wp. unfold handle, stopBotBegin.
  wp_step. wp_step. wp_step. rewrite Hp. wp_steps. reflexivity.
Qed.

Lemma waitingFor_one (id : str) (child : ChildProcess) :
  waitingFor id [(id, child)] = [(id, child)]
  /\ notWaitingFor id [(id, child)] = [].
Proof.
  unfold waitingFor, notWaitingFor. cbn [List.filter fst].
  by rewrite bool_decide_eq_true_2.
Qed.

Lemma stopBotResume_exec (w : World) (id : str) (s : State) :
  stopBotResume w id s
  = (Ok (Result.Make true (lit "Bot stopped successfully")),
     cleanedUp w id (persist id (cleared Status.stopped) (unregister id s))).
Proof.
  unfold stopBotResume, cleanedUp, rm, tryCatch, mbind, M_bind.
  cbn [deleteProcess updateBot modify].
  destruct (rmError w id); reflexivity.
Qed.

End SupervisorFacts.

Module RadarClaims.
Import CharFacts StringFacts RegexFacts RadarFacts StartFacts Scenario.

(** The word patterns look for their words as substrings of the lowered
    text. *)
Lemma keyword_patterns_substring :
  Forall2 (fun p ws => forall text,
             test true (re p) (toLowerCase text)
             = existsb (has (toLowerCase text)) ws)
    (take 6 suspiciousPatterns) keywordGroups.
Proof.
  assert (H : forall ws text,
            Forall (Forall (fun c => notUpper c = true)) (map lit ws) ->
            test true (alts (map word (map lit ws))) (toLowerCase text)
            = existsb (has (toLowerCase text)) ws).
  { intros ws text Hws. apply Bool.eq_iff_eq_true.
    rewrite test_keywords, existsb_exists;
      [|apply toLowerCase_notUpper|done].
    split.
    - intros (w & Hw & Hinc). apply in_map_iff in Hw as (x & <- & Hx). eauto.
    - intros (x & Hx & Hinc). exists (lit x). split; [by apply in_map|done]. }
  pose proof keywordGroups_lower as L.
  unfold keywordGroups in *.
  repeat match goal with
         | HL : Forall _ (_ :: _) |- _ => inversion HL; subst; clear HL
         end.
  unfold suspiciousPatterns. cbn [take].
  repeat (constructor;
          [intros text;
           match goal with
           | |- _ = existsb _ ?ws => exact (H ws text ltac:(assumption))
           end|]).
  constructor.
Qed.

(** The score of a single file is at least 10 when a mining keyword occurs
    in its lowered text. *)
Lemma mining_keyword_score (name text : str) (kw : string) :
  In kw miningKeywords ->
  has (toLowerCase text) kw = true ->
  (10 <= riskScore (analyzeCode [File name text]))%N.
Proof.
  intros Hkw Hhas.
  pose (p := hd (Pattern [] Eps) suspiciousPatterns).
  assert (Ht : test true (re p) (toLowerCase text) = true).
  { rewrite (Forall2_lookup_lr _ _ _ 0 p miningKeywords
               keyword_patterns_substring eq_refl eq_refl).
    apply existsb_exists. exists kw. split; [exact Hkw|exact Hhas]. }
  assert (Hin : In p (matching suspiciousPatterns (toLowerCase text))).
  { apply filter_In. split; [by left|exact Ht]. }
  unfold analyzeCode. cbn [riskScore fold_left].
  etrans; [|apply analyzeFile_score]. cbn [content snd].
  destruct (matching suspiciousPatterns (toLowerCase text)); [done|].
  cbn [length]. lia.
Qed.

(** C10. Static matching looks for the keywords as raw substrings of the
    lowered text: each of the nine suspicious patterns adds 10 to the score
    of a file when it matches and nothing otherwise, however many of its
    keywords occur; the six word patterns match exactly when one of their
    words is a substring; so a file of benign English words ("method"
    contains "eth", "difficulty" is a keyword, "history" contains "tor")
    scores 30, is suspicious, and its start is vetoed with status 'error'. *)
Theorem C10_substring_matching :
  (forall file lowered acc,
     (fold_left (checkPattern file lowered) suspiciousPatterns acc).2
     = (acc.2 + 10 * N.of_nat (length (matching suspiciousPatterns lowered)))%N
     /\ length (matching suspiciousPatterns lowered) <= 9)
  /\ Forall2 (fun p ws => forall text,
                test true (re p) (toLowerCase text)
                = existsb (has (toLowerCase text)) ws)
       (take 6 suspiciousPatterns) keywordGroups
  /\ riskScore (analyzeCode
                  [file "many.py" "mining miner crypto bitcoin ethereum"])
     = 10%N
  /\ riskScore (analyzeCode [benign]) = 30%N
  /\ isSuspicious (analyzeCode [benign]) = true
  /\ (let s' := run calm (server (newBot "T0K3N" "python") [benign])
                  [CallStart b1] in
      statusOf s' b1 = Some Status.error
      /\ map (fun r => Result.success r.2) (replies s') = [false]
      /\ processes s' !! b1 = None
      /\ disk s' = ∅).
Proof.
  split; [|split; [exact keyword_patterns_substring|]].
  - intros file lowered acc. split; [apply patterns_score|].
    apply (matching_length suspiciousPatterns).
  - repeat split; vm_compute; reflexivity.
Qed.

(** C3, the claim as stated fails: the file "mining bitcoin" contains two
    mining keywords, yet its score is 10, below 20, the verdict is not
    suspicious and its start is not vetoed. *)
Lemma C3_counterexample :
  has (content twoKeywords) "mining" = true
  /\ has (content twoKeywords) "bitcoin" = true
  /\ riskScore (analyzeCode [twoKeywords]) = 10%N
  /\ ~ (20 <= riskScore (analyzeCode [twoKeywords]))%N
  /\ isSuspicious (analyzeCode [twoKeywords]) = false
  /\ (let s' := run calm (server (newBot "T0K3N" "python") [twoKeywords])
                  [CallStart b1] in
      map (fun r => Result.success r.2) (replies s') = [true]
      /\ statusOf s' b1 = Some Status.running).
Proof.
  repeat split; try (vm_compute; reflexivity).
  vm_compute. intros H. apply H. reflexivity.
Qed.

(** C3, amended. The verdict is suspicious exactly when the score exceeds
    20; a suspicious verdict aborts the start, which returns failure with
    status 'error', no child and nothing written to disk; a file in which
    a mining keyword occurs scores at least 10, and the file with the two
    mining keywords "mining bitcoin" scores exactly 10 and is not vetoed;
    the file "hello world" scores 0 and is not vetoed. *)
Theorem C3_static_veto (w : World) (s : State) (id : str) (bot : Bot)
  (files : list BotFile) (name text : str) (kw : string) :
  bots s !! id = Some bot ->
  processes s !! id = None ->
  In kw miningKeywords ->
  has (toLowerCase text) kw = true ->
  isSuspicious (analyzeCode files) = (20 <? riskScore (analyzeCode files))%N
  /\ (isSuspicious (analyzeCode (default [] (botFiles s !! id))) = true ->
      exists r s',
        startBot w id s = (Ok r, s')
        /\ Result.success r = false
        /\ status <$> bots s' !! id = Some Status.error
        /\ processes s' = processes s
        /\ disk s' = disk s)
  /\ (10 <= riskScore (analyzeCode [File name text]))%N
  /\ riskScore (analyzeCode [twoKeywords]) = 10%N
  /\ isSuspicious (analyzeCode [twoKeywords]) = false
  /\ riskScore (analyzeCode [helloWorld]) = 0%N
  /\ isSuspicious (analyzeCode [helloWorld]) = false
  /\ map (fun r => Result.success r.2)
       (replies (run calm (server (newBot "T0K3N" "python") [helloWorld])
                   [CallStart b1])) = [true].
Proof.
  intros Hbot Hproc Hkw Hhas.
  split; [reflexivity|].
  split; [intros Hsus; by eapply startBot_veto|].
  split; [by eapply mining_keyword_score|].
  repeat split; vm_compute; reflexivity.
Qed.

(** C3 on the file of benign words, which is vetoed. *)
Lemma C3_static_veto_witness :
  isSuspicious (analyzeCode [benign]) = true
  /\ exists r s',
       startBot calm b1 (server (newBot "T0K3N" "python") [benign]) = (Ok r, s')
       /\ Result.success r = false
       /\ status <$> bots s' !! b1 = Some Status.error.
Proof.
  assert (Hsus : isSuspicious (analyzeCode [benign]) = true)
    by (vm_compute; reflexivity).
  split; [exact Hsus|].
  destruct (C3_static_veto calm (server (newBot "T0K3N" "python") [benign])
              b1 (newBot "T0K3N" "python") [benign]
              (lit "miner.py") (lit "Mining Bitcoin") "mining"
              ltac:(vm_compute; reflexivity) ltac:(vm_compute; reflexivity)
              ltac:(vm_compute; tauto) ltac:(vm_compute; reflexivity))
    as (_ & Hveto & _).
  destruct (Hveto Hsus) as (r & s' & Hrun & Hfail & Hst & _).
  exists r, s'. auto.
Defined.

End RadarClaims.

Module SupervisorClaims.
Import WpRules StringFacts SupervisorFacts StartSuccess Scenario.

Lemma getEnv_setProp_eq (name value : str) (env : list (str * str)) :
  getEnv (setProp name value env) name = Some value.
Proof.
  induction env as [|[k v] env IH]; cbn [setProp getEnv].
  - by rewrite bool_decide_eq_true_2.
  - case_bool_decide as Hk; cbn [getEnv].
    + by rewrite bool_decide_eq_true_2.
    + by rewrite bool_decide_eq_false_2.
Qed.

Lemma getEnv_setProp_ne (name other value : str) (env : list (str * str)) :
  name <> other ->
  getEnv (setProp name value env) other = getEnv env other.
Proof.
  intros Hne. induction env as [|[k v] env IH]; cbn [setProp getEnv].
  - by rewrite bool_decide_eq_false_2.
  - case_bool_decide as Hk; cbn [getEnv].
    + subst k. by rewrite !bool_decide_eq_false_2.
    + case_bool_decide; [done|exact IH].
Qed.

(** The environment of the child carries the token of the bot. *)
Lemma childEnv_token (w : World) (bot : Bot) (id : str) :
  getEnv (childEnv w bot id) (lit "DISCORD_TOKEN") = Some (token bot).
Proof.
  unfold childEnv, setEnv.
  rewrite !getEnv_setProp_ne by (vm_compute; discriminate).
  apply getEnv_setProp_eq.
Qed.

(** The stream observers store the output of the child trimmed, as it is. *)
Lemma onStdout_logs (id data : str) (t : State) :
  botLogs (exec (onStdout id data) t)
  = botLogs t ++ [{| botId := id; type := LogType.info; message := trim data |}].
Proof.
  unfold onStdout, exec. cbv zeta.
  apply (wp_run _ (fun _ t' => botLogs t' = _)).
  wp_steps; reflexivity.
Qed.

Lemma onStderr_logs (id data : str) (t : State) :
  botLogs (exec (onStderr id data) t)
  = botLogs t ++ [{| botId := id; type := LogType.error; message := trim data |}].
Proof.
  unfold onStderr, exec. cbv zeta.
  apply (wp_run _ (fun _ t' => botLogs t' = _)).
  wp_steps; reflexivity.
Qed.

Lemma onStdout_bots (id data : str) (t : State) :
  bots (exec (onStdout id data) t)
  = if ready data then alter (applyPatch (statusOnly Status.running)) id (bots t)
    else bots t.
Proof.
  unfold onStdout, exec, ready. cbv zeta.
  apply (wp_run _ (fun _ t' => bots t' = _)).
  wp_step. destruct (_ || _ || _) eqn:E; wp_steps; reflexivity.
Qed.

(** C1, the claim as stated fails: the start of scenario A returns success
    and leaves the persisted status at 'running', not at 'starting',
    although the child has not written a line yet. *)
Lemma C1_counterexample :
  map (fun r => Result.success r.2) (replies started) = [true]
  /\ botLogs started = []
  /\ statusOf started b1 = Some Status.running
  /\ statusOf started b1 <> Some Status.starting.
Proof. repeat split; try (vm_compute; reflexivity). vm_compute. discriminate. Qed.

(** C1, amended. A successful start persists 'starting' and then, once the
    child is spawned and before it returns, 'running' together with the
    pid and the time of the start; a later stdout chunk that contains one
    of the readiness markers persists 'running' again, and a chunk without
    a marker leaves the bot as it is. *)
Theorem C1_start_status (w : World) (id : str) (s s' : State) (r : Result.t)
  (data : str) (t : State) :
  startBot w id s = (Ok r, s') ->
  Result.success r = true ->
  (exists b child,
     bots s' !! id = Some b
     /\ processes s' !! id = Some child
     /\ status b = Status.running
     /\ processId b = Some (pidOrZero child)
     /\ lastStarted b = Some (now w)
     /\ journal s'
        = journal s ++ [BotUpdated id (statusOnly Status.starting);
                        HandleSet id child;
                        BotUpdated id (runningPatch w child)])
  /\ bots (exec (onStdout id data) t)
     = (if ready data
        then alter (applyPatch (statusOnly Status.running)) id (bots t)
        else bots t)
  /\ status <$> alter (applyPatch (statusOnly Status.running)) id (bots t) !! id
     = (fun _ => Status.running) <$> bots t !! id.
Proof.
  intros Hrun Hok.
  destruct (startBot_success w id s s' r Hrun Hok)
    as (bot & child & Hbot & _ & _ & _ & Hp & Hb & _ & _ & Hj).
  split; [|split].
  - exists (applyPatch (runningPatch w child)
              (applyPatch (statusOnly Status.starting) bot)), child.
    rewrite Hb, Hp, !lookup_alter_eq, Hbot, lookup_insert_eq. done.
  - apply onStdout_bots.
  - rewrite lookup_alter_eq. by destruct (bots t !! id).
Qed.

(** C1 on the start of scenario A. *)
Lemma C1_start_status_witness :
  exists b child,
    bots afterStart !! b1 = Some b
    /\ processes afterStart !! b1 = Some child
    /\ status b = Status.running
    /\ processId b = Some (pidOrZero child)
    /\ lastStarted b = Some (now calm)
    /\ journal afterStart
       = journal happy ++ [BotUpdated b1 (statusOnly Status.starting);
                           HandleSet b1 child;
                           BotUpdated b1 (runningPatch calm child)].
Proof.
  pose (r := Result.Make true (lit "Bot started successfully")).
  assert (Hrun : startBot calm b1 happy = (Ok r, afterStart))
    by (vm_compute; reflexivity).
  exact (proj1 (C1_start_status calm b1 happy afterStart r [] happy Hrun
                  eq_refl)).
Defined.

(** C2, the claim as stated fails: the child of scenario A is given the
    token in its environment; when it prints its environment the stdout
    observer stores a log record that contains the token. *)
Lemma C2_counterexample :
  let s := step calm started (ChildStdout b1 (envDump started)) in
  getEnv (childEnv calm (newBot "T0K3N" "python") b1) (lit "DISCORD_TOKEN")
  = Some (lit "T0K3N")
  /\ existsb (fun log => bool_decide (botId log = b1)
                         && includes (message log) (lit "T0K3N"))
       (botLogs s) = true.
Proof. split; vm_compute; reflexivity. Qed.

(** C2, amended. The engine does not redact: a successful start leaves the
    stored files as they are (the workspace copy alone carries the token),
    gives the child the token as DISCORD_TOKEN, and the stream observers
    append the trimmed output of the child to the log as it is; so a log
    record contains the token whenever the output does, for a token that
    neither begins nor ends with white space. *)
Theorem C2_logs_verbatim (w : World) (id : str) (s s' : State) (r : Result.t)
  (data : str) (t : State) (credential : str) (c d : ascii) :
  startBot w id s = (Ok r, s') ->
  Result.success r = true ->
  token <$> bots s !! id = Some credential ->
  head credential = Some c -> isSpace c = false ->
  last credential = Some d -> isSpace d = false ->
  includes data credential = true ->
  botFiles s' = botFiles s
  /\ botLogs s' = botLogs s
  /\ (exists child,
        processes s' !! id = Some child
        /\ getEnv (env child) (lit "DISCORD_TOKEN") = Some credential)
  /\ botLogs (exec (onStdout id data) t)
     = botLogs t ++ [{| botId := id; type := LogType.info;
                        message := trim data |}]
  /\ botLogs (exec (onStderr id data) t)
     = botLogs t ++ [{| botId := id; type := LogType.error;
                        message := trim data |}]
  /\ includes (trim data) credential = true.
Proof.
  intros Hrun Hok Htok Hc Hcs Hd Hds Hinc.
  destruct (startBot_success w id s s' r Hrun Hok)
    as (bot & child & Hbot & _ & Henv & _ & Hp & _ & Hf & Hl & _).
  rewrite Hbot in Htok. injection Htok as <-.
  split; [exact Hf|]. split; [exact Hl|]. split.
  { exists child. rewrite Hp, lookup_insert_eq, Henv.
    split; [done|apply childEnv_token]. }
  split; [apply onStdout_logs|]. split; [apply onStderr_logs|].
  by eapply trim_keeps.
Qed.

(** C2 on the start of scenario A, with a child that prints its
    environment. *)
Lemma C2_logs_verbatim_witness :
  includes (trim (envDump afterStart)) (lit "T0K3N") = true.
Proof.
  pose (r := Result.Make true (lit "Bot started successfully")).
  assert (Hrun : startBot calm b1 happy = (Ok r, afterStart))
    by (vm_compute; reflexivity).
  refine (proj2 (proj2 (proj2 (proj2 (proj2
    (C2_logs_verbatim calm b1 happy afterStart r (envDump afterStart) happy
       (lit "T0K3N") "T" "N" Hrun eq_refl _ _ _ _ _ _))))));
    vm_compute; reflexivity.
Defined.

(** C5. On every exit of a child the exit observer first removes the
    Process Handle and then persists the status, as the journal of the
    changes shows: 'stopped' for exit code 0 and 'error' for any other code
    (and for a child ended by a signal), with the pid cleared and the
    memory and CPU texts reset to "0MB" and "0%". *)
Theorem C5_exit_observer (id : str) (code : option Z) (s : State) (b : Bot) :
  bots s !! id = Some b ->
  let s' := exec (onExit id code) s in
  journal s'
  = journal s ++ [HandleDeleted id;
                  BotUpdated id (cleared (exitStatus code))]
  /\ processes s' !! id = None
  /\ (exists b',
        bots s' !! id = Some b'
        /\ status b' = exitStatus code
        /\ processId b' = None
        /\ memoryUsage b' = lit "0MB"
        /\ cpuUsage b' = lit "0%")
  /\ exitStatus (Some 0%Z) = Status.stopped
  /\ (forall n : Z, n <> 0%Z -> exitStatus (Some n) = Status.error)
  /\ exitStatus None = Status.error.
Proof.
  intros Hb s'. subst s'. rewrite onExit_exec, exitStatus_decide.
  unfold exec, logBotOutput, createBotLog, updateBot, deleteProcess, modify.
  cbn [snd]. state.
  rewrite lookup_delete_eq, lookup_alter_eq, Hb, <- app_assoc.
  repeat split; eauto 10.
  intros [| |] Hn; done.
Qed.

(** C5 on the started bot of scenario A, for the exit codes 0 and 1. *)
Lemma C5_exit_observer_witness :
  bots Scenario.started !! b1 = Some
    (applyPatch {| setStatus := Some Status.running;
                   setProcessId := Some (Some 4242%Z);
                   setMemoryUsage := None; setCpuUsage := None;
                   setLastStarted := Some (Some (now calm)) |}
       (newBot "T0K3N" "python"))
  /\ statusOf (exec (onExit b1 (Some 0%Z)) Scenario.started) b1
     = Some Status.stopped
  /\ statusOf (exec (onExit b1 (Some 1%Z)) Scenario.started) b1
     = Some Status.error
  /\ processes (exec (onExit b1 (Some 1%Z)) Scenario.started) !! b1 = None.
Proof.
  assert (Hb : bots Scenario.started !! b1 = Some
    (applyPatch {| setStatus := Some Status.running;
                   setProcessId := Some (Some 4242%Z);
                   setMemoryUsage := None; setCpuUsage := None;
                   setLastStarted := Some (Some (now calm)) |}
       (newBot "T0K3N" "python"))) by (vm_compute; reflexivity).
  split; [exact Hb|].
  destruct (C5_exit_observer b1 (Some 0%Z) Scenario.started _ Hb)
    as (_ & _ & (b0 & Hb0 & Hst0 & _) & _).
  destruct (C5_exit_observer b1 (Some 1%Z) Scenario.started _ Hb)
    as (_ & Hgone & (b' & Hb' & Hst' & _) & _).
  unfold statusOf. rewrite Hb0, Hb'. simpl. rewrite Hst0, Hst'. auto.
Defined.

(** C4, what the code does. A call of [stopBot] for a bot whose child
    ignores the graceful signal: the timer sends the forceful signal, the
    handle is removed, the caller gets success and the status persisted by
    the call is 'stopped'. The child then exits, ended by the signal; the
    exit observer, still attached to it, persists 'error' after the
    'stopped' of the call: the last status persisted is 'error' and not
    'stopped'. *)
Theorem C4_stop_escalation (w : World) (s : State) (id : str)
  (child : ChildProcess) (b : Bot) :
  processes s !! id = Some child ->
  bots s !! id = Some b ->
  pendingStops s = [] ->
  let stopped := run w s [CallStop id; StopTimer id] in
  let final := step w stopped (ChildExit id None) in
  signals stopped = signals s ++ [(child, SIGTERM); (child, SIGKILL)]
  /\ processes stopped !! id = None
  /\ replies stopped
     = replies s ++ [(id, Result.Make true (lit "Bot stopped successfully"))]
  /\ status <$> bots stopped !! id = Some Status.stopped
  /\ signals final = signals stopped
  /\ replies final = replies stopped
  /\ processes final !! id = None
  /\ status <$> bots final !! id = Some Status.error
  /\ journal final
     = journal s ++ [HandleDeleted id;
                     BotUpdated id (cleared Status.stopped);
                     HandleDeleted id;
                     BotUpdated id (cleared Status.error)].
Proof.
  intros Hp Hb Hw. cbv zeta.
  remember (run w s [CallStop id; StopTimer id]) as stopped eqn:Estopped.
  assert (Hstopped : stopped
    = withReplies (fun sent =>
        sent ++ [(id, Result.Make true (lit "Bot stopped successfully"))])
        (cleanedUp w id
           (persist id (cleared Status.stopped)
              (unregister id
                 (withSignals (fun sent => sent ++ [(child, SIGKILL)])
                    (withPendingStops (fun _ => [])
                       (withSignals (fun sent => sent ++ [(child, SIGTERM)])
                          s))))))).
  { subst stopped. unfold run. cbn [fold_left].
    rewrite (callStop_waits w s id child Hp).
    unfold step at 1. apply exec_wp. unfold handle.
    wp_step. wp_step. rewrite Hw. cbn [app].
    destruct (waitingFor_one id child) as [Hwf Hnwf]. rewrite Hwf.
    wp_step. wp_step. cbn [fireTimers]. wp_step. wp_step.
    unfold reply. wp_step. wp_step. wp_step.
    eapply wp_eq; [apply stopBotResume_exec|]. cbn beta iota.
    wp_steps. unfold cleanedUp.
    destruct (rmError w id); state_eq; try reflexivity;
      rewrite Hw; cbn [app]; by rewrite Hnwf. }
  clear Estopped.
  assert (Hwaiting : pendingStops stopped = []).
  { rewrite Hstopped. unfold cleanedUp. by destruct (rmError w id). }
  remember (step w stopped (ChildExit id None)) as final eqn:Efinal.
  assert (Hfinal : final
    = withBotLogs (fun logs => logs ++
        [{| botId := id; type := LogType.error;
            message := trim (lit "Process exited with code " ++ ofCode None) |}])
        (persist id (cleared Status.error) (unregister id stopped))).
  { subst final. unfold step. apply exec_wp. unfold handle, onExit.
    wp_steps. rewrite Hwaiting.
    cbn [notWaitingFor waitingFor List.filter resumeStops].
    wp_steps. state_eq; try reflexivity. by rewrite Hwaiting. }
  clear Efinal. rewrite Hfinal. state. rewrite Hstopped.
  unfold cleanedUp. destruct (rmError w id); state;
    rewrite ?lookup_delete_eq, ?lookup_alter_eq, ?Hb, <- ?app_assoc; done.
Qed.

(** C4 on the started bot of scenario A. *)
Lemma C4_stop_escalation_witness :
  statusOf (run calm Scenario.started
              [CallStop b1; StopTimer b1; ChildExit b1 None]) b1
  = Some Status.error.
Proof.
  destruct (C4_stop_escalation calm Scenario.started b1
              (spawn calm (lit "python3") [lit "-u"; lit "bot.py"] b1
                 (childEnv calm (newBot "T0K3N" "python") b1))
              (applyPatch {| setStatus := Some Status.running;
                             setProcessId := Some (Some 4242%Z);
                             setMemoryUsage := None; setCpuUsage := None;
                             setLastStarted := Some (Some (now calm)) |}
                 (newBot "T0K3N" "python"))
              ltac:(vm_compute; reflexivity) ltac:(vm_compute; reflexivity)
              ltac:(vm_compute; reflexivity))
    as (_ & _ & _ & _ & _ & _ & _ & H & _).
  exact H.
Defined.

End SupervisorClaims.

Module WorkspaceClaims.
Import WpRules Scenario.

(** A file that cannot be written makes the loop over the files throw. *)
Lemma writeFiles_fault (w : World) (dir : str) (files : list BotFile)
  (tok : str) (f : BotFile) (msg : str) (s : State) :
  In f files ->
  writeFileError w dir (filename f) = Some msg ->
  exists msg', (writeFiles w dir files tok s).1 = Throw msg'.
Proof.
  intros Hin Herr. revert s.
  induction files as [|g files IH]; intros s; [done|].
  cbn [writeFiles]. unfold mbind, M_bind.
  destruct (writeFile w dir (filename g) _ s) as [[[]|msg'] s1] eqn:E.
  - destruct Hin as [->|Hin]; [|by apply IH].
    unfold writeFile in E. rewrite Herr in E. discriminate.
  - eauto.
Qed.

(** C8, the claim as stated fails: the workspace of a bot with zero files
    is materialised without an error, as an empty directory. *)
Lemma C8_counterexample :
  let s := server (newBot "T0K3N" "python") [] in
  (createBotWorkspace calm b1 [] (lit "T0K3N") s).1 = Ok b1
  /\ disk (createBotWorkspace calm b1 [] (lit "T0K3N") s).2 !! b1 = Some ∅.
Proof. split; vm_compute; reflexivity. Qed.

(** C8, amended. Materialisation with zero files does not fail: it returns
    the directory of the bot, which it has created empty when it was not
    there. Materialisation fails, with the error of the file system, when
    the directory cannot be created or when one of the files cannot be
    written. *)
Theorem C8_materialisation_failures (w : World) (s : State) (id tok : str)
  (files : list BotFile) (f : BotFile) (msg : str) :
  (mkdirError w id = None ->
   (createBotWorkspace w id [] tok s).1 = Ok id
   /\ disk (createBotWorkspace w id [] tok s).2 !! id
      = Some (default ∅ (disk s !! id)))
  /\ (mkdirError w id = Some msg ->
      createBotWorkspace w id files tok s = (Throw msg, s))
  /\ (mkdirError w id = None ->
      In f files ->
      writeFileError w id (filename f) = Some msg ->
      exists msg', (createBotWorkspace w id files tok s).1 = Throw msg').
Proof.
  unfold createBotWorkspace, mkdir. cbv zeta. split; [|split].
  - intros ->. unfold mbind, M_bind. cbn.
    destruct (disk s !! id) eqn:E; cbn; [by rewrite E|].
    by rewrite lookup_insert_eq.
  - by intros ->.
  - intros -> Hin Herr. unfold mbind, M_bind. cbn [modify].
    match goal with
    | |- context [writeFiles w id files tok ?t] =>
        destruct (writeFiles_fault w id files tok f msg t Hin Herr) as [m Hm];
        destruct (writeFiles w id files tok t) as [[[]|m'] t']
    end; simpl in *; [discriminate|eauto].
Qed.

(** C8 in a world without faults, in one where no directory can be
    created and in one where no file can be written. *)
Lemma C8_materialisation_failures_witness :
  (createBotWorkspace calm b1 [] (lit "T0K3N") happy).1 = Ok b1
  /\ createBotWorkspace sealed b1 [file "bot.py" "print(1)"] (lit "T0K3N")
       happy
     = (Throw (lit "EACCES: permission denied"), happy)
  /\ (exists msg',
        (createBotWorkspace readOnly b1 [file "bot.py" "print(1)"]
           (lit "T0K3N") happy).1 = Throw msg').
Proof.
  destruct (C8_materialisation_failures calm happy b1 (lit "T0K3N") []
              (file "bot.py" "print(1)") []) as (H1 & _ & _).
  destruct (C8_materialisation_failures sealed happy b1 (lit "T0K3N")
              [file "bot.py" "print(1)"] (file "bot.py" "print(1)")
              (lit "EACCES: permission denied")) as (_ & H2 & _).
  destruct (C8_materialisation_failures readOnly happy b1 (lit "T0K3N")
              [file "bot.py" "print(1)"] (file "bot.py" "print(1)")
              (lit "EACCES: permission denied")) as (_ & _ & H3).
  split; [exact (proj1 (H1 eq_refl))|]. split; [exact (H2 eq_refl)|].
  apply H3; [reflexivity|left; reflexivity|reflexivity].
Defined.

(** A template without a dollar sign stands for itself. *)
Lemma getSubstitution_plain (matched before after repl : str) :
  ~ In "$"%char repl ->
  getSubstitution matched before after repl = repl.
Proof.
  induction repl as [|c t IH]; intros Hno; [done|].
  cbn [getSubstitution].
  destruct (Ascii.eqb c "$") eqn:E.
  - apply Ascii.eqb_eq in E. subst c. exfalso. apply Hno. by left.
  - f_equal. apply IH. intros ?. apply Hno. by right.
Qed.

(** With a token without a dollar sign every form of the placeholder in
    the sample source is replaced by the token in double quotes. *)
Lemma substituteToken_allForms :
  substituteToken (lit "T0K3N") allForms = allReplaced "T0K3N".
Proof. vm_compute. reflexivity. Qed.

(** C6, what the code does at the failing input. The token [$&] in double
    quotes is the replacement template of [String.prototype.replace], in
    which [$&] stands for the matched text: the workspace copy of the
    source [client.run(YOUR_BOT_TOKEN)] holds [client.run("YOUR_BOT_TOKEN")],
    with the placeholder still there and the token nowhere, while an
    ordinary token replaces every form. *)
Theorem C6_dollar_token :
  let files := [file "bot.py" "client.run(YOUR_BOT_TOKEN)"] in
  let s := server (newBot "$&" "python") files in
  let written :=
    readDisk (createBotWorkspace calm b1 files (lit "$&") s).2 b1 "bot.py" in
  written = Some (lit "client.run(" ++ q "YOUR_BOT_TOKEN" ++ lit ")")
  /\ written <> Some (lit "client.run(" ++ quoted (lit "$&") ++ lit ")")
  /\ substituteToken (lit "$&") allForms <> allReplaced "$&"
  /\ substituteToken (lit "T0K3N") allForms = allReplaced "T0K3N".
Proof.
  cbv zeta. split; [vm_compute; reflexivity|].
  split; [vm_compute; discriminate|].
  split; [vm_compute; discriminate|vm_compute; reflexivity].
Qed.

End WorkspaceClaims.

Module InferenceFacts.
Import CharFacts StringFacts RegexFacts SplitFacts.

Lemma elem_of_add (x : str) (pin : string) (imports : list str) :
  x ∈ add pin imports <-> x ∈ imports \/ x = lit pin.
Proof.
  unfold add. case_bool_decide as H.
  - split; [auto|]. by intros [?| ->].
  - rewrite elem_of_app, list_elem_of_singleton. done.
Qed.

Lemma elem_of_addIf (x : str) (b : bool) (pin : string) (imports : list str) :
  x ∈ addIf b pin imports <-> x ∈ imports \/ (b = true /\ x = lit pin).
Proof.
  unfold addIf. destruct b.
  - rewrite elem_of_add. intuition.
  - intuition discriminate.
Qed.

Lemma scanLine_mono (imports : list str) (line x : str) :
  x ∈ imports -> x ∈ scanLine imports line.
Proof.
  intros H. unfold scanLine. cbv zeta. rewrite !elem_of_addIf. tauto.
Qed.

(** A line with a marker of the table adds its pin. *)
Lemma scanLine_marker (imports : list str) (line : str) (marker pin : string) :
  In (marker, pin) markerTable ->
  has (toLowerCase (trim line)) marker = true ->
  lit pin ∈ scanLine imports line.
Proof.
  intros Hin Hhas. unfold scanLine. cbv zeta. rewrite !elem_of_addIf.
  unfold markerTable in Hin. cbn [In] in Hin.
  repeat (destruct Hin as [[= <- <-]|Hin];
          [rewrite Hhas, ?orb_true_r; cbn [orb]; tauto|]).
  done.
Qed.

Lemma scanLines_mono (lines : list str) (imports : list str) (x : str) :
  x ∈ imports -> x ∈ fold_left scanLine lines imports.
Proof.
  revert imports. induction lines as [|l lines IH]; intros imports H; [done|].
  cbn [fold_left]. by apply IH, scanLine_mono.
Qed.

Lemma scanLines_marker (lines : list str) (imports : list str) (line : str)
  (marker pin : string) :
  In (marker, pin) markerTable ->
  In line lines ->
  has (toLowerCase (trim line)) marker = true ->
  lit pin ∈ fold_left scanLine lines imports.
Proof.
  intros Hm Hin Hhas. revert imports.
  induction lines as [|l lines IH]; intros imports; [done|].
  cbn [fold_left]. destruct Hin as [->|Hin]; [|by apply IH].
  by eapply scanLines_mono, scanLine_marker.
Qed.

(** The markers of the table are in lower case, hold no line feed and
    neither begin nor end with white space. *)
Lemma marker_shape (marker pin : string) :
  In (marker, pin) markerTable ->
  toLowerCase (lit marker) = lit marker
  /\ ~ In newline (lit marker)
  /\ exists c d, head (lit marker) = Some c /\ isSpace c = false
                 /\ last (lit marker) = Some d /\ isSpace d = false.
Proof.
  unfold markerTable. cbn [In]. intros Hin.
  repeat (destruct Hin as [[= <- <-]|Hin];
          [split; [reflexivity|];
           split; [vm_compute; intuition discriminate|];
           eexists _, _; repeat split; reflexivity|]).
  done.
Qed.

(** A Python file whose text contains a marker of the table gets the pin
    of the marker. *)
Lemma scanPythonFile_marker (imports : list str) (f : BotFile)
  (marker pin : string) :
  In (marker, pin) markerTable ->
  has (content f) marker = true ->
  lit pin ∈ scanPythonFile imports f.
Proof.
  intros Hm Hhas. unfold scanPythonFile.
  destruct (marker_shape marker pin Hm)
    as (Hlow & Hnl & c & d & Hc & Hcs & Hd & Hds).
  destruct (split_includes (content f) (lit marker) newline Hnl Hhas)
    as (line & Hin & Hline).
  eapply scanLines_marker; [exact Hm|exact Hin|].
  apply includes_toLowerCase; [exact Hlow|].
  by eapply trim_keeps.
Qed.

(** A line in which none of the texts looked for occurs adds nothing. *)
Lemma scanLine_free (imports : list str) (line : str) :
  forallb (fun m => negb (has (toLowerCase (trim line)) m)) pythonMarkers = true ->
  scanLine imports line = imports.
Proof.
  intros H. unfold pythonMarkers in H. cbn [forallb] in H.
  repeat (apply andb_true_iff in H as [?%negb_true_iff H]).
  unfold scanLine. cbv zeta.
  repeat match goal with
         | E : has _ _ = false |- _ => rewrite E; clear E
         end.
  reflexivity.
Qed.

Lemma scanPythonFile_free (imports : list str) (f : BotFile) :
  markerFree pythonMarkers f = true ->
  scanPythonFile imports f = imports.
Proof.
  intros H. unfold scanPythonFile.
  assert (Hl : forall line, In line (split (content f) newline) ->
            scanLine imports line = imports).
  { intros line Hin. apply scanLine_free. apply forallb_forall.
    intros m Hm. apply negb_true_iff.
    destruct (has (toLowerCase (trim line)) m) eqn:E; [|done].
    unfold markerFree in H. rewrite forallb_forall in H.
    specialize (H m Hm). apply negb_true_iff in H. unfold has in *.
    by rewrite (cleanLine_includes _ _ _ Hin E) in H. }
  induction (split (content f) newline) as [|l lines IH]; [done|].
  cbn [fold_left]. rewrite Hl by (by left). apply IH.
  intros line Hin. apply Hl. by right.
Qed.

Lemma scanJsFile_free (deps : list (str * str)) (f : BotFile) :
  markerFree jsMarkers f = true ->
  scanJsFile deps f = deps.
Proof.
  intros H. unfold markerFree, jsMarkers in H. cbn [forallb] in H.
  repeat (apply andb_true_iff in H as [?%negb_true_iff H]).
  unfold scanJsFile. cbv zeta.
  repeat match goal with
         | E : has _ _ = false |- _ => rewrite E; clear E
         end.
  reflexivity.
Qed.

(** The pins of a list of files in which no marker occurs: the baseline
    pin when there is a Python file, and none otherwise. *)
Lemma pythonImports_free (files : list BotFile) :
  forallb (markerFree pythonMarkers) (List.filter isPythonFile files) = true ->
  pythonImports files
  = if 0 <? length (List.filter isPythonFile files)
    then [lit "discord.py>=2.3.0"] else [].
Proof.
  intros H. unfold pythonImports. cbv zeta.
  assert (E : forall imports,
            fold_left scanPythonFile (List.filter isPythonFile files) imports
            = imports).
  { induction (List.filter isPythonFile files) as [|f fs IH]; [done|].
    intros imports. cbn [forallb] in H. apply andb_true_iff in H as [Hf Hfs].
    cbn [fold_left]. rewrite scanPythonFile_free by done. by apply IH. }
  rewrite E. cbn [length Nat.eqb andb].
  by destruct (0 <? _).
Qed.

Lemma jsDependencies_free (files : list BotFile) :
  forallb (markerFree jsMarkers) (List.filter isJsFile files) = true ->
  jsDependencies files
  = if 0 <? length (List.filter isJsFile files)
    then [(lit "discord.js", lit "^14.14.1")] else [].
Proof.
  intros H. unfold jsDependencies. cbv zeta.
  assert (E : forall deps,
            fold_left scanJsFile (List.filter isJsFile files) deps = deps).
  { induction (List.filter isJsFile files) as [|f fs IH]; [done|].
    intros deps. cbn [forallb] in H. apply andb_true_iff in H as [Hf Hfs].
    cbn [fold_left]. rewrite scanJsFile_free by done. by apply IH. }
  rewrite E. cbn [length Nat.eqb andb].
  by destruct (0 <? _).
Qed.

(** The pins of a single Python file with a marker of the table. *)
Lemma pythonImports_marker (f : BotFile) (marker pin : string) :
  isPythonFile f = true ->
  In (marker, pin) markerTable ->
  has (content f) marker = true ->
  lit pin ∈ pythonImports [f].
Proof.
  intros Hpy Hm Hhas. unfold pythonImports. cbn [List.filter].
  rewrite Hpy. cbn [fold_left]. cbv zeta.
  pose proof (scanPythonFile_marker [] f marker pin Hm Hhas) as Hin.
  destruct (scanPythonFile [] f) as [|x l]; [by apply elem_of_nil in Hin|].
  exact Hin.
Qed.

End InferenceFacts.

Module InferenceClaims.
Import WpRules InferenceFacts Scenario.

Lemma access_true (s : State) (dir : str) (name : string) :
  is_Some (readDisk s dir name) -> access dir (lit name) s = (Ok true, s).
Proof.
  intros H. unfold access, gets. by rewrite bool_decide_eq_true_2.
Qed.

Lemma access_false (s : State) (dir : str) (name : string) :
  readDisk s dir name = None -> access dir (lit name) s = (Ok false, s).
Proof.
  intros H. unfold access, gets. rewrite bool_decide_eq_false_2; [done|].
  unfold readDisk in H. rewrite H. by intros [? ?].
Qed.

Lemma writeFile_ok (w : World) (s : State) (dir : str) (name : string)
  (text : str) (fs : gmap str str) :
  writeFileError w dir (lit name) = None ->
  disk s !! dir = Some fs ->
  writeFile w dir (lit name) text s
  = (Ok tt, withDisk (<[dir := <[lit name := text]> fs]>) s).
Proof.
  intros Hw Hd. unfold writeFile. rewrite Hw.
  unfold mbind, M_bind, gets. by rewrite Hd.
Qed.

Lemma readDisk_written (s : State) (dir : str) (name : string) (text : str)
  (fs : gmap str str) :
  readDisk (withDisk (<[dir := <[lit name := text]> fs]>) s) dir name
  = Some text.
Proof.
  unfold readDisk. cbn [disk withDisk].
  rewrite lookup_insert_eq. cbn. by rewrite lookup_insert_eq.
Qed.

Lemma python_is_python : bool_decide (lit "python" = lit "python") = true.
Proof. reflexivity. Qed.

Lemma nodejs_is_not_python : bool_decide (lit "nodejs" = lit "python") = false.
Proof. reflexivity. Qed.

Lemma nodejs_is_nodejs : bool_decide (lit "nodejs" = lit "nodejs") = true.
Proof. reflexivity. Qed.

(** Inference for Runtime A, case by case. *)
Lemma autoCreate_python (w : World) (s : State) (dir : str)
  (files : list BotFile) :
  autoCreateDependencies w dir (lit "python") files s
  = match readDisk s dir "requirements.txt" with
    | Some _ => (Ok tt, s)
    | None =>
        if 0 <? length (pythonImports files)
        then tryCatch
               (writeFile w dir (lit "requirements.txt")
                  (join (pythonImports files) [newline]))
               (fun _ => mret tt) s
        else (Ok tt, s)
    end.
Proof.
  unfold autoCreateDependencies. rewrite python_is_python. cbv zeta.
  unfold tryCatch at 1, mbind, M_bind.
  destruct (readDisk s dir "requirements.txt") as [text|] eqn:E.
  - rewrite access_true by (rewrite E; eauto). done.
  - rewrite access_false by done. cbn [negb].
    destruct (0 <? _); [|done]. unfold tryCatch.
    by destruct (writeFile _ _ _ _ _) as [[[]|?] ?].
Qed.

(** Inference for Runtime B, case by case. *)
Lemma autoCreate_nodejs (w : World) (s : State) (dir : str)
  (files : list BotFile) :
  autoCreateDependencies w dir (lit "nodejs") files s
  = match readDisk s dir "package.json" with
    | Some _ => (Ok tt, s)
    | None =>
        if 0 <? length (jsDependencies files)
        then tryCatch
               (writeFile w dir (lit "package.json")
                  (packageJson (jsDependencies files)))
               (fun _ => mret tt) s
        else (Ok tt, s)
    end.
Proof.
  unfold autoCreateDependencies.
  rewrite nodejs_is_not_python, nodejs_is_nodejs. cbv zeta.
  unfold tryCatch at 1, mbind, M_bind.
  destruct (readDisk s dir "package.json") as [text|] eqn:E.
  - rewrite access_true by (rewrite E; eauto). done.
  - rewrite access_false by done. cbn [negb].
    destruct (0 <? _); [|done]. unfold tryCatch.
    by destruct (writeFile _ _ _ _ _) as [[[]|?] ?].
Qed.

(** C7, the claim as stated fails: the Python file "import json" contains
    none of the markers of the table, yet its manifest is the pin of json5
    alone, without the baseline pin of the chat library. *)
Lemma C7_counterexample :
  let files := [file "a.py" "import json"] in
  let s := emptyWorkspace "python" files in
  forallb (markerFree (map fst markerTable)) files = true
  /\ readDisk (autoCreateDependencies calm b1 (lit "python") files s).2 b1
       "requirements.txt" = Some (lit "json5>=0.9.0")
  /\ includes (lit "json5>=0.9.0") (lit "discord.py>=2.3.0") = false.
Proof. repeat split; vm_compute; reflexivity. Qed.

(** C7, amended. Inference leaves the workspace as it is when it holds the
    manifest of the runtime. When it does not: a single Python file that
    contains a marker of the table yields a requirements.txt whose lines
    include the pin of the marker; files with at least one runtime file in
    which none of the texts the code looks for occurs (for Python the
    markers of the table and those of asyncio, json and sqlite3) yield
    exactly the baseline pin of the chat library; files without a runtime
    file yield no manifest. *)
Theorem C7_dependency_inference (w : World) (s : State) (dir : str)
  (files : list BotFile) (f : BotFile) (marker pin : string)
  (fs : gmap str str) :
  (is_Some (readDisk s dir "requirements.txt") ->
   autoCreateDependencies w dir (lit "python") files s = (Ok tt, s))
  /\ (is_Some (readDisk s dir "package.json") ->
      autoCreateDependencies w dir (lit "nodejs") files s = (Ok tt, s))
  /\ (readDisk s dir "requirements.txt" = None ->
      disk s !! dir = Some fs ->
      writeFileError w dir (lit "requirements.txt") = None ->
      isPythonFile f = true ->
      In (marker, pin) markerTable ->
      has (content f) marker = true ->
      exists imports,
        readDisk (autoCreateDependencies w dir (lit "python") [f] s).2 dir
          "requirements.txt" = Some (join imports [newline])
        /\ lit pin ∈ imports)
  /\ (readDisk s dir "requirements.txt" = None ->
      disk s !! dir = Some fs ->
      writeFileError w dir (lit "requirements.txt") = None ->
      List.filter isPythonFile files <> [] ->
      forallb (markerFree pythonMarkers) (List.filter isPythonFile files)
      = true ->
      readDisk (autoCreateDependencies w dir (lit "python") files s).2 dir
        "requirements.txt" = Some (lit "discord.py>=2.3.0"))
  /\ (readDisk s dir "package.json" = None ->
      disk s !! dir = Some fs ->
      writeFileError w dir (lit "package.json") = None ->
      List.filter isJsFile files <> [] ->
      forallb (markerFree jsMarkers) (List.filter isJsFile files) = true ->
      readDisk (autoCreateDependencies w dir (lit "nodejs") files s).2 dir
        "package.json"
      = Some (packageJson [(lit "discord.js", lit "^14.14.1")]))
  /\ (List.filter isPythonFile files = [] ->
      autoCreateDependencies w dir (lit "python") files s = (Ok tt, s))
  /\ (List.filter isJsFile files = [] ->
      autoCreateDependencies w dir (lit "nodejs") files s = (Ok tt, s)).
Proof.
  rewrite !autoCreate_python, !autoCreate_nodejs.
  split; [by intros [? ->]|]. split; [by intros [? ->]|].
  split; [|split; [|split; [|split]]].
  - intros -> Hd Hw Hpy Hm Hhas.
    pose proof (pythonImports_marker f marker pin Hpy Hm Hhas) as Hin.
    exists (pythonImports [f]). split; [|exact Hin].
    destruct (pythonImports [f]) as [|x l] eqn:E;
      [by apply elem_of_nil in Hin|].
    cbn [length Nat.ltb Nat.leb]. unfold tryCatch.
    rewrite (writeFile_ok w s dir _ _ fs Hw Hd). cbn [snd].
    apply readDisk_written.
  - intros -> Hd Hw Hne Hfree.
    rewrite (pythonImports_free files Hfree).
    destruct (List.filter isPythonFile files); [done|].
    cbn [length Nat.ltb Nat.leb]. unfold tryCatch.
    rewrite (writeFile_ok w s dir _ _ fs Hw Hd). cbn [snd join].
    apply readDisk_written.
  - intros -> Hd Hw Hne Hfree.
    rewrite (jsDependencies_free files Hfree).
    destruct (List.filter isJsFile files); [done|].
    cbn [length Nat.ltb Nat.leb]. unfold tryCatch.
    rewrite (writeFile_ok w s dir _ _ fs Hw Hd). cbn [snd].
    apply readDisk_written.
  - intros Hnone. unfold pythonImports. rewrite Hnone. cbn.
    by destruct (readDisk s dir "requirements.txt").
  - intros Hnone. unfold jsDependencies. rewrite Hnone. cbn.
    by destruct (readDisk s dir "package.json").
Qed.

(** C7 on workspaces with and without a manifest. *)
Lemma C7_dependency_inference_witness :
  autoCreateDependencies calm b1 (lit "python") [] manifested
  = (Ok tt, manifested)
  /\ autoCreateDependencies calm b1 (lit "nodejs") [] manifested
     = (Ok tt, manifested)
  /\ (exists imports,
        readDisk (autoCreateDependencies calm b1 (lit "python")
                    [file "bot.py" "import aiohttp"]
                    (emptyWorkspace "python" [])).2 b1 "requirements.txt"
        = Some (join imports [newline])
        /\ lit "aiohttp>=3.8.0" ∈ imports)
  /\ readDisk (autoCreateDependencies calm b1 (lit "python") [helloWorld]
                 (emptyWorkspace "python" [])).2 b1 "requirements.txt"
     = Some (lit "discord.py>=2.3.0")
  /\ readDisk (autoCreateDependencies calm b1 (lit "nodejs")
                 [file "index.js" "console.log(1)"]
                 (emptyWorkspace "nodejs" [])).2 b1 "package.json"
     = Some (packageJson [(lit "discord.js", lit "^14.14.1")])
  /\ autoCreateDependencies calm b1 (lit "python") [file "README.md" "hi"]
       (emptyWorkspace "python" [])
     = (Ok tt, emptyWorkspace "python" [])
  /\ autoCreateDependencies calm b1 (lit "nodejs") [file "README.md" "hi"]
       (emptyWorkspace "nodejs" [])
     = (Ok tt, emptyWorkspace "nodejs" []).
Proof.
  destruct (C7_dependency_inference calm manifested b1 []
              (file "bot.py" "import aiohttp") "aiohttp" "aiohttp>=3.8.0" ∅)
    as (A1 & A2 & _).
  destruct (C7_dependency_inference calm (emptyWorkspace "python" []) b1
              [helloWorld] (file "bot.py" "import aiohttp")
              "aiohttp" "aiohttp>=3.8.0" ∅)
    as (_ & _ & B & C1 & _).
  destruct (C7_dependency_inference calm (emptyWorkspace "nodejs" []) b1
              [file "index.js" "console.log(1)"]
              (file "bot.py" "import aiohttp") "aiohttp" "aiohttp>=3.8.0" ∅)
    as (_ & _ & _ & _ & C2 & _).
  destruct (C7_dependency_inference calm (emptyWorkspace "python" []) b1
              [file "README.md" "hi"] (file "bot.py" "import aiohttp")
              "aiohttp" "aiohttp>=3.8.0" ∅)
    as (_ & _ & _ & _ & _ & D1 & _).
  destruct (C7_dependency_inference calm (emptyWorkspace "nodejs" []) b1
              [file "README.md" "hi"] (file "bot.py" "import aiohttp")
              "aiohttp" "aiohttp>=3.8.0" ∅)
    as (_ & _ & _ & _ & _ & _ & D2).
  split; [apply A1; vm_compute; eauto|].
  split; [apply A2; vm_compute; eauto|].
  split; [apply B; vm_compute; try reflexivity; tauto|].
  split; [apply C1; vm_compute; try reflexivity; discriminate|].
  split; [apply C2; vm_compute; try reflexivity; discriminate|].
  split; [apply D1; vm_compute; reflexivity|apply D2; vm_compute; reflexivity].
Defined.

End InferenceClaims.

Module InstallerFacts.
Import WpRules InferenceClaims Scenario Notions.

Lemma runCommand_succeeds (w : World) (cmd : str) (args : list str)
  (cwd : str) (timeout : N) (s : State) :
  succeeds w cmd args = true ->
  runCommand w cmd args cwd timeout s = (Ok tt, s).
Proof.
  unfold succeeds, runCommand.
  destruct (commandOutcome w cmd args) as [[[| |]|] err|msg|err]; try done.
Qed.

(** What [onToolFailure] leaves: its line on the console, that of stderr
    when there is one, and the rejection. *)
Lemma onToolFailure_run (cmd : str) (args : list str) (code : option Z)
  (stderr : str) (s : State) :
  exists lines t,
    onToolFailure cmd args code stderr s
    = (Throw (exitFailure cmd args code ++ lit ". "
              ++ (if 0 <? length (trim stderr)
                  then lit "Error: " ++ trim stderr else [])), t)
    /\ console t = console s ++ toolFailed cmd args code :: lines.
Proof.
  unfold onToolFailure, toolFailed, exitFailure. cbv zeta.
  unfold mbind, M_bind, consoleError, modify, throw.
  destruct (0 <? _); cbn [mret M_ret console withConsole].
  - eexists [_], _. split; [reflexivity|]. cbn [console withConsole].
    by rewrite <- app_assoc.
  - eexists [], _. by split.
Qed.

(** A command that does not exit with code 0 rejects. *)
Lemma runCommand_rejects (w : World) (cmd : str) (args : list str)
  (cwd : str) (timeout : N) (s : State) :
  succeeds w cmd args = false ->
  exists msg lines t,
    runCommand w cmd args cwd timeout s = (Throw msg, t)
    /\ console t = console s ++ lines
    /\ (forall code stderr,
          commandOutcome w cmd args = Exited code stderr ->
          toolFailed cmd args code ∈ lines
          /\ msg = exitFailure cmd args code ++ lit ". "
                   ++ (if 0 <? length (trim stderr)
                       then lit "Error: " ++ trim stderr else []))
    /\ (forall stderr,
          commandOutcome w cmd args = TimedOut stderr ->
          lines = []
          /\ msg = lit "Command timeout after " ++ ofN timeout ++ lit "ms: "
                   ++ cmd ++ lit " " ++ join args (lit " ")).
Proof.
  unfold succeeds, runCommand.
  destruct (commandOutcome w cmd args) as [code err|msg|err] eqn:E.
  - intros Hcode.
    assert (Hne : code <> Some 0%Z)
      by (intros ->; discriminate Hcode).
    rewrite bool_decide_eq_false_2 by done.
    destruct (onToolFailure_run cmd args code err s) as (lines & t & -> & Ht).
    eexists _, _, t. split; [done|]. split; [exact Ht|].
    split; [|by intros ? [=]].
    intros ? ? [= <- <-]. split; [by left|done].
  - intros _. eexists _, [], s. split; [done|].
    split; [by rewrite app_nil_r|]. split; by intros ? ?.
  - intros _. eexists _, [], s. split; [done|].
    split; [by rewrite app_nil_r|]. split; [by intros ? ?|].
    by intros ? [= <-].
Qed.

Lemma runCommand_fails (w : World) (cmd : str) (args : list str)
  (cwd : str) (timeout : N) (s : State) :
  succeeds w cmd args = false ->
  exists msg t, runCommand w cmd args cwd timeout s = (Throw msg, t).
Proof.
  intros H.
  destruct (runCommand_rejects w cmd args cwd timeout s H)
    as (msg & _ & t & Hrun & _).
  by exists msg, t.
Qed.

(** The listener of a killed tool returns, having written its line. *)
Lemma killedToolExit_run (w : World) (cmd : str) (args : list str)
  (s : State) :
  exists lines t,
    killedToolExit w cmd args s = (Ok tt, t)
    /\ console t = console s ++ lines
    /\ (forall stderr,
          commandOutcome w cmd args = TimedOut stderr ->
          toolFailed cmd args None ∈ lines).
Proof.
  unfold killedToolExit.
  destruct (commandOutcome w cmd args) as [code err|msg|err] eqn:E.
  - exists [], s. split; [done|]. split; [by rewrite app_nil_r|done].
  - exists [], s. split; [done|]. split; [by rewrite app_nil_r|done].
  - unfold onKilledToolExit, tryCatch.
    destruct (onToolFailure_run cmd args None err s) as (lines & t & -> & Ht).
    eexists _, t. split; [done|]. split; [exact Ht|].
    intros _ _. by left.
Qed.

Lemma readFile_found (s : State) (dir : str) (name : string) (text : str) :
  readDisk s dir name = Some text ->
  readFile dir (lit name) s = (Ok text, s).
Proof.
  intros H. unfold readFile. unfold mbind at 1. unfold M_bind, gets.
  unfold readDisk in H. cbv beta iota. by rewrite H.
Qed.



End InstallerFacts.

Module InstallerClaims.
Import WpRules QuietFacts AlikeFacts InstallerFacts Scenario Notions.








End InstallerClaims.

Module RadarProperties.
Import CharFacts StringFacts SplitFacts RadarFacts Scenario Notions.

Lemma appends_id : appends (fun acc => acc).
Proof. intros [rs n]. cbn. by rewrite app_nil_r, N.add_0_r. Qed.

Lemma appends_compose f g :
  appends f -> appends g -> appends (fun acc => g (f acc)).
Proof.
  intros Hf Hg acc. rewrite (Hg (f acc)), (Hf acc), (Hg (f _)). cbn.
  by rewrite app_assoc, N.add_assoc.
Qed.

Lemma appends_fold {X} (step : list str * N -> X -> list str * N) (xs : list X) :
  (forall x, appends (fun acc => step acc x)) ->
  appends (fun acc => fold_left step xs acc).
Proof.
  intros H. induction xs as [|x xs IH]; cbn [fold_left]; [apply appends_id|].
  apply (appends_compose (fun acc => step acc x)
           (fun acc => fold_left step xs acc)); [apply H|exact IH].
Qed.

Lemma appends_checkPattern file lowered p :
  appends (fun acc => checkPattern file lowered acc p).
Proof.
  intros [rs n]. unfold checkPattern. destruct (test _ _ _); cbn.
  - done.
  - by rewrite app_nil_r, N.add_0_r.
Qed.

Lemma appends_checkIndicator file lowered p :
  appends (fun acc => checkIndicator file lowered acc p).
Proof.
  intros [rs n]. unfold checkIndicator. destruct (test _ _ _); cbn.
  - done.
  - by rewrite app_nil_r, N.add_0_r.
Qed.

Lemma appends_checkLength file lowered : appends (checkLength file lowered).
Proof.
  intros [rs n]. unfold checkLength. cbv zeta. destruct (_ <? _)%N; cbn.
  - done.
  - by rewrite app_nil_r, N.add_0_r.
Qed.

Lemma appends_analyzeFile file : appends (fun acc => analyzeFile acc file).
Proof.
  unfold analyzeFile. cbv zeta.
  apply (appends_compose
           (fun acc => checkLength file _
                         (fold_left (checkPattern file _) suspiciousPatterns acc))
           (fun acc => fold_left (checkIndicator file _) obfuscationIndicators acc)).
  - apply (appends_compose
             (fun acc => fold_left (checkPattern file _) suspiciousPatterns acc)
             (checkLength file _)).
    + apply appends_fold. intros p. apply appends_checkPattern.
    + apply appends_checkLength.
  - apply appends_fold. intros p. apply appends_checkIndicator.
Qed.

Lemma appends_files files : appends (fun acc => fold_left analyzeFile files acc).
Proof. apply appends_fold. intros f. apply appends_analyzeFile. Qed.

Lemma fold_analyzeFile_app (a b : list BotFile) :
  fold_left analyzeFile (a ++ b) ([], 0%N)
  = ((fold_left analyzeFile a ([], 0%N)).1 ++ (fold_left analyzeFile b ([], 0%N)).1,
     ((fold_left analyzeFile a ([], 0%N)).2 + (fold_left analyzeFile b ([], 0%N)).2)%N).
Proof. rewrite fold_left_app. apply (appends_files b). Qed.

(** X1. The analysis of a list of files is the sum of the analyses
    of its parts: the reasons are concatenated and the scores added. So
    the score never goes down when files are added, and a suspicious
    upload stays suspicious whatever is uploaded with it, before or after. *)
Theorem analyzeCode_additive (a b : list BotFile) :
  reasons (analyzeCode (a ++ b))
  = reasons (analyzeCode a) ++ reasons (analyzeCode b)
  /\ riskScore (analyzeCode (a ++ b))
     = (riskScore (analyzeCode a) + riskScore (analyzeCode b))%N
  /\ (isSuspicious (analyzeCode a) = true ->
      isSuspicious (analyzeCode (a ++ b)) = true
      /\ isSuspicious (analyzeCode (b ++ a)) = true).
Proof.
  unfold analyzeCode. cbn [reasons riskScore isSuspicious].
  rewrite !fold_analyzeFile_app. cbn [fst snd].
  split; [done|]. split; [done|].
  rewrite !N.ltb_lt. lia.
Qed.

(** The benign words stay vetoed with a harmless file beside them. *)
Lemma analyzeCode_additive_witness :
  isSuspicious (analyzeCode ([benign] ++ [helloWorld])) = true
  /\ isSuspicious (analyzeCode ([helloWorld] ++ [benign])) = true.
Proof.
  apply (analyzeCode_additive [benign] [helloWorld]).
  vm_compute. reflexivity.
Defined.

Lemma bounded_compose f g m1 m2 :
  bounded f m1 -> bounded g m2 -> bounded (fun acc => g (f acc)) (m1 + m2).
Proof.
  intros Hf Hg acc. specialize (Hf acc). specialize (Hg (f acc)).
  cbv zeta in *. lia.
Qed.

Lemma bounded_checkPattern file lowered p :
  bounded (fun acc => checkPattern file lowered acc p) 10.
Proof.
  intros [rs n]. unfold checkPattern. destruct (test _ _ _); cbn.
  - rewrite length_app. cbn. lia.
  - lia.
Qed.

Lemma bounded_checkIndicator file lowered p :
  bounded (fun acc => checkIndicator file lowered acc p) 15.
Proof.
  intros [rs n]. unfold checkIndicator. destruct (test _ _ _); cbn.
  - rewrite length_app. cbn. lia.
  - lia.
Qed.

Lemma bounded_checkLength file lowered : bounded (checkLength file lowered) 5.
Proof.
  intros [rs n]. unfold checkLength. cbv zeta. destruct (_ <? _)%N; cbn.
  - rewrite length_app. cbn. lia.
  - lia.
Qed.

Lemma bounded_fold {X} (step : list str * N -> X -> list str * N) (xs : list X)
  (m : N) :
  (forall x, bounded (fun acc => step acc x) m) ->
  bounded (fun acc => fold_left step xs acc) (N.of_nat (length xs) * m).
Proof.
  intros H. induction xs as [|x xs IH].
  - intros acc. cbn. lia.
  - replace (N.of_nat (length (x :: xs)) * m)%N
      with (m + N.of_nat (length xs) * m)%N by (cbn [length]; lia).
    cbn [fold_left].
    apply (bounded_compose (fun acc => step acc x)
             (fun acc => fold_left step xs acc)); [apply H|exact IH].
Qed.

Lemma bounded_analyzeFile file :
  bounded (fun acc => analyzeFile acc file) maxFileScore.
Proof.
  unfold analyzeFile. cbv zeta.
  change maxFileScore with (N.of_nat 9 * 10 + 5 + N.of_nat 4 * 15)%N.
  apply (bounded_compose
           (fun acc => checkLength file _
                         (fold_left (checkPattern file _) suspiciousPatterns acc))
           (fun acc => fold_left (checkIndicator file _) obfuscationIndicators acc)).
  - apply (bounded_compose
             (fun acc => fold_left (checkPattern file _) suspiciousPatterns acc)
             (checkLength file _)).
    + apply (bounded_fold _ suspiciousPatterns). intros p.
      apply bounded_checkPattern.
    + apply bounded_checkLength.
  - apply (bounded_fold _ obfuscationIndicators). intros p.
    apply bounded_checkIndicator.
Qed.

Lemma bounded_files files :
  bounded (fun acc => fold_left analyzeFile files acc)
    (N.of_nat (length files) * maxFileScore).
Proof. apply bounded_fold. intros f. apply bounded_analyzeFile. Qed.

(** X2. Every reason stands for 5 to 15 points and a file adds at
    most 155, so a score above 20 comes with at least two reasons: the
    veto of [startBot], which quotes the first reason, always has one to
    quote. Without files the score is 0. *)
Theorem analyzeCode_reasons (files : list BotFile) :
  let a := analyzeCode files in
  (5 * N.of_nat (length (reasons a)) <= riskScore a)%N
  /\ (riskScore a <= 15 * N.of_nat (length (reasons a)))%N
  /\ (riskScore a <= N.of_nat (length files) * maxFileScore)%N
  /\ (isSuspicious a = true ->
      exists first second rest, reasons a = first :: second :: rest)
  /\ analyzeCode [] = {| isSuspicious := false; reasons := []; riskScore := 0 |}.
Proof.
  cbv zeta. unfold analyzeCode. cbn [reasons riskScore isSuspicious].
  destruct (bounded_files files ([], 0%N)) as (_ & [H5 H15] & Hmax).
  cbv zeta in *. cbn [fst snd length] in *. rewrite Nat.sub_0_r in *.
  split; [lia|]. split; [lia|]. split; [lia|]. split; [|done].
  rewrite N.ltb_lt. intros Hsus.
  destruct (fold_left analyzeFile files ([], 0%N)).1 as [|r1 [|r2 rest]];
    cbn [length] in *; [lia|lia|eauto].
Qed.

(** The benign words are vetoed for three reasons. *)
Lemma analyzeCode_reasons_witness :
  exists first second rest,
    reasons (analyzeCode [benign]) = first :: second :: rest.
Proof.
  apply (analyzeCode_reasons [benign]). vm_compute. reflexivity.
Defined.

Lemma split_length (s : str) (sep : ascii) :
  length (split s sep) = S (countChar sep s).
Proof.
  unfold countChar. induction s as [|c s IH]; [done|].
  cbn [split List.filter]. rewrite (Ascii.eqb_sym sep c).
  destruct (Ascii.eqb c sep); cbn [length]; [by rewrite IH|].
  destruct (split s sep); cbn [length] in *; [done|exact IH].
Qed.

Lemma toLowerChar_newline (c : ascii) :
  Ascii.eqb newline (toLowerChar c) = Ascii.eqb newline c.
Proof.
  apply Bool.eqb_prop. revert c.
  apply (forallChars_spec (fun c =>
           Bool.eqb (Ascii.eqb newline (toLowerChar c)) (Ascii.eqb newline c))).
  vm_compute. reflexivity.
Qed.

Lemma countChar_toLowerCase (s : str) :
  countChar newline (toLowerCase s) = countChar newline s.
Proof.
  unfold countChar, toLowerCase. induction s as [|c s IH]; [done|].
  cbn [map List.filter]. rewrite toLowerChar_newline.
  destruct (Ascii.eqb newline c); cbn [length]; by rewrite IH.
Qed.

(** X3. The length check counts line feeds: a file is large, and
    adds 5 points, exactly when its content holds at least 10000 of them,
    that is when it has more than 10000 lines; the letters do not matter. *)
Theorem checkLength_threshold (file : BotFile) (acc : list str * N) :
  (checkLength file (toLowerCase (content file)) acc).2
  = (acc.2 + if 10000 <=? N.of_nat (countChar newline (content file))
             then 5 else 0)%N.
Proof.
  unfold checkLength. cbv zeta.
  rewrite split_length, countChar_toLowerCase.
  destruct (10000 <=? N.of_nat (countChar newline (content file)))%N eqn:E.
  - apply N.leb_le in E.
    replace (10000 <? N.of_nat (S (countChar newline (content file))))%N
      with true by (symmetry; apply N.ltb_lt; lia).
    done.
  - apply N.leb_gt in E.
    replace (10000 <? N.of_nat (S (countChar newline (content file))))%N
      with false by (symmetry; apply N.ltb_ge; lia).
    cbn. lia.
Qed.

End RadarProperties.

Module WorkspaceProperties.
Import CharFacts StringFacts RegexFacts SplitFacts WpRules QuietFacts Scenario Notions.

Lemma last_snoc_filter (p : BotFile -> bool) (f : BotFile) (files : list BotFile) :
  last (List.filter p (f :: files))
  = match last (List.filter p files) with
    | Some g => Some g
    | None => if p f then Some f else None
    end.
Proof.
  cbn [List.filter]. destruct (p f); [|by destruct (last _)].
  by rewrite last_cons.
Qed.

(** The files of the directory after the loop, name by name. *)
Lemma writeAll_lookup (tok : str) (files : list BotFile) (fs : gmap str str)
  (name : str) :
  writeAll tok files fs !! name
  = match written tok files name with
    | Some text => Some text
    | None => fs !! name
    end.
Proof.
  unfold writeAll, written. revert fs.
  induction files as [|f files IH]; intros fs; [done|].
  cbn [fold_left]. rewrite IH, last_snoc_filter.
  destruct (last (List.filter _ files)) as [g|]; [done|].
  cbn [fmap option_fmap option_map].
  case_bool_decide as E.
  - subst name. cbn. by rewrite lookup_insert_eq.
  - cbn. by rewrite lookup_insert_ne.
Qed.

Lemma writeFiles_writes (w : World) (dir : str) (files : list BotFile)
  (tok : str) (s : State) (fs : gmap str str) :
  disk s !! dir = Some fs ->
  (forall f, In f files -> writeFileError w dir (filename f) = None) ->
  exists t,
    writeFiles w dir files tok s = (Ok tt, t)
    /\ disk t = <[dir := writeAll tok files fs]> (disk s).
Proof.
  revert s fs. induction files as [|f files IH]; intros s fs Hd Hw.
  - exists s. split; [done|]. unfold writeAll. cbn. by rewrite insert_id.
  - cbn [writeFiles]. unfold mbind, M_bind, writeFile at 1.
    rewrite (Hw f) by (by left). unfold mbind, M_bind, gets. rewrite Hd.
    cbn [modify].
    destruct (IH (withDisk (<[dir := <[filename f :=
                  substituteToken tok (content f)]> fs]>) s)
                (<[filename f := substituteToken tok (content f)]> fs))
      as (t & Ht & Hdisk).
    + state. by rewrite lookup_insert_eq.
    + intros g Hg. apply Hw. by right.
    + exists t. split; [exact Ht|]. rewrite Hdisk. state.
      by rewrite insert_insert_eq.
Qed.

(** X4. For an id and file names that are one segment of a
    path each, and without faults of the file system, materialisation
    returns the directory of the bot, in which every such name holds the
    substituted content of the last file uploaded under it; a file of the
    directory that no upload names stays as it was, and the directories
    of other ids are not touched. *)
Theorem createBotWorkspace_writes (w : World) (id tok : str)
  (files : list BotFile) (s : State) :
  plainName id = true ->
  (forall f, In f files -> plainName (filename f) = true) ->
  mkdirError w id = None ->
  (forall f, In f files -> writeFileError w id (filename f) = None) ->
  exists t,
    createBotWorkspace w id files tok s = (Ok id, t)
    /\ (forall name,
          plainName name = true ->
          fileAt t id name
          = match written tok files name with
            | Some text => Some text
            | None => fileAt s id name
            end)
    /\ (forall f, In f files -> NoDup (map filename files) ->
          fileAt t id (filename f) = Some (substituteToken tok (content f)))
    /\ (forall dir, plainName dir = true -> dir <> id ->
          disk t !! dir = disk s !! dir).
Proof.
  intros _ _ Hm Hw. unfold createBotWorkspace, mkdir. cbv zeta. rewrite Hm.
  unfold mbind, M_bind. cbn [modify].
  set (s1 := withDisk _ s).
  assert (Hd1 : disk s1 !! id = Some (default ∅ (disk s !! id))).
  { subst s1. state. destruct (disk s !! id) eqn:E; [done|].
    by rewrite lookup_insert_eq. }
  assert (Hother : forall dir, dir <> id -> disk s1 !! dir = disk s !! dir).
  { intros dir Hne. subst s1. state. destruct (disk s !! id); [done|].
    by rewrite lookup_insert_ne. }
  destruct (writeFiles_writes w id files tok s1 _ Hd1 Hw) as (t & Ht & Hdisk).
  rewrite Ht. exists t. split; [done|].
  assert (Hname : forall name,
            fileAt t id name
            = match written tok files name with
              | Some text => Some text
              | None => fileAt s id name
              end).
  { intros name. unfold fileAt. rewrite Hdisk, lookup_insert_eq. cbn.
    rewrite writeAll_lookup. destruct (written tok files name); [done|].
    by destruct (disk s !! id). }
  split; [by intros name _|]. split.
  - intros f Hin Hnd. rewrite Hname. unfold written.
    assert (E : List.filter (fun g => bool_decide (filename g = filename f)) files
                = [f]).
    { clear -Hin Hnd. induction files as [|g files IH]; [done|].
      cbn [map] in Hnd. apply NoDup_cons in Hnd as [Hg Hnd].
      cbn [List.filter]. destruct Hin as [->|Hin].
      - rewrite bool_decide_eq_true_2 by done. f_equal.
        clear IH. induction files as [|h files IH]; [done|].
        cbn [List.filter map] in *. apply not_elem_of_cons in Hg as [Hne Hg].
        apply NoDup_cons in Hnd as [_ Hnd].
        rewrite bool_decide_eq_false_2 by done. by apply IH.
      - rewrite bool_decide_eq_false_2; [by apply IH|].
        intros E. apply Hg. rewrite E. apply list_elem_of_fmap_2.
        by apply list_elem_of_In. }
    by rewrite E.
  - intros dir _ Hne. rewrite Hdisk, lookup_insert_ne by done.
    by apply Hother.
Qed.

(** Two uploads under one name and a stale file in the workspace. *)
Lemma createBotWorkspace_writes_witness :
  exists t,
    createBotWorkspace calm b1
      [file "bot.py" "old"; file "bot.py" "run(YOUR_BOT_TOKEN)"] (lit "T0K3N")
      manifested = (Ok b1, t)
    /\ fileAt t b1 (lit "bot.py") = Some (lit "run(" ++ q "T0K3N" ++ lit ")")
    /\ fileAt t b1 (lit "package.json") = Some (lit "{}").
Proof.
  destruct (createBotWorkspace_writes calm b1 (lit "T0K3N")
              [file "bot.py" "old"; file "bot.py" "run(YOUR_BOT_TOKEN)"]
              manifested)
    as (t & Ht & Hname & _).
  - vm_compute. reflexivity.
  - intros f [<-|[<-|[]]]; vm_compute; reflexivity.
  - reflexivity.
  - intros f _. reflexivity.
  - exists t. split; [exact Ht|].
    rewrite (Hname (lit "bot.py")), (Hname (lit "package.json"))
      by (vm_compute; reflexivity).
    split; vm_compute; reflexivity.
Defined.

(** Where the pattern matches nowhere the text stays as it is, whatever
    the replacement. *)
Lemma replaceFrom_no_match (r : regex) (repl before s : str) :
  test false r s = false -> replaceFrom r repl before 0 s = s.
Proof.
  revert before. induction s as [|c s IH]; intros before H.
  - cbn [replaceFrom]. cbn [test] in H.
    by destruct (matchAt false r []).
  - cbn [replaceFrom]. cbn [test] in H.
    destruct (matchAt false r (c :: s)); [done|].
    by rewrite IH.
Qed.

Lemma word_some (w s : str) (k : str -> option str) :
  is_Some (matchK false (word w) k s) -> startsWith s w = true.
Proof.
  rewrite matchK_word by done.
  destruct (startsWith s w); [done|]. by intros [? ?].
Qed.

Lemma includes_prefix (s w : str) (key : string) :
  startsWith s w = true -> startsWith w (lit key) = true ->
  has s key = true.
Proof.
  rewrite !startsWith_spec. intros [b ->] [b' ->].
  apply includes_spec. exists [], (b' ++ b). by rewrite <- app_assoc.
Qed.

Lemma includes_inner (s w : str) (key : string) :
  startsWith s w = true -> has w key = true -> has s key = true.
Proof.
  rewrite startsWith_spec. intros [b ->] Hw.
  by apply (includes_infix [] w b).
Qed.

(** A pattern that can only match where [key] occurs does not match in a
    text without [key]. *)
Lemma test_key (r : regex) (key : string) (text : str) :
  (forall b, is_Some (matchAt false r b) -> has b key = true) ->
  has text key = false -> test false r text = false.
Proof.
  intros Hr Hno. destruct (test false r text) eqn:E; [|done].
  apply test_spec in E as (a & b & -> & Hm).
  apply Hr in Hm. unfold has in *.
  pose proof (includes_infix a b [] _ Hm) as H.
  rewrite app_nil_r in H. congruence.
Qed.

Ltac alternative :=
  match goal with
  | H : In _ (_ :: _) |- _ => destruct H as [<-|H]
  | H : In _ [] |- _ => destruct H
  end.

Lemma placeholderPattern_key (b : str) :
  is_Some (matchAt false placeholderPattern b) -> has b "YOUR_BOT_TOKEN" = true.
Proof.
  unfold placeholderPattern. rewrite matchAt_alts. intros (r & Hin & Hm).
  repeat alternative.
  - apply word_some in Hm. by eapply includes_prefix.
  - unfold matchAt in Hm. cbn [cats matchK] in Hm.
    destruct b as [|x b]; [by destruct Hm|].
    destruct (charMatches false dquote x); [|by destruct Hm].
    apply word_some in Hm. unfold has. rewrite includes_cons.
    apply orb_true_iff. right. by eapply includes_prefix.
  - apply word_some in Hm. by eapply includes_inner.
Qed.

Lemma processEnvPattern_key (b : str) :
  is_Some (matchAt false processEnvPattern b) -> has b "process.env." = true.
Proof.
  unfold processEnvPattern. rewrite matchAt_alts. intros (r & Hin & Hm).
  repeat alternative; apply word_some in Hm; by eapply includes_prefix.
Qed.

Lemma osEnvironPattern_key (b : str) :
  is_Some (matchAt false osEnvironPattern b) -> has b "os.environ" = true.
Proof.
  unfold osEnvironPattern. rewrite matchAt_alts. intros (r & Hin & Hm).
  repeat alternative; unfold matchAt in Hm; cbn [cats matchK] in Hm;
    apply word_some in Hm; by eapply includes_prefix.
Qed.

Lemma osGetenvPattern_key (b : str) :
  is_Some (matchAt false osGetenvPattern b) -> has b "os.getenv(" = true.
Proof.
  unfold osGetenvPattern, matchAt. cbn [cats matchK]. intros Hm.
  apply word_some in Hm. by eapply includes_prefix.
Qed.

(** X5. A source in which none of the texts occurs that the four
    patterns begin with (the placeholder, [process.env.], [os.environ]
    and [os.getenv(]) is written to the workspace as it is, whatever the
    token, also one with dollar signs. *)
Theorem substituteToken_identity (botToken text : str) :
  placeholderFree text = true ->
  substituteToken botToken text = text.
Proof.
  unfold placeholderFree. rewrite !andb_true_iff, !negb_true_iff.
  intros [[[H1 H2] H3] H4]. unfold substituteToken, replaceAll. cbv zeta.
  rewrite (replaceFrom_no_match placeholderPattern)
    by (eapply test_key; [apply placeholderPattern_key|done]).
  rewrite (replaceFrom_no_match processEnvPattern)
    by (eapply test_key; [apply processEnvPattern_key|done]).
  rewrite (replaceFrom_no_match osEnvironPattern)
    by (eapply test_key; [apply osEnvironPattern_key|done]).
  apply replaceFrom_no_match.
  eapply test_key; [apply osGetenvPattern_key|done].
Qed.

(** A source without placeholders and a token of dollar signs. *)
Lemma substituteToken_identity_witness :
  substituteToken (lit "$&$'") (lit "print('hi')") = lit "print('hi')".
Proof. apply substituteToken_identity. vm_compute. reflexivity. Defined.

End WorkspaceProperties.

Module StartProperties.
Import WpRules QuietFacts StartSuccess SupervisorFacts Scenario Notions Runtime.

(** What a start attempt that does not succeed leaves behind: when it
    throws, the handles and the store are as before; when it returns a
    failure, the veto has been persisted and logged. *)
Lemma startAttempt_failure (w : World) (id : str) (bot : Bot) (s : State) :
  wp (startAttempt w id bot)
    (fun o t =>
       match o with
       | Throw _ => sameStore s t
       | Ok r =>
           Result.success r = false ->
           processes t = processes s
           /\ bots t = alter (applyPatch (statusOnly Status.error)) id (bots s)
           /\ botFiles t = botFiles s
           /\ (exists msg, botLogs t = botLogs s ++ [logged id LogType.error msg])
           /\ journal t = journal s ++ [BotUpdated id (statusOnly Status.error)]
           /\ disk t = disk s
       end) s.
Proof.
  unfold startAttempt.
  wp_step. unfold validateBot. wp_steps; try reflexivity.
  { intros _. repeat split; eauto. }
  apply wp_quiet; [apply quiet_createBotWorkspace|].
  intros [botDir|msg] s1 H1; [|exact H1].
  wp_step.
  apply wp_quiet; [apply quiet_autoCreateDependencies|].
  intros [[]|msg] s2 H2; [|by etrans].
  wp_step.
  apply wp_quiet; [apply quiet_installDependencies|].
  intros [[]|msg] s3 H3; [|by etrans; [etrans|]].
  assert (H : sameStore s s3) by (by etrans; [etrans|]).
  cbv zeta. wp_step.
  wp_step.
  - wp_step.
    apply wp_quiet; [apply quiet_resolveMainFile|].
    intros [mainFile|msg] s4 H4; [|by etrans].
    wp_steps. discriminate.
  - wp_step.
    + wp_step.
      apply wp_quiet; [apply quiet_resolveMainFile|].
      intros [mainFile|msg] s4 H4; [|by etrans].
      wp_steps. discriminate.
    + wp_step. exact H.
Qed.

(** X6. A start that finds the bot without a handle and returns a
    failure has persisted 'starting' and then 'error', has appended one
    error record to the log of the bot, and has left the handle map and
    the stored files as they were: a failed start never leaves a handle. *)
Theorem startBot_failure (w : World) (id : str) (s s' : State) (r : Result.t) :
  startBot w id s = (Ok r, s') ->
  Result.success r = false ->
  processes s !! id = None ->
  processes s' = processes s
  /\ bots s' = alter (applyPatch (statusOnly Status.error)) id
                 (alter (applyPatch (statusOnly Status.starting)) id (bots s))
  /\ botFiles s' = botFiles s
  /\ (exists msg, botLogs s' = botLogs s ++ [logged id LogType.error msg])
  /\ journal s'
     = journal s ++ [BotUpdated id (statusOnly Status.starting);
                     BotUpdated id (statusOnly Status.error)].
Proof.
  intros Hrun Hfail Hproc.
  enough (wp (startBot w id)
            (fun o t => forall r, o = Ok r -> Result.success r = false ->
               processes t = processes s
               /\ bots t = alter (applyPatch (statusOnly Status.error)) id
                             (alter (applyPatch (statusOnly Status.starting)) id
                                (bots s))
               /\ botFiles t = botFiles s
               /\ (exists msg,
                     botLogs t = botLogs s ++ [logged id LogType.error msg])
               /\ journal t
                  = journal s ++ [BotUpdated id (statusOnly Status.starting);
                                  BotUpdated id (statusOnly Status.error)])
            s) as H.
  { apply wp_run in H. rewrite Hrun in H. by apply (H r). }
  unfold startBot. wp_step. wp_step.
  destruct (bots s !! id) as [bot|] eqn:Hbot; [|wp_step; discriminate].
  wp_step. wp_step. rewrite Hproc.
  rewrite bool_decide_eq_false_2 by (by intros [? ?]).
  wp_step. wp_step. wp_step.
  eapply wp_mono; [apply startAttempt_failure|].
  intros [r0|msg] t Ht.
  - intros r1 [= <-] Hr1. destruct (Ht Hr1) as (? & ? & ? & ? & Hj & _).
    state. rewrite <- app_assoc in Hj. by repeat split.
  - destruct Ht as (Hp & Hb & Hf & Hl & Hj). state.
    wp_steps. intros r1 _ _. rewrite Hp, Hb, Hf, Hl, Hj, <- app_assoc.
    repeat split; eauto.
Qed.

(** A bot whose token is empty: the start fails at the validation. *)
Lemma startBot_failure_witness :
  let s := server (newBot EmptyString "python") [helloWorld] in
  statusOf (startBot calm b1 s).2 b1 = Some Status.error
  /\ processes (startBot calm b1 s).2 = processes s.
Proof.
  cbv zeta.
  pose (s := server (newBot EmptyString "python") [helloWorld]).
  pose (r := Result.Make false (lit "Failed to start bot: Bot token is missing")).
  assert (Hrun : startBot calm b1 s = (Ok r, (startBot calm b1 s).2))
    by (vm_compute; reflexivity).
  destruct (startBot_failure calm b1 s _ r Hrun eq_refl eq_refl)
    as (Hp & Hb & _).
  split; [|exact Hp].
  unfold statusOf. fold s. rewrite Hb. vm_compute. reflexivity.
Defined.

End StartProperties.

Module KeepFacts.
Import WpRules QuietFacts Notions.

#[export] Instance keeps_preorder dir : PreOrder (keeps dir).
Proof.
  split.
  - by intros s name.
  - intros s1 s2 s3 H12 H23 name H. by apply H23, H12.
Qed.

Lemma keeps_same_disk dir (s t : State) : disk t = disk s -> keeps dir s t.
Proof. intros E name. unfold holds, fileAt. by rewrite E. Qed.

Lemma keeps_withConsole dir f s : keeps dir s (withConsole f s).
Proof. by apply keeps_same_disk. Qed.

Ltac keep_step :=
  lazymatch goal with
  | |- within (keeps _) (mbind _ _) => apply within_bind; [apply _| |intros ?]
  | |- within (keeps _) (mret _) => apply within_ret; apply _
  | |- within (keeps _) (throw _) => apply within_throw; apply _
  | |- within (keeps _) (gets _) => apply within_gets; apply _
  | |- within (keeps _) (getBot _) => apply within_gets; apply _
  | |- within (keeps _) (getBotFiles _) => apply within_gets; apply _
  | |- within (keeps _) (tryCatch _ _) =>
      apply within_tryCatch; [apply _| |intros ?]
  | |- within (keeps _) (if ?b then _ else _) => destruct b
  | |- within (keeps _) (match ?x with _ => _ end) => destruct x
  end.

Lemma keeps_modify dir (f : State -> State) :
  (forall s, disk (f s) = disk s) -> within (keeps dir) (modify f).
Proof. intros H s. by apply keeps_same_disk, H. Qed.

Lemma keeps_mkdir dir w d : within (keeps dir) (mkdir w d).
Proof.
  unfold mkdir. destruct (mkdirError w d); [keep_step|].
  intros s name. unfold holds, fileAt. cbn [modify snd]. state.
  destruct (disk s !! d) eqn:E; [done|].
  destruct (decide (d = dir)) as [->|Hne].
  - rewrite E. by intros [? ?].
  - by rewrite lookup_insert_ne.
Qed.

Lemma keeps_writeFile dir w d name text :
  within (keeps dir) (writeFile w d name text).
Proof.
  unfold writeFile. destruct (writeFileError w d name); [keep_step|].
  intros s n. unfold holds, fileAt, mbind, M_bind, gets.
  destruct (disk s !! d) as [fs|] eqn:E; [|done].
  cbn [modify snd]. state.
  destruct (decide (d = dir)) as [->|Hne].
  - rewrite E, lookup_insert_eq. cbn.
    destruct (decide (name = n)) as [->|Hn].
    + rewrite lookup_insert_eq. eauto.
    + by rewrite lookup_insert_ne.
  - by rewrite lookup_insert_ne.
Qed.

Lemma keeps_access dir d name : within (keeps dir) (access d name).
Proof. unfold access. keep_step. Qed.

Lemma keeps_readFile dir d name : within (keeps dir) (readFile d name).
Proof. unfold readFile. repeat keep_step. Qed.

Lemma keeps_consoleError dir line : within (keeps dir) (consoleError line).
Proof. apply within_consoleError; [apply _|apply keeps_withConsole]. Qed.

Lemma keeps_runCommand dir w cmd args cwd timeout :
  within (keeps dir) (runCommand w cmd args cwd timeout).
Proof. apply within_runCommand; [apply _|apply keeps_withConsole]. Qed.

Lemma keeps_killedToolExit dir w cmd args :
  within (keeps dir) (killedToolExit w cmd args).
Proof. apply within_killedToolExit; [apply _|apply keeps_withConsole]. Qed.

Lemma keeps_onKilledToolExit dir cmd args stderr :
  within (keeps dir) (onKilledToolExit cmd args stderr).
Proof. apply within_onKilledToolExit; [apply _|apply keeps_withConsole]. Qed.

Lemma keeps_writeFiles dir w d files tok :
  within (keeps dir) (writeFiles w d files tok).
Proof.
  induction files as [|f files IH]; cbn [writeFiles]; [keep_step|].
  keep_step; [apply keeps_writeFile|exact IH].
Qed.

Lemma keeps_createBotWorkspace dir w id files tok :
  within (keeps dir) (createBotWorkspace w id files tok).
Proof.
  unfold createBotWorkspace. cbv zeta.
  keep_step; [apply keeps_mkdir|].
  keep_step; [apply keeps_writeFiles|keep_step].
Qed.

Lemma keeps_autoCreateDependencies dir w d lang files :
  within (keeps dir) (autoCreateDependencies w d lang files).
Proof.
  unfold autoCreateDependencies. cbv zeta.
  keep_step; [|keep_step].
  destruct (bool_decide (lang = lit "python")).
  - keep_step; [apply keeps_access|].
    destruct (negb _); [|keep_step].
    destruct (0 <? _); [apply keeps_writeFile|keep_step].
  - destruct (bool_decide (lang = lit "nodejs")); [|keep_step].
    keep_step; [apply keeps_access|].
    destruct (negb _); [|keep_step].
    destruct (0 <? _); [apply keeps_writeFile|keep_step].
Qed.

Lemma keeps_installAttempts dir w d lang :
  within (keeps dir) (installAttempts w d lang).
Proof.
  unfold installAttempts.
  destruct (bool_decide (lang = lit "python")).
  - keep_step; [apply keeps_access|].
    match goal with |- context [if ?b then _ else _] => destruct b end;
      [|keep_step].
    keep_step; [apply keeps_readFile|].
    repeat (apply within_tryCatch; [apply _|apply keeps_runCommand|intros _];
            apply within_bind; [apply _|apply keeps_killedToolExit|intros _]).
    apply keeps_runCommand.
  - destruct (bool_decide (lang = lit "nodejs")); [|keep_step].
    keep_step; [apply keeps_access|].
    match goal with |- context [if ?b then _ else _] => destruct b end;
      [|keep_step].
    keep_step; [apply keeps_readFile|].
    destruct (jsonParseError w _); [keep_step|apply keeps_runCommand].
Qed.

Lemma keeps_installDependencies dir w d lang :
  within (keeps dir) (installDependencies w d lang).
Proof.
  unfold installDependencies.
  keep_step; [apply keeps_installAttempts|apply keeps_consoleError].
Qed.

Lemma keeps_resolveMainFile dir bot d files isRt common e1 e2 :
  within (keeps dir) (resolveMainFile bot d files isRt common e1 e2).
Proof.
  unfold resolveMainFile. cbv zeta.
  destruct (if falsy (mainFile bot) then _ else _) as [[|c m]|];
    try (apply within_throw; apply _).
  keep_step; [apply keeps_access|].
  match goal with |- context [if ?b then _ else _] => destruct b end;
    [keep_step|].
  destruct (List.filter isRt files); keep_step.
Qed.

Lemma keeps_updateBot dir id p : within (keeps dir) (updateBot id p).
Proof. by apply keeps_modify. Qed.

Lemma keeps_logBotOutput dir id ty msg :
  within (keeps dir) (logBotOutput id ty msg).
Proof. by apply keeps_modify. Qed.

Lemma keeps_setProcess dir id child : within (keeps dir) (setProcess id child).
Proof. by apply keeps_modify. Qed.

Lemma keeps_deleteProcess dir id : within (keeps dir) (deleteProcess id).
Proof. by apply keeps_modify. Qed.

Lemma keeps_kill dir child sig : within (keeps dir) (kill child sig).
Proof. by apply keeps_modify. Qed.

Lemma keeps_startAttempt dir w id bot :
  within (keeps dir) (startAttempt w id bot).
Proof.
  unfold startAttempt.
  keep_step; [unfold validateBot; repeat keep_step|].
  keep_step; [keep_step|]. cbv zeta.
  keep_step.
  - keep_step; [apply keeps_updateBot|].
    keep_step; [apply keeps_logBotOutput|keep_step].
  - keep_step; [apply keeps_createBotWorkspace|].
    keep_step; [apply keeps_autoCreateDependencies|].
    keep_step; [apply keeps_installDependencies|].
    keep_step.
    + destruct (bool_decide (language bot = lit "python")).
      * keep_step; [apply keeps_resolveMainFile|keep_step].
      * destruct (bool_decide (language bot = lit "nodejs")); [|keep_step].
        keep_step; [apply keeps_resolveMainFile|keep_step].
    + keep_step; [apply keeps_setProcess|].
      keep_step; [apply keeps_updateBot|keep_step].
Qed.

Lemma keeps_startBot dir w id : within (keeps dir) (startBot w id).
Proof.
  unfold startBot. keep_step; [keep_step|].
  keep_step; [|keep_step].
  keep_step; [keep_step|].
  keep_step; [keep_step|].
  keep_step; [apply keeps_updateBot|].
  keep_step; [apply keeps_startAttempt|].
  keep_step; [apply keeps_updateBot|].
  keep_step; [apply keeps_logBotOutput|keep_step].
Qed.

Lemma keeps_reply dir id (m : M Result.t) :
  within (keeps dir) m -> within (keeps dir) (reply id m).
Proof.
  intros Hm. unfold reply. keep_step; [|keep_step].
  keep_step; [exact Hm|]. by apply keeps_modify.
Qed.

(** The end of a stop removes the workspace of its own bot only. *)
Lemma keeps_stopBotResume dir w id :
  id <> dir -> within (keeps dir) (stopBotResume w id).
Proof.
  intros Hne. unfold stopBotResume.
  keep_step; [apply keeps_deleteProcess|].
  keep_step; [apply keeps_updateBot|].
  keep_step; [|keep_step].
  keep_step; [|apply keeps_consoleError].
  unfold rm. destruct (rmError w id); [keep_step|].
  intros s name. unfold holds, fileAt. cbn [modify snd]. state.
  by rewrite lookup_delete_ne.
Qed.

End KeepFacts.

Module LifecycleProperties.
Import WpRules QuietFacts StartSuccess SupervisorFacts KeepFacts Scenario
  Notions Runtime.

Lemma writeFile_holds (w : World) (d name text : str) (s : State) :
  wp (writeFile w d name text) (fun o t => o = Ok tt -> holds t d name) s.
Proof.
  unfold writeFile. destruct (writeFileError w d name); [by wp_step|].
  wp_step. wp_step. destruct (disk s !! d) eqn:E; [|by wp_step].
  wp_step. intros _. unfold holds, fileAt. state.
  rewrite lookup_insert_eq. cbn. rewrite lookup_insert_eq. eauto.
Qed.

Lemma writeFiles_holds (w : World) (d : str) (files : list BotFile)
  (tok : str) (s : State) :
  wp (writeFiles w d files tok)
    (fun o t => o = Ok tt -> forall f, In f files -> holds t d (filename f)) s.
Proof.
  revert s. induction files as [|f files IH]; intros s.
  - cbn [writeFiles]. wp_step. by intros _ f [].
  - cbn [writeFiles]. wp_step.
    eapply wp_mono; [apply writeFile_holds|].
    intros [[]|msg] s1 H1; [|done]. cbv beta iota.
    pose proof (IH s1) as HIH. pose proof (keeps_writeFiles d w d files tok s1) as HK.
    unfold wp in *. intros Hok g [<-|Hin]; [by apply HK, H1|by apply HIH].
Qed.

Lemma createBotWorkspace_holds (w : World) (id : str) (files : list BotFile)
  (tok : str) (s : State) :
  wp (createBotWorkspace w id files tok)
    (fun o t => forall d, o = Ok d ->
       d = id /\ forall f, In f files -> holds t id (filename f)) s.
Proof.
  unfold createBotWorkspace. cbv zeta. wp_step.
  apply (wp_within (keeps id)); [apply keeps_mkdir|].
  intros [[]|msg] s1 _; [|done]. wp_step.
  eapply wp_mono; [apply writeFiles_holds|].
  intros [[]|msg] s2 H; [|done]. cbv beta iota. wp_step.
  intros d [= <-]. split; [done|]. by apply H.
Qed.

(** The file [resolveMainFile] names is in the workspace, or it is the
    first file of the runtime among the files of the bot. *)
Lemma resolveMainFile_result (bot : Bot) (d : str) (files : list BotFile)
  (isRt : BotFile -> bool) (common : list str) (e1 e2 : string) (s : State) :
  wp (resolveMainFile bot d files isRt common e1 e2)
    (fun o t => t = s /\ forall f, o = Ok f ->
       holds s d f \/ exists first, In first files /\ f = filename first) s.
Proof.
  unfold resolveMainFile. cbv zeta.
  destruct (if falsy (mainFile bot) then _ else _) as [[|c m]|];
    try (by wp_step).
  wp_step. unfold access. wp_step. case_bool_decide as Hex.
  - wp_step. split; [done|]. intros f [= <-]. by left.
  - destruct (List.filter isRt files) as [|first rest] eqn:E; [by wp_step|].
    wp_step. split; [done|]. intros f [= <-]. right. exists first.
    split; [|done]. apply (proj1 (filter_In isRt first files)).
    rewrite E. by left.
Qed.

Ltac failed :=
  let r := fresh in let Hr := fresh in let Hs := fresh in
  intros r Hr Hs;
  first [discriminate Hr | injection Hr as <-; discriminate Hs].

(** The child of a successful attempt runs, in the workspace of the bot,
    a file that the workspace holds. *)
Lemma startAttempt_runs (w : World) (id : str) (bot : Bot) (s : State) :
  wp (startAttempt w id bot)
    (fun o t => forall r, o = Ok r -> Result.success r = true ->
       exists child f,
         processes t !! id = Some child
         /\ cwd child = id
         /\ holds t id f
         /\ ((language bot = lit "python" /\ command child = lit "python3"
              /\ args child = [lit "-u"; f])
             \/ (language bot = lit "nodejs" /\ command child = lit "node"
                 /\ args child = [f]))) s.
Proof.
  unfold startAttempt.
  wp_step. unfold validateBot. wp_steps; try failed.
  eapply wp_mono; [apply createBotWorkspace_holds|].
  intros [botDir|msg] s1 H1; [|failed]. cbv beta iota.
  destruct (H1 _ eq_refl) as [-> Hfiles]. clear H1.
  wp_step.
  apply (wp_within (keeps id)); [apply keeps_autoCreateDependencies|].
  intros [[]|msg] s2 K2; [|failed].
  wp_step.
  apply (wp_within (keeps id)); [apply keeps_installDependencies|].
  intros [[]|msg] s3 K3; [|failed].
  assert (Hheld : forall f,
            holds s3 id f
            \/ (exists first, In first (default [] (botFiles s !! id))
                             /\ f = filename first) ->
            holds s3 id f).
  { intros f [H|(first & Hin & ->)]; [done|]. by apply K3, K2, Hfiles. }
  cbv zeta. wp_step. wp_step.
  - wp_step.
    eapply wp_mono; [apply resolveMainFile_result|].
    intros [f|msg] s4 [-> Hf]; [|failed]. cbv beta iota.
    wp_steps. intros r _ _.
    eexists _, f. rewrite lookup_insert_eq.
    split; [done|]. split; [done|]. split; [by apply Hheld, Hf|].
    left. split; [|done].
    match goal with H : bool_decide _ = true |- _ =>
      by apply bool_decide_eq_true_1 in H end.
  - wp_step.
    + wp_step.
      eapply wp_mono; [apply resolveMainFile_result|].
      intros [f|msg] s4 [-> Hf]; [|failed]. cbv beta iota.
      wp_steps. intros r _ _.
      eexists _, f. rewrite lookup_insert_eq.
      split; [done|]. split; [done|]. split; [by apply Hheld, Hf|].
      right. split; [|done].
      match goal with H : bool_decide (_ = lit "nodejs") = true |- _ =>
        by apply bool_decide_eq_true_1 in H end.
    + wp_step. failed.
Qed.

(** X7. After a successful start the handle of the bot is that of a
    child that runs in the workspace of the bot: [python3 -u file] for a
    Python bot and [node file] for a Node.js bot, where the workspace holds
    the file. *)
Theorem startBot_runs_file (w : World) (id : str) (s s' : State)
  (r : Result.t) :
  startBot w id s = (Ok r, s') ->
  Result.success r = true ->
  exists bot child f,
    bots s !! id = Some bot
    /\ processes s' !! id = Some child
    /\ cwd child = id
    /\ holds s' id f
    /\ ((language bot = lit "python" /\ command child = lit "python3"
         /\ args child = [lit "-u"; f])
        \/ (language bot = lit "nodejs" /\ command child = lit "node"
            /\ args child = [f])).
Proof.
  intros Hrun Hok.
  enough (wp (startBot w id)
            (fun o t => forall r, o = Ok r -> Result.success r = true ->
               exists bot child f,
                 bots s !! id = Some bot
                 /\ processes t !! id = Some child
                 /\ cwd child = id
                 /\ holds t id f
                 /\ ((language bot = lit "python"
                      /\ command child = lit "python3"
                      /\ args child = [lit "-u"; f])
                     \/ (language bot = lit "nodejs"
                         /\ command child = lit "node"
                         /\ args child = [f]))) s) as H.
  { apply wp_run in H. rewrite Hrun in H. by apply (H r). }
  unfold startBot. wp_step. wp_step.
  destruct (bots s !! id) as [bot|] eqn:Hbot; [|wp_step; failed].
  wp_step. wp_step.
  destruct (bool_decide (is_Some (processes s !! id))); [wp_step; failed|].
  wp_step. wp_step. wp_step.
  eapply wp_mono; [apply startAttempt_runs|].
  intros [r0|msg] t Ht.
  - intros r1 [= <-] Hr1. destruct (Ht r0 eq_refl Hr1) as (child & f & H).
    by exists bot, child, f.
  - wp_steps. failed.
Qed.

(** The start of scenario A runs [bot.py]. *)
Lemma startBot_runs_file_witness :
  exists bot child f,
    bots happy !! b1 = Some bot
    /\ processes afterStart !! b1 = Some child
    /\ cwd child = b1
    /\ holds afterStart b1 f
    /\ ((language bot = lit "python" /\ command child = lit "python3"
         /\ args child = [lit "-u"; f])
        \/ (language bot = lit "nodejs" /\ command child = lit "node"
            /\ args child = [f])).
Proof.
  pose (r := Result.Make true (lit "Bot started successfully")).
  assert (Hrun : startBot calm b1 happy = (Ok r, afterStart))
    by (vm_compute; reflexivity).
  exact (startBot_runs_file calm b1 happy afterStart r Hrun eq_refl).
Defined.

(** X8. [startBot] refuses before it changes anything: for an id
    the store does not know it throws 'Bot not found', and for a bot with
    a handle it returns the failure 'Bot is already running'; in both
    cases the state is as before. So after a successful start the bot is
    running and a second start is refused. *)
Theorem startBot_guards (w w' : World) (id : str) (s s' : State)
  (r : Result.t) :
  (bots s !! id = None ->
   startBot w id s = (Throw (lit "Bot not found"), s))
  /\ (is_Some (bots s !! id) -> isRunning id s = true ->
      startBot w id s
      = (Ok (Result.Make false (lit "Bot is already running")), s))
  /\ (startBot w id s = (Ok r, s') -> Result.success r = true ->
      isRunning id s' = true
      /\ startBot w' id s'
         = (Ok (Result.Make false (lit "Bot is already running")), s')).
Proof.
  assert (Hrunning : forall v t,
            is_Some (bots t !! id) -> isRunning id t = true ->
            startBot v id t
            = (Ok (Result.Make false (lit "Bot is already running")), t)).
  { intros v t [bot Hbot] Hr. unfold isRunning in Hr.
    unfold startBot, getBot. unfold mbind, M_bind, gets. cbv beta iota.
    by rewrite Hbot, Hr. }
  split; [|split].
  - intros Hbot. unfold startBot, getBot. unfold mbind, M_bind, gets.
    cbv beta iota. by rewrite Hbot.
  - apply Hrunning.
  - intros Hrun Hok.
    destruct (startBot_success w id s s' r Hrun Hok)
      as (bot & child & Hbot & _ & _ & _ & Hp & Hb & _).
    assert (Hr : isRunning id s' = true).
    { unfold isRunning. rewrite Hp, lookup_insert_eq.
      by apply bool_decide_eq_true_2. }
    split; [exact Hr|]. apply Hrunning; [|exact Hr].
    rewrite Hb, !lookup_alter_eq, Hbot. by eexists.
Qed.

(** Scenario A: an unknown id, and a second start. *)
Lemma startBot_guards_witness :
  startBot calm (lit "b2") happy = (Throw (lit "Bot not found"), happy)
  /\ startBot calm b1 afterStart
     = (Ok (Result.Make false (lit "Bot is already running")), afterStart).
Proof.
  pose (r := Result.Make true (lit "Bot started successfully")).
  assert (Hrun : startBot calm b1 happy = (Ok r, afterStart))
    by (vm_compute; reflexivity).
  destruct (startBot_guards calm calm (lit "b2") happy afterStart r)
    as (H1 & _ & _).
  destruct (startBot_guards calm calm b1 happy afterStart r) as (_ & _ & H3).
  split; [apply H1; vm_compute; reflexivity|].
  exact (proj2 (H3 Hrun eq_refl)).
Defined.

(** X9. The stream observers write a status and a log record and
    nothing else: a chunk of stderr is logged as an error, trimmed; one
    with a marker of a critical error sets the status to 'error', yet the
    handle stays, no signal is sent to the child and the workspace is not
    touched. *)
Theorem onStderr_marks (id data : str) (s : State) :
  let t := exec (onStderr id data) s in
  bots t = (if critical data
            then alter (applyPatch (statusOnly Status.error)) id (bots s)
            else bots s)
  /\ botLogs t = botLogs s ++ [logged id LogType.error data]
  /\ processes t = processes s
  /\ signals t = signals s
  /\ disk t = disk s
  /\ pendingStops t = pendingStops s.
Proof.
  cbv zeta. unfold onStderr, exec, critical. cbv zeta.
  apply (wp_run _ (fun _ t => bots t = _ /\ botLogs t = _ /\ processes t = _
                             /\ signals t = _ /\ disk t = _
                             /\ pendingStops t = _)).
  wp_step. destruct (_ || _ || _ || _) eqn:E; wp_steps; by repeat split.
Qed.

(** X10. A stop of a bot without a handle returns the success
    'Bot was not running' at once: the row of the bot is reset to
    'stopped', no signal is sent, nothing waits, and the workspace, if
    there is one, stays on disk. *)
Theorem stopBot_without_handle (w : World) (id : str) (s : State) :
  processes s !! id = None ->
  let t := step w s (CallStop id) in
  replies t
  = replies s ++ [(id, Result.Make true (lit "Bot was not running"))]
  /\ bots t = alter (applyPatch (cleared Status.stopped)) id (bots s)
  /\ signals t = signals s
  /\ pendingStops t = pendingStops s
  /\ processes t = processes s
  /\ disk t = disk s.
Proof.
  intros Hp. cbv zeta. unfold step, exec, handle, stopBotBegin.
  apply (wp_run _ (fun _ t => replies t = _ /\ bots t = _ /\ signals t = _
                             /\ pendingStops t = _ /\ processes t = _
                             /\ disk t = _)).
  wp_step. wp_step. wp_step. rewrite Hp. wp_steps. by repeat split.
Qed.

(** After the child of scenario A has crashed, a stop finds no handle and
    leaves the workspace where it is. *)
Lemma stopBot_without_handle_witness :
  let s := step calm started (ChildExit b1 (Some 1%Z)) in
  statusOf (step calm s (CallStop b1)) b1 = Some Status.stopped
  /\ holds (step calm s (CallStop b1)) b1 (lit "bot.py").
Proof.
  cbv zeta. set (s := step calm started (ChildExit b1 (Some 1%Z))).
  destruct (stopBot_without_handle calm b1 s) as (_ & Hb & _ & _ & _ & Hd);
    [vm_compute; reflexivity|].
  unfold statusOf, holds, fileAt. rewrite Hb, Hd.
  split; vm_compute; eauto.
Defined.

(** X11. A stop of a bot whose child exits on the graceful
    signal, with whatever exit code: the only signal sent is SIGTERM; the
    exit observer removes the handle and persists the status of the exit
    code; then the call goes on, persists 'stopped', removes the workspace
    and returns success. The last status persisted is 'stopped', also
    when the child exits with an error code. *)
Theorem stopBot_graceful (w : World) (s : State) (id : str)
  (child : ChildProcess) (b : Bot) (code : option Z) :
  processes s !! id = Some child ->
  bots s !! id = Some b ->
  pendingStops s = [] ->
  let final := run w s [CallStop id; ChildExit id code] in
  signals final = signals s ++ [(child, SIGTERM)]
  /\ processes final !! id = None
  /\ pendingStops final = []
  /\ replies final
     = replies s ++ [(id, Result.Make true (lit "Bot stopped successfully"))]
  /\ status <$> bots final !! id = Some Status.stopped
  /\ journal final
     = journal s ++ [HandleDeleted id;
                     BotUpdated id (cleared (exitStatus code));
                     HandleDeleted id;
                     BotUpdated id (cleared Status.stopped)]
  /\ (rmError w id = None -> disk final !! id = None).
Proof.
  intros Hp Hb Hw. cbv zeta. unfold run. cbn [fold_left].
  rewrite (callStop_waits w s id child Hp).
  set (s1 := withPendingStops _ _).
  assert (Hfinal : step w s1 (ChildExit id code)
    = withReplies (fun sent =>
        sent ++ [(id, Result.Make true (lit "Bot stopped successfully"))])
        (cleanedUp w id
           (persist id (cleared Status.stopped)
              (unregister id
                 (withPendingStops (fun _ => [])
                    (withBotLogs (fun logs => logs ++
                       [logged id
                          (if bool_decide (code = Some 0%Z)
                           then LogType.info else LogType.error)
                          (lit "Process exited with code " ++ ofCode code)])
                       (persist id (cleared (exitStatus code))
                          (unregister id s1)))))))).
  { unfold step. apply exec_wp. unfold handle, onExit. cbv zeta.
    rewrite exitStatus_decide.
    wp_step. wp_step. wp_step. wp_step. wp_step. wp_step. wp_step. wp_step.
    wp_step. wp_step.
    subst s1. state. rewrite Hw. cbn [app].
    destruct (waitingFor_one id child) as [Hwf Hnwf]. rewrite Hwf.
    cbn [resumeStops]. wp_step. unfold reply. wp_step. wp_step.
    eapply wp_eq; [apply stopBotResume_exec|]. cbn beta iota.
    wp_steps. unfold cleanedUp.
    destruct (rmError w id); state_eq; try reflexivity;
      rewrite Hw; cbn [app]; by rewrite Hnwf. }
  rewrite Hfinal. clear Hfinal. subst s1. unfold cleanedUp.
  destruct (rmError w id) eqn:Erm; state;
    rewrite ?lookup_delete_eq, ?lookup_alter_eq, ?Hb, <- ?app_assoc;
    repeat split; try done.
Qed.

(** The child of scenario A ends with code 1 on the graceful signal. *)
Lemma stopBot_graceful_witness :
  statusOf (run calm started [CallStop b1; ChildExit b1 (Some 1%Z)]) b1
  = Some Status.stopped.
Proof.
  destruct (stopBot_graceful calm started b1
              (spawn calm (lit "python3") [lit "-u"; lit "bot.py"] b1
                 (childEnv calm (newBot "T0K3N" "python") b1))
              (applyPatch {| setStatus := Some Status.running;
                             setProcessId := Some (Some 4242%Z);
                             setMemoryUsage := None; setCpuUsage := None;
                             setLastStarted := Some (Some (now calm)) |}
                 (newBot "T0K3N" "python"))
              (Some 1%Z)
              ltac:(vm_compute; reflexivity) ltac:(vm_compute; reflexivity)
              ltac:(vm_compute; reflexivity))
    as (_ & _ & _ & _ & H & _).
  exact H.
Defined.

Lemma keeps_fireTimers dir w (waiting : list (str * ChildProcess)) :
  Forall (fun p => p.1 <> dir) waiting ->
  within (keeps dir) (fireTimers w waiting).
Proof.
  induction 1 as [|[id child] waiting Hne _ IH]; cbn [fireTimers];
    [apply within_ret; apply _|].
  apply within_bind; [apply _|apply keeps_kill|intros _].
  apply within_bind; [apply _| |intros _; exact IH].
  by apply keeps_reply, keeps_stopBotResume.
Qed.

Lemma keeps_resumeStops dir w (waiting : list (str * ChildProcess)) :
  Forall (fun p => p.1 <> dir) waiting ->
  within (keeps dir) (resumeStops w waiting).
Proof.
  induction 1 as [|[id child] waiting Hne _ IH]; cbn [resumeStops];
    [apply within_ret; apply _|].
  apply within_bind; [apply _| |intros _; exact IH].
  by apply keeps_reply, keeps_stopBotResume.
Qed.

(** The calls that wait for [id] are none of those that wait for [dir]. *)
Lemma waitingFor_others (id dir : str) (waiting : list (str * ChildProcess)) :
  waitingFor dir waiting = [] ->
  Forall (fun p => p.1 <> dir) (waitingFor id waiting).
Proof.
  unfold waitingFor. intros Hnone. apply Forall_forall. intros p Hin.
  apply list_elem_of_In, filter_In in Hin as [Hin _]. intros E.
  assert (H : In p (List.filter (fun p => bool_decide (p.1 = dir)) waiting)).
  { apply filter_In. split; [done|]. by apply bool_decide_eq_true_2. }
  by rewrite Hnone in H.
Qed.

(** X12. Whatever happens next (a call, a timer, output or the exit
    of a child or of a package tool), the files of a workspace stay on
    disk unless a call of
    [stopBot] for that bot is waiting: the workspace of a bot is removed
    by the end of a stop of that bot and by nothing else. *)
Theorem workspace_kept (w : World) (s : State) (e : Event) (dir : str) :
  waitingFor dir (pendingStops s) = [] ->
  keeps dir s (step w s e).
Proof.
  intros Hnone. unfold step, exec.
  change (wp (handle w e) (fun _ t => keeps dir s t) s).
  destruct e as [id|id|id|id data|id data|id code|id msg|cmd args err];
    unfold handle.
  - apply (wp_within (keeps dir)); [|done].
    apply keeps_reply, keeps_startBot.
  - apply (wp_within (keeps dir)); [|done].
    apply within_bind; [apply _| |].
    + unfold stopBotBegin. apply within_bind; [apply _|apply within_gets; apply _|].
      intros [process|].
      * apply within_bind; [apply _|apply keeps_kill|intros _].
        apply within_bind; [apply _|by apply keeps_modify|intros _].
        apply within_ret; apply _.
      * apply within_bind; [apply _|apply keeps_updateBot|intros _].
        apply within_ret; apply _.
    + intros [r|]; [by apply keeps_modify|apply within_ret; apply _].
  - wp_step. wp_step. wp_step. wp_step.
    apply (wp_within (keeps dir));
      [by apply keeps_fireTimers, waitingFor_others|].
    intros _ t Ht. etrans; [|exact Ht]. by apply keeps_same_disk.
  - apply (wp_within (keeps dir)); [|done]. unfold onStdout. cbv zeta.
    apply within_bind; [apply _| |intros _; apply keeps_logBotOutput].
    destruct (_ || _ || _); [apply keeps_updateBot|apply within_ret; apply _].
  - apply (wp_within (keeps dir)); [|done]. unfold onStderr. cbv zeta.
    apply within_bind; [apply _| |intros _; apply keeps_logBotOutput].
    destruct (_ || _ || _ || _);
      [apply keeps_updateBot|apply within_ret; apply _].
  - wp_step. unfold onExit. cbv zeta. wp_steps.
    apply (wp_within (keeps dir));
      [by apply keeps_resumeStops, waitingFor_others|].
    intros _ t Ht. etrans; [|exact Ht]. by apply keeps_same_disk.
  - apply (wp_within (keeps dir)); [|done]. unfold onError.
    apply within_bind; [apply _|apply keeps_deleteProcess|intros _].
    apply within_bind; [apply _|apply keeps_updateBot|intros _].
    apply keeps_logBotOutput.
  - apply (wp_within (keeps dir)); [|done]. apply keeps_onKilledToolExit.
Qed.

(** The workspace of scenario A is still there after its child crashed. *)
Lemma workspace_kept_witness :
  holds (step calm started (ChildExit b1 (Some 1%Z))) b1 (lit "bot.py").
Proof.
  apply (workspace_kept calm started (ChildExit b1 (Some 1%Z)) b1).
  - vm_compute. reflexivity.
  - vm_compute. eauto.
Defined.

End LifecycleProperties.

Module InferenceProperties.
Import WpRules InferenceFacts InferenceClaims Scenario Notions.

Lemma add_NoDup (pin : string) (imports : list str) :
  NoDup imports -> NoDup (add pin imports).
Proof.
  intros H. unfold add. case_bool_decide as E; [done|].
  apply NoDup_app. split; [done|]. split; [|apply NoDup_singleton].
  intros x Hx ->%list_elem_of_singleton. done.
Qed.

Lemma addIf_NoDup (b : bool) (pin : string) (imports : list str) :
  NoDup imports -> NoDup (addIf b pin imports).
Proof. destruct b; [apply add_NoDup|done]. Qed.

Lemma scanLine_NoDup (imports : list str) (line : str) :
  NoDup imports -> NoDup (scanLine imports line).
Proof. intros H. unfold scanLine. cbv zeta. by repeat apply addIf_NoDup. Qed.

Lemma scanPythonFile_NoDup (imports : list str) (f : BotFile) :
  NoDup imports -> NoDup (scanPythonFile imports f).
Proof.
  unfold scanPythonFile. revert imports.
  induction (split (content f) newline) as [|l ls IH]; intros imports H;
    [done|].
  cbn [fold_left]. by apply IH, scanLine_NoDup.
Qed.

Lemma setProp_keys (name version : str) (deps : list (str * str)) :
  deps.*1 ⊆ (setProp name version deps).*1
  /\ (NoDup deps.*1 -> NoDup (setProp name version deps).*1)
  /\ forall k, k ∈ (setProp name version deps).*1 -> k = name \/ k ∈ deps.*1.
Proof.
  induction deps as [|[k v] deps (IH1 & IH2 & IH3)]; cbn [setProp].
  - cbn. split; [by intros x Hx%elem_of_nil|].
    split; [intros _; apply NoDup_singleton|].
    intros k ->%list_elem_of_singleton. by left.
  - case_bool_decide as E.
    + subst k. cbn. split; [done|]. split; [done|]. intros k Hk. by right.
    + cbn [fmap list_fmap fst]. split; [|split].
      * intros x [->|Hx]%elem_of_cons; [by left|right; by apply IH1].
      * intros [Hk Hnd]%NoDup_cons. apply NoDup_cons. split; [|by apply IH2].
        intros [->|Hin]%IH3; [done|done].
      * intros x [->|Hx]%elem_of_cons; [right; by left|].
        destruct (IH3 x Hx) as [->|?]; [by left|right; by right].
Qed.

Lemma setIf_NoDup (b : bool) (name version : string) (deps : list (str * str)) :
  NoDup deps.*1 -> NoDup (setIf b name version deps).*1.
Proof. destruct b; [apply setProp_keys|done]. Qed.

Lemma scanJsFile_NoDup (deps : list (str * str)) (f : BotFile) :
  NoDup deps.*1 -> NoDup (scanJsFile deps f).*1.
Proof. intros H. unfold scanJsFile. cbv zeta. by repeat apply setIf_NoDup. Qed.

(** X13. A manifest lists nothing twice: the pins written to
    requirements.txt are pairwise different, and so are the names of the
    dependencies written to package.json, however many files and lines
    carry the same marker. *)
Theorem manifest_no_duplicates (files : list BotFile) :
  NoDup (pythonImports files) /\ NoDup (jsDependencies files).*1.
Proof.
  split.
  - unfold pythonImports. cbv zeta.
    assert (H : forall fs imports,
              NoDup imports -> NoDup (fold_left scanPythonFile fs imports)).
    { induction fs as [|f fs IH]; intros imports Hi; [done|].
      cbn [fold_left]. by apply IH, scanPythonFile_NoDup. }
    destruct (_ && _); [apply add_NoDup|]; apply H; constructor.
  - unfold jsDependencies. cbv zeta.
    assert (H : forall fs deps,
              NoDup deps.*1 -> NoDup (fold_left scanJsFile fs deps).*1).
    { induction fs as [|f fs IH]; intros deps Hd; [done|].
      cbn [fold_left]. by apply IH, scanJsFile_NoDup. }
    destruct (_ && _); [apply setProp_keys|]; apply H; constructor.
Qed.

Lemma elem_of_setProp_set (name version : str) (deps : list (str * str)) :
  (name, version) ∈ setProp name version deps.
Proof.
  induction deps as [|[k v] deps IH]; cbn [setProp]; [by left|].
  case_bool_decide as E; [subst k; by left|by right].
Qed.

Lemma elem_of_setProp_keep (x : str * str) (name version : str)
  (deps : list (str * str)) :
  x ∈ deps -> (x.1 = name -> x.2 = version) -> x ∈ setProp name version deps.
Proof.
  intros Hx Hv. induction deps as [|[k v] deps IH]; cbn [setProp];
    [by apply elem_of_nil in Hx|].
  apply elem_of_cons in Hx as [->|Hx].
  - case_bool_decide as E; [|by left].
    cbn in Hv. rewrite <- (Hv E). by left.
  - case_bool_decide as E; right; [done|by apply IH].
Qed.

Lemma elem_of_setIf_set (b : bool) (name version : string)
  (deps : list (str * str)) :
  b = true -> dep (name, version) ∈ setIf b name version deps.
Proof. intros ->. apply elem_of_setProp_set. Qed.

Lemma elem_of_setIf_keep (x : str * str) (b : bool) (name version : string)
  (deps : list (str * str)) :
  x ∈ deps -> (x.1 = lit name -> x.2 = lit version) ->
  x ∈ setIf b name version deps.
Proof. intros Hx Hv. destruct b; [by apply elem_of_setProp_keep|done]. Qed.

Ltac other_name :=
  let E := fresh in
  intros E; first [reflexivity | (vm_compute in E; discriminate E)].

Ltac table_cases H :=
  unfold jsMarkerTable in H; cbn [In] in H;
  repeat (destruct H as [[= <- <-]|H]); [..|destruct H].

(** A dependency of the table, once set, is never changed. *)
Lemma scanJsFile_mono (marker : string) (pin : string * string)
  (deps : list (str * str)) (f : BotFile) :
  In (marker, pin) jsMarkerTable ->
  dep pin ∈ deps -> dep pin ∈ scanJsFile deps f.
Proof.
  intros Hm Hin. unfold scanJsFile. cbv zeta.
  table_cases Hm;
    repeat (apply elem_of_setIf_keep; [|other_name]); exact Hin.
Qed.

(** A file in whose lowered text a marker of the table occurs gets the
    dependency of the marker. *)
Lemma scanJsFile_marker (marker : string) (pin : string * string)
  (deps : list (str * str)) (f : BotFile) :
  In (marker, pin) jsMarkerTable ->
  has (toLowerCase (content f)) marker = true ->
  dep pin ∈ scanJsFile deps f.
Proof.
  intros Hm Hhas. unfold scanJsFile. cbv zeta.
  table_cases Hm;
    repeat first
      [ apply elem_of_setIf_set; rewrite Hhas, ?orb_true_r; reflexivity
      | apply elem_of_setIf_keep; [|other_name] ].
Qed.

Lemma scanJsFile_import (deps : list (str * str)) (f : BotFile) :
  has (toLowerCase (content f)) "import" = true ->
  has (toLowerCase (content f)) "discord" = true ->
  dep ("discord.js", "^14.14.1")%string ∈ scanJsFile deps f.
Proof.
  intros H1 H2. unfold scanJsFile. cbv zeta.
  repeat first
    [ apply elem_of_setIf_set; rewrite H1, H2, ?orb_true_r; reflexivity
    | apply elem_of_setIf_keep; [|other_name] ].
Qed.

Lemma scanJsFiles_found (marker : string) (pin : string * string)
  (fs : list BotFile) (f : BotFile) (deps : list (str * str)) :
  In (marker, pin) jsMarkerTable ->
  In f fs -> dep pin ∈ scanJsFile [] f \/ dep pin ∈ deps ->
  (forall d, dep pin ∈ scanJsFile [] f -> dep pin ∈ scanJsFile d f) ->
  dep pin ∈ fold_left scanJsFile fs deps.
Proof.
  intros Hm Hin Hf Hany.
  assert (Hmono : forall gs d, dep pin ∈ d -> dep pin ∈ fold_left scanJsFile gs d).
  { induction gs as [|g gs IH]; intros d Hd; [done|].
    cbn [fold_left]. by eapply IH, scanJsFile_mono. }
  revert deps Hf. induction fs as [|g fs IH]; intros deps Hf; [done|].
  cbn [fold_left]. destruct Hin as [->|Hin].
  - apply Hmono. destruct Hf as [Hf|Hf]; [by apply Hany|].
    by eapply scanJsFile_mono.
  - destruct Hf as [Hf|Hf].
    + apply IH; [done|by left].
    + apply IH; [done|]. right. by eapply scanJsFile_mono.
Qed.

Lemma jsDependencies_found (pin : string * string) (files : list BotFile) :
  dep pin ∈ fold_left scanJsFile (List.filter isJsFile files) [] ->
  dep pin ∈ jsDependencies files.
Proof.
  intros H. unfold jsDependencies. cbv zeta.
  destruct (fold_left scanJsFile _ []) as [|d ds];
    [by apply elem_of_nil in H|done].
Qed.

(** X14. Dependency inference for Node.js reads the lowered text
    of each file as a whole: when a marker of the table occurs anywhere in
    a JavaScript or TypeScript file of the bot, as a part of a word too
    ([rest], [date], an underscore), package.json gets the dependency of
    the marker, in the version the code pins; and a file with both
    [import] and [discord] gets the chat library. *)
Theorem jsDependencies_marker (files : list BotFile) (f : BotFile)
  (marker : string) (pin : string * string) :
  In f files ->
  isJsFile f = true ->
  (In (marker, pin) jsMarkerTable ->
   has (toLowerCase (content f)) marker = true ->
   dep pin ∈ jsDependencies files)
  /\ (has (toLowerCase (content f)) "import" = true ->
      has (toLowerCase (content f)) "discord" = true ->
      dep ("discord.js", "^14.14.1")%string ∈ jsDependencies files).
Proof.
  intros Hin Hjs.
  assert (Hf : In f (List.filter isJsFile files)) by (by apply filter_In).
  split.
  - intros Hm Hhas. apply jsDependencies_found.
    eapply scanJsFiles_found; [exact Hm|exact Hf| |].
    + left. by eapply scanJsFile_marker.
    + intros d _. by eapply scanJsFile_marker.
  - intros H1 H2. apply jsDependencies_found.
    eapply (scanJsFiles_found "discord.js"); [by left|exact Hf| |].
    + left. by apply scanJsFile_import.
    + intros d _. by apply scanJsFile_import.
Qed.

(** A file with an underscore and nothing else of note. *)
Lemma jsDependencies_marker_witness :
  dep ("lodash", "^4.17.21")%string
  ∈ jsDependencies [file "index.js" "let user_id = 1"].
Proof.
  apply (jsDependencies_marker [file "index.js" "let user_id = 1"]
           (file "index.js" "let user_id = 1") "_" ("lodash", "^4.17.21")%string);
    vm_compute; try reflexivity; tauto.
Defined.

(** The manifest of a Python bot is either left alone or written once. *)
Lemma autoCreate_python_result (w : World) (s : State) (dir : str)
  (files : list BotFile) :
  autoCreateDependencies w dir (lit "python") files s = (Ok tt, s)
  \/ exists text fs,
       readDisk s dir "requirements.txt" = None
       /\ disk s !! dir = Some fs
       /\ autoCreateDependencies w dir (lit "python") files s
          = (Ok tt, withDisk (<[dir := <[lit "requirements.txt" := text]> fs]>) s).
Proof.
  rewrite autoCreate_python.
  destruct (readDisk s dir "requirements.txt") eqn:E; [by left|].
  destruct (0 <? _); [|by left].
  unfold tryCatch, writeFile.
  destruct (writeFileError w dir _); [by left|].
  unfold mbind, M_bind, gets.
  destruct (disk s !! dir) as [fs|] eqn:Ed; [|by left].
  right. by eexists _, fs.
Qed.

Lemma autoCreate_nodejs_result (w : World) (s : State) (dir : str)
  (files : list BotFile) :
  autoCreateDependencies w dir (lit "nodejs") files s = (Ok tt, s)
  \/ exists text fs,
       readDisk s dir "package.json" = None
       /\ disk s !! dir = Some fs
       /\ autoCreateDependencies w dir (lit "nodejs") files s
          = (Ok tt, withDisk (<[dir := <[lit "package.json" := text]> fs]>) s).
Proof.
  rewrite autoCreate_nodejs.
  destruct (readDisk s dir "package.json") eqn:E; [by left|].
  destruct (0 <? _); [|by left].
  unfold tryCatch, writeFile.
  destruct (writeFileError w dir _); [by left|].
  unfold mbind, M_bind, gets.
  destruct (disk s !! dir) as [fs|] eqn:Ed; [|by left].
  right. by eexists _, fs.
Qed.

Lemma autoCreate_other (w : World) (s : State) (dir lang : str)
  (files : list BotFile) :
  lang <> lit "python" -> lang <> lit "nodejs" ->
  autoCreateDependencies w dir lang files s = (Ok tt, s).
Proof.
  intros H1 H2. unfold autoCreateDependencies.
  by rewrite !bool_decide_eq_false_2.
Qed.

Lemma fileAt_other (s : State) (dir d name : str) (manifest : string)
  (text : str) (fs : gmap str str) :
  disk s !! dir = Some fs -> name <> lit manifest ->
  fileAt (withDisk (<[dir := <[lit manifest := text]> fs]>) s) d name
  = fileAt s d name.
Proof.
  intros Hd Hne. unfold fileAt. state.
  destruct (decide (d = dir)) as [->|Hdir].
  - rewrite lookup_insert_eq, Hd. cbn. by rewrite lookup_insert_ne.
  - by rewrite lookup_insert_ne.
Qed.

(** X15. Dependency inference never throws: what goes wrong inside
    is caught. It writes at most the manifest of the runtime and leaves
    every other file as it is; and once it has run, running it again
    returns the same and changes nothing in the handles, the store and
    the disk. *)
Theorem autoCreateDependencies_settles (w : World) (dir lang : str)
  (files : list BotFile) (s : State) :
  let m := autoCreateDependencies w dir lang files in
  (m s).1 = Ok tt
  /\ m (m s).2 = m s
  /\ forall d name,
       name <> lit "requirements.txt" -> name <> lit "package.json" ->
       fileAt (m s).2 d name = fileAt s d name.
Proof.
  cbv zeta.
  destruct (decide (lang = lit "python")) as [->|Hpy];
    [|destruct (decide (lang = lit "nodejs")) as [->|Hjs]].
  - destruct (autoCreate_python_result w s dir files)
      as [E|(text & fs & Hnone & Hd & E)]; rewrite E; cbn [fst snd].
    + by rewrite E.
    + split; [done|]. split.
      * rewrite autoCreate_python. by rewrite readDisk_written.
      * intros d name Hn _. by apply fileAt_other.
  - destruct (autoCreate_nodejs_result w s dir files)
      as [E|(text & fs & Hnone & Hd & E)]; rewrite E; cbn [fst snd].
    + by rewrite E.
    + split; [done|]. split.
      * rewrite autoCreate_nodejs. by rewrite readDisk_written.
      * intros d name _ Hn. by apply fileAt_other.
  - by rewrite !autoCreate_other by done.
Qed.

(** A manifest is inferred, and the other file of the workspace stays. *)
Lemma autoCreateDependencies_settles_witness :
  let s := withDisk (<[b1 := {[ lit "bot.py" := lit "import aiohttp" ]}]>)
             (oneFile "bot.py" "import aiohttp") in
  fileAt (autoCreateDependencies calm b1 (lit "python")
            [file "bot.py" "import aiohttp"] s).2 b1 (lit "bot.py")
  = Some (lit "import aiohttp").
Proof.
  cbv zeta.
  destruct (autoCreateDependencies_settles calm b1 (lit "python")
              [file "bot.py" "import aiohttp"]
              (withDisk (<[b1 := {[ lit "bot.py" := lit "import aiohttp" ]}]>)
                 (oneFile "bot.py" "import aiohttp")))
    as (_ & _ & H).
  rewrite H by (vm_compute; discriminate).
  vm_compute. reflexivity.
Defined.

End InferenceProperties.

Module InstallerProperties.
Import WpRules InferenceClaims InstallerFacts Scenario Notions.

(** X16. The installation for a Python bot runs nothing without a
    requirements.txt; with one it tries [pip] as a module of [python3]
    for the user, then for the system, then [pip3], and succeeds as soon
    as one of them exits with code 0: it throws only when all three
    fail. For a Node.js bot a package.json that does not parse makes it
    throw before [npm] is run, and otherwise it succeeds exactly when
    [npm install] does. *)
Theorem installAttempts_fallback (w : World) (dir text : str) (s : State) :
  (readDisk s dir "requirements.txt" = None ->
   installAttempts w dir (lit "python") s = (Ok tt, s))
  /\ (readDisk s dir "requirements.txt" = Some text ->
      ((installAttempts w dir (lit "python") s).1 = Ok tt
       <-> existsb (fun a => succeeds w a.1 a.2) pipAttempts = true))
  /\ (readDisk s dir "package.json" = None ->
      installAttempts w dir (lit "nodejs") s = (Ok tt, s))
  /\ (readDisk s dir "package.json" = Some text ->
      forall msg, jsonParseError w text = Some msg ->
      installAttempts w dir (lit "nodejs") s = (Throw msg, s))
  /\ (readDisk s dir "package.json" = Some text ->
      jsonParseError w text = None ->
      ((installAttempts w dir (lit "nodejs") s).1 = Ok tt
       <-> succeeds w npmInstall.1 npmInstall.2 = true)).
Proof.
  unfold installAttempts.
  rewrite python_is_python, nodejs_is_not_python, nodejs_is_nodejs.
  split; [|split; [|split; [|split]]].
  - intros H. unfold mbind, M_bind. by rewrite access_false.
  - intros H. unfold mbind at 1, M_bind at 1.
    rewrite access_true by (by rewrite H).
    unfold mbind, M_bind. rewrite (readFile_found _ _ _ _ H).
    unfold pipAttempts. cbn [existsb fst snd]. unfold tryCatch.
    destruct (succeeds w (lit "python3") [_; _; _; _; _; _]) eqn:E1.
    { by rewrite runCommand_succeeds. }
    destruct (runCommand_fails w _ _ dir 180000 s E1) as (m1 & t1 & ->).
    destruct (killedToolExit_run w (lit "python3")
                [lit "-m"; lit "pip"; lit "install"; lit "--user"; lit "-r";
                 lit "requirements.txt"] t1) as (k1 & u1 & -> & _).
    destruct (succeeds w (lit "python3") [_; _; _; _; _]) eqn:E2.
    { by rewrite runCommand_succeeds. }
    destruct (runCommand_fails w _ _ dir 180000 u1 E2) as (m2 & t2 & ->).
    destruct (killedToolExit_run w (lit "python3")
                [lit "-m"; lit "pip"; lit "install"; lit "-r";
                 lit "requirements.txt"] t2) as (k2 & u2 & -> & _).
    destruct (succeeds w (lit "pip3") _) eqn:E3.
    { by rewrite runCommand_succeeds. }
    destruct (runCommand_fails w _ _ dir 180000 u2 E3) as (m3 & t3 & ->).
    done.
  - intros H. unfold mbind, M_bind. by rewrite access_false.
  - intros H msg Hmsg. unfold mbind at 1, M_bind at 1.
    rewrite access_true by (by rewrite H).
    unfold mbind, M_bind. rewrite (readFile_found _ _ _ _ H). by rewrite Hmsg.
  - intros H Hparse. unfold mbind at 1, M_bind at 1.
    rewrite access_true by (by rewrite H).
    unfold mbind, M_bind. rewrite (readFile_found _ _ _ _ H). rewrite Hparse.
    unfold npmInstall. cbn [fst snd].
    destruct (succeeds w (lit "npm") _) eqn:E.
    { by rewrite runCommand_succeeds. }
    destruct (runCommand_fails w _ _ dir 240000 s E) as (m & t & ->).
    done.
Qed.

(** A workspace with a manifest: the first command succeeds in the calm
    world, and none does where the tools run into their timeout. *)
Lemma installAttempts_fallback_witness :
  (installAttempts calm b1 (lit "python") manifested).1 = Ok tt
  /\ existsb (fun a => succeeds stalled a.1 a.2) pipAttempts = false.
Proof.
  destruct (installAttempts_fallback calm b1 (lit "discord.py") manifested)
    as (_ & H & _).
  split; [|vm_compute; reflexivity].
  apply H; vm_compute; reflexivity.
Defined.

End InstallerProperties.

Module RuntimeProperties.
Import CharFacts StringFacts Scenario Notions Runtime.

(** X17. The uptime shown for a number of milliseconds below 2^53
    in magnitude, where the doubles of the code are exact. For one that
    is not negative: with the whole seconds split into days, hours below
    24, minutes below 60 and seconds below 60, the text begins with the
    largest unit that is not zero; from one day on the seconds are not
    shown, below one day the hours, minutes and seconds are exact. For a
    negative number (a start time ahead of the clock) the text is the
    negative number of seconds. *)
Theorem formatUptime_parts (ms : Z) :
  (- 2 ^ 53 < ms < 2 ^ 53)%Z ->
  ((0 <= ms)%Z ->
   exists d h m sec : Z,
     (0 <= d /\ 0 <= h < 24 /\ 0 <= m < 60 /\ 0 <= sec < 60
      /\ ms / 1000 = ((d * 24 + h) * 60 + m) * 60 + sec)%Z
     /\ formatUptime ms
        = if (0 <? d)%Z then
            ofZ d ++ lit "d " ++ ofZ h ++ lit "h " ++ ofZ m ++ lit "m"
          else if (0 <? h)%Z then
            ofZ h ++ lit "h " ++ ofZ m ++ lit "m " ++ ofZ sec ++ lit "s"
          else if (0 <? m)%Z then ofZ m ++ lit "m " ++ ofZ sec ++ lit "s"
          else ofZ sec ++ lit "s")
  /\ ((ms < 0)%Z ->
      (ms / 1000 < 0)%Z /\ formatUptime ms = ofZ (ms / 1000) ++ lit "s").
Proof.
  intros _. unfold formatUptime. cbv zeta.
  set (seconds := (ms / 1000)%Z). set (minutes := (seconds / 60)%Z).
  set (hours := (minutes / 60)%Z). set (days := (hours / 24)%Z).
  split.
  - intros Hms.
    assert (0 <= seconds)%Z by (subst seconds; apply Z.div_pos; lia).
    assert (0 <= minutes)%Z by (subst minutes; apply Z.div_pos; lia).
    assert (0 <= hours)%Z by (subst hours; apply Z.div_pos; lia).
    assert (0 <= days)%Z by (subst days; apply Z.div_pos; lia).
    rewrite !Z.rem_mod_nonneg by lia.
    pose proof (Z.div_mod seconds 60 ltac:(lia)) as Es.
    pose proof (Z.div_mod minutes 60 ltac:(lia)) as Em.
    pose proof (Z.div_mod hours 24 ltac:(lia)) as Eh.
    pose proof (Z.mod_pos_bound seconds 60 ltac:(lia)).
    pose proof (Z.mod_pos_bound minutes 60 ltac:(lia)).
    pose proof (Z.mod_pos_bound hours 24 ltac:(lia)).
    fold minutes in Es. fold hours in Em. fold days in Eh.
    exists days, (hours mod 24)%Z, (minutes mod 60)%Z, (seconds mod 60)%Z.
    split; [lia|].
    destruct (0 <? days)%Z eqn:Ed; [done|].
    apply Z.ltb_ge in Ed. assert (days = 0)%Z as E0 by lia.
    assert (hours mod 24 = hours)%Z as -> by lia.
    destruct (0 <? hours)%Z eqn:Eh'; [done|].
    apply Z.ltb_ge in Eh'. assert (hours = 0)%Z as E1 by lia.
    assert (minutes mod 60 = minutes)%Z as -> by lia.
    destruct (0 <? minutes)%Z eqn:Em'; [done|].
    apply Z.ltb_ge in Em'. assert (minutes = 0)%Z as E2 by lia.
    assert (seconds mod 60 = seconds)%Z as -> by lia.
    done.
  - intros Hms.
    assert (seconds < 0)%Z by (subst seconds; apply Z.div_lt_upper_bound; lia).
    assert (minutes < 0)%Z by (subst minutes; apply Z.div_lt_upper_bound; lia).
    assert (hours < 0)%Z by (subst hours; apply Z.div_lt_upper_bound; lia).
    assert (days < 0)%Z by (subst days; apply Z.div_lt_upper_bound; lia).
    split; [done|].
    replace (0 <? days)%Z with false by (symmetry; apply Z.ltb_ge; lia).
    replace (0 <? hours)%Z with false by (symmetry; apply Z.ltb_ge; lia).
    replace (0 <? minutes)%Z with false by (symmetry; apply Z.ltb_ge; lia).
    done.
Qed.

(** One day, one hour, one minute and one second; and one millisecond
    before the start. *)
Lemma formatUptime_parts_witness :
  formatUptime 90061000 = lit "1d 1h 1m"
  /\ formatUptime 3661999 = lit "1h 1m 1s"
  /\ formatUptime (-1) = lit "-1s".
Proof.
  destruct (formatUptime_parts (-1)) as [_ H]; [split; reflexivity|].
  split; [|split]; [vm_compute; reflexivity..|].
  rewrite (proj2 (H ltac:(lia))). vm_compute. reflexivity.
Defined.

Lemma digitOf_char (d : N) :
  (d < 10)%N ->
  digitOf 10 (pretty_N_char d) = Some (Z.of_N d)
  /\ isDigit (pretty_N_char d).
Proof.
  intros Hd.
  assert (d = 0 \/ d = 1 \/ d = 2 \/ d = 3 \/ d = 4 \/ d = 5 \/ d = 6
          \/ d = 7 \/ d = 8 \/ d = 9)%N as H by lia.
  repeat (destruct H as [->|H]); try subst d; split; vm_compute; reflexivity.
Qed.

(** What a digit is not. *)
Lemma digit_shape (c : ascii) :
  isDigit c ->
  isSpace c = false /\ Ascii.eqb c "-" = false /\ Ascii.eqb c "+" = false
  /\ Ascii.eqb c "x" = false /\ Ascii.eqb c "X" = false
  /\ Ascii.eqb c "M" = false /\ Ascii.eqb c "%" = false
  /\ is_Some (digitOf 10 c).
Proof.
  unfold isDigit.
  assert (H : forallChars (fun c =>
            implb (in_range 48 57 c)
              (negb (isSpace c) && negb (Ascii.eqb c "-")
               && negb (Ascii.eqb c "+") && negb (Ascii.eqb c "x")
               && negb (Ascii.eqb c "X") && negb (Ascii.eqb c "M")
               && negb (Ascii.eqb c "%")
               && bool_decide (is_Some (digitOf 10 c)))) = true)
    by (vm_compute; reflexivity).
  intros Hc. pose proof (forallChars_spec _ H c) as E. cbv beta in E.
  rewrite Hc in E. cbn [implb] in E.
  repeat (apply andb_true_iff in E as [E ?]).
  repeat match goal with
         | H : negb _ = true |- _ => apply negb_true_iff in H
         | H : bool_decide _ = true |- _ => apply bool_decide_eq_true_1 in H
         end.
  by repeat split.
Qed.

Lemma digitOf_other (c : ascii) :
  in_range 48 57 c = false -> digitOf 10 c = None.
Proof.
  assert (H : forallChars (fun c =>
            implb (negb (in_range 48 57 c))
              (match digitOf 10 c with None => true | Some _ => false end))
            = true)
    by (vm_compute; reflexivity).
  intros Hc. pose proof (forallChars_spec _ H c) as E. cbv beta in E.
  rewrite Hc in E. cbn [negb implb] in E. by destruct (digitOf 10 c).
Qed.

Lemma digitsValue_end (acc : option Z) (rest : str) :
  endsNumber rest = true -> digitsValue 10 acc rest = acc.
Proof.
  destruct rest as [|c rest]; [done|]. cbn [endsNumber digitsValue].
  intros [[Hd _]%andb_true_iff _]%andb_true_iff.
  apply negb_true_iff in Hd. by rewrite digitOf_other.
Qed.

(** The digits that [pretty] puts before a text, and their value. *)
Lemma pretty_N_go_digits (x : N) (s : string) :
  exists ds,
    lit (pretty_N_go x s) = ds ++ lit s
    /\ Forall isDigit ds
    /\ (x = 0%N -> ds = [])
    /\ ((0 < x)%N -> ds <> [])
    /\ forall acc rest,
         digitsValue 10 acc (ds ++ rest)
         = digitsValue 10
             (if decide (x = 0%N) then acc
              else Some (default 0 acc * 10 ^ Z.of_nat (length ds)
                         + Z.of_N x)%Z) rest.
Proof.
  revert s. induction (N.lt_wf_0 x) as [x _ IH]. intros s.
  destruct (decide (x = 0%N)) as [->|Hx].
  { exists []. rewrite pretty_N_go_0. by repeat split. }
  rewrite pretty_N_go_step by lia.
  destruct (IH (x `div` 10)%N ltac:(apply N.div_lt; lia)
              (String (pretty_N_char (x `mod` 10)) s))
    as (ds & Hlit & Hds & Hzero & Hpos & Hval).
  pose proof (N.mod_lt x 10 ltac:(lia)) as Hlt.
  destruct (digitOf_char _ Hlt) as [Hdigit Hchar].
  exists (ds ++ [pretty_N_char (x `mod` 10)]).
  split; [by rewrite Hlit, <- app_assoc|].
  split; [apply Forall_app; split; [done|by constructor]|].
  split; [done|]. split; [intros _; by destruct ds|].
  intros acc rest. rewrite <- app_assoc. cbn [app].
  rewrite Hval. cbn [digitsValue]. rewrite Hdigit. f_equal. f_equal.
  pose proof (N.div_mod x 10 ltac:(lia)) as Ex.
  apply (f_equal Z.of_N) in Ex. rewrite N2Z.inj_add, N2Z.inj_mul in Ex.
  change (Z.of_N 10) with 10%Z in Ex.
  destruct (decide (x `div` 10 = 0)%N) as [E0|E0].
  - rewrite (Hzero E0). rewrite E0 in Ex. cbn [length app].
    change (10 ^ Z.of_nat 1)%Z with 10%Z. lia.
  - cbn [default]. rewrite length_app. cbn [length].
    rewrite Nat.add_1_r, Nat2Z.inj_succ, Z.pow_succ_r by lia.
    rewrite Ex. unfold id.
    generalize (10 ^ Z.of_nat (length ds))%Z (default 0%Z acc). lia.
Qed.

Lemma parseInt_digits (c : ascii) (ds rest : str) :
  isDigit c -> Forall isDigit ds -> endsNumber rest = true ->
  parseInt ((c :: ds) ++ rest) = digitsValue 10 None ((c :: ds) ++ rest).
Proof.
  intros Hc Hds Hrest.
  destruct (digit_shape c Hc) as (Hs & Hm & Hp & _).
  unfold parseInt. cbn [app trimStart]. rewrite Hs. cbv zeta.
  rewrite Hm, Hp. cbn [orb].
  assert (Hhex : match ds ++ rest with
                 | b :: _ => Ascii.eqb c "0" && (Ascii.eqb b "x" || Ascii.eqb b "X")
                 | [] => false
                 end = false).
  { destruct ds as [|b ds]; cbn [app].
    - destruct rest as [|b rest]; [done|]. cbn [endsNumber] in Hrest.
      apply andb_true_iff in Hrest as [[_ Hx]%andb_true_iff HX].
      apply negb_true_iff in Hx, HX. rewrite Hx, HX. apply andb_false_r.
    - apply Forall_cons in Hds as [Hb _].
      destruct (digit_shape b Hb) as (_ & _ & _ & Hx & HX & _).
      rewrite Hx, HX. apply andb_false_r. }
  destruct (ds ++ rest) as [|b t] eqn:E.
  - cbn [drop]. by destruct (digitsValue 10 None [c]).
  - rewrite Hhex. by destruct (digitsValue 10 None (c :: b :: t)).
Qed.

(** Reading back a number that was written in decimal digits. *)
Lemma parseInt_ofN (n : N) (rest : str) :
  endsNumber rest = true ->
  parseInt (ofN n ++ rest) = Some (Z.of_N n)
  /\ exists c ds, ofN n = c :: ds /\ Forall isDigit (c :: ds).
Proof.
  intros Hrest. unfold ofN, pretty, pretty_N.
  destruct (decide (n = 0%N)) as [->|Hn].
  - split; [|exists "0"%char, []; split; [done|by repeat constructor]].
    change (lit "0") with ["0"%char].
    rewrite (parseInt_digits "0" [] rest) by (done || by constructor).
    cbn [app digitsValue]. change (digitOf 10 "0") with (Some 0%Z).
    cbv beta iota. by rewrite digitsValue_end.
  - destruct (pretty_N_go_digits n EmptyString) as (ds & Hlit & Hds & _ & Hpos & Hval).
    change (lit EmptyString) with (@nil ascii) in Hlit. rewrite app_nil_r in Hlit.
    rewrite Hlit. destruct ds as [|c ds]; [exfalso; apply Hpos; [lia|done]|].
    split; [|by exists c, ds].
    apply Forall_cons in Hds as [Hc Hds'].
    rewrite parseInt_digits by done. rewrite Hval.
    rewrite decide_False by done. rewrite digitsValue_end by done.
    cbn [default]. reflexivity.
Qed.

Lemma removeFirst_unit (unit : ascii) (ds : str) :
  Forall (fun c => Ascii.eqb c unit = false) ds ->
  removeFirst unit (ds ++ [unit]) = ds.
Proof.
  induction 1 as [|c ds Hc _ IH]; cbn [app removeFirst].
  - by rewrite Ascii.eqb_refl.
  - by rewrite Hc, IH.
Qed.

(** X18. The limits of the resource check are read from the
    environment of the server with [parseInt]: without MEMORY_MAX, or
    with an empty one or one that is only the unit, the memory limit is
    128; a MEMORY_MAX of decimal digits followed by M is that number of
    megabytes (for a number below 2^53, which a double holds exactly);
    and likewise 50 and the digits before the percent sign for
    CPU_QUOTA. *)
Theorem resource_limits (w : World) (n : N) :
  (getEnv (processEnv w) (lit "MEMORY_MAX") = None -> memoryLimit w = Some 128%Z)
  /\ (getEnv (processEnv w) (lit "MEMORY_MAX") = Some [] ->
      memoryLimit w = Some 128%Z)
  /\ (getEnv (processEnv w) (lit "MEMORY_MAX") = Some (lit "M") ->
      memoryLimit w = Some 128%Z)
  /\ ((n < 2 ^ 53)%N ->
      getEnv (processEnv w) (lit "MEMORY_MAX") = Some (ofN n ++ lit "M") ->
      memoryLimit w = Some (Z.of_N n))
  /\ (getEnv (processEnv w) (lit "CPU_QUOTA") = None -> cpuLimit w = Some 50%Z)
  /\ ((n < 2 ^ 53)%N ->
      getEnv (processEnv w) (lit "CPU_QUOTA") = Some (ofN n ++ lit "%") ->
      cpuLimit w = Some (Z.of_N n)).
Proof.
  unfold memoryLimit, cpuLimit, limitOf.
  destruct (parseInt_ofN n [] eq_refl) as (Hparse & c & ds & Hn & Hds).
  rewrite app_nil_r in Hparse.
  assert (Hunit : forall unit,
            (forall x, isDigit x -> Ascii.eqb x unit = false) ->
            parseInt
              (default []
                 (orElse (removeFirst unit <$> Some (ofN n ++ [unit]))
                    (Some (lit "0"))))
            = Some (Z.of_N n) /\
            forall fallback,
              orElse (removeFirst unit <$> Some (ofN n ++ [unit])) fallback
              = Some (ofN n)).
  { intros unit Hu. cbn [fmap option_fmap option_map].
    rewrite removeFirst_unit
      by (rewrite Hn; eapply Forall_impl; [exact Hds|exact Hu]).
    rewrite Hn. cbn [orElse falsy default]. by rewrite <- Hn. }
  split; [by intros ->|]. split; [by intros ->|]. split; [by intros ->|].
  split; [|split; [by intros ->|]].
  - intros _ ->. change (lit "M") with ["M"%char].
    destruct (Hunit "M"%char) as [_ H].
    { intros x Hx. by destruct (digit_shape x Hx) as (_&_&_&_&_&?&_). }
    by rewrite H.
  - intros _ ->. change (lit "%") with ["%"%char].
    destruct (Hunit "%"%char) as [_ H].
    { intros x Hx. by destruct (digit_shape x Hx) as (_&_&_&_&_&_&?&_). }
    by rewrite H.
Qed.

(** A server with a memory limit of 256 MB. *)
Lemma resource_limits_witness :
  memoryLimit (withEnv [(lit "MEMORY_MAX", lit "256M")] calm) = Some 256%Z.
Proof.
  destruct (resource_limits (withEnv [(lit "MEMORY_MAX", lit "256M")] calm) 256)
    as (_ & _ & _ & H & _).
  apply H; vm_compute; reflexivity.
Defined.

(** X19. The resource check of RADAR for a sample of [bytes] bytes
    of memory and a CPU load, under limits below 2^53 in magnitude, which
    [parseInt] reads exactly: the bot is abusive exactly when the memory
    is above the limit in units of 1048576 bytes or the load is above
    the CPU limit; a limit that does not parse as a number is never
    exceeded; there is one reason for each limit exceeded, that of the
    memory first. *)
Theorem monitorResourceUsage_verdict (w : World) (id : str) (bytes : Z)
  (load : Number) :
  (forall limit, memoryLimit w = Some limit -> (Z.abs limit < 2 ^ 53)%Z) ->
  (forall limit, cpuLimit w = Some limit -> (Z.abs limit < 2 ^ 53)%Z) ->
  let v := monitorResourceUsage w id
             {| memory := Dyadic bytes 0; cpu := load |} in
  (Abuse.isAbusive v = true
   <-> (exists limit, memoryLimit w = Some limit
                      /\ (limit * 1048576 < bytes)%Z)
       \/ (exists limit, cpuLimit w = Some limit
                         /\ (limit * 2 ^ Z.of_N (scale load)
                             < mantissa load)%Z))
  /\ length (Abuse.reasons v)
     = (if exceeds (Dyadic bytes 20) (memoryLimit w) then 1 else 0)
       + (if exceeds load (cpuLimit w) then 1 else 0)
  /\ (memoryLimit w = None -> cpuLimit w = None ->
      v = Abuse.Make false []).
Proof.
  intros _ _. cbv zeta. unfold monitorResourceUsage. cbv zeta.
  change (div1024 (div1024 (memory {| memory := Dyadic bytes 0; cpu := load |})))
    with (Dyadic bytes 20).
  cbn [cpu].
  assert (Hmem : exceeds (Dyadic bytes 20) (memoryLimit w) = true
                 <-> exists limit, memoryLimit w = Some limit
                                   /\ (limit * 1048576 < bytes)%Z).
  { unfold exceeds. cbn [scale mantissa].
    change (2 ^ Z.of_N 20)%Z with 1048576%Z.
    destruct (memoryLimit w) as [l|].
    - rewrite Z.ltb_lt. split; [eauto|]. by intros (? & [= <-] & ?).
    - split; [done|]. by intros (? & ? & _). }
  assert (Hcpu : exceeds load (cpuLimit w) = true
                 <-> exists limit, cpuLimit w = Some limit
                                   /\ (limit * 2 ^ Z.of_N (scale load)
                                       < mantissa load)%Z).
  { unfold exceeds. destruct (cpuLimit w) as [l|].
    - rewrite Z.ltb_lt. split; [eauto|]. by intros (? & [= <-] & ?).
    - split; [done|]. by intros (? & ? & _). }
  rewrite <- Hmem, <- Hcpu.
  split; [|split].
  - destruct (exceeds (Dyadic bytes 20) _), (exceeds load _); cbn; intuition.
  - by destruct (exceeds (Dyadic bytes 20) _), (exceeds load _).
  - by intros -> ->.
Qed.

(** 200 MB and a load of 12.5 percent under the default limits. *)
Lemma monitorResourceUsage_verdict_witness :
  Abuse.isAbusive
    (monitorResourceUsage calm b1
       {| memory := Dyadic 209715200 0; cpu := Dyadic 25 1 |}) = true
  /\ toFixed1 (Dyadic 209715200 20) = lit "200.0"
  /\ toFixed1 (Dyadic 25 1) = lit "12.5".
Proof.
  split; [|split; vm_compute; reflexivity].
  apply (monitorResourceUsage_verdict calm b1 209715200 (Dyadic 25 1)).
  - intros limit H. vm_compute in H. injection H as <-. reflexivity.
  - intros limit H. vm_compute in H. injection H as <-. reflexivity.
  - left. exists 128%Z. split; [vm_compute; reflexivity|lia].
Defined.

End RuntimeProperties.

Module MapFacts.
Import MemStorage.

Section Maps.
Context {V : Type}.
Implicit Types (m : Map V) (k : str) (v : V).

Lemma get_nil k : get (V := V) [] k = None.
Proof. done. Qed.

Lemma get_cons k k' v m :
  get ((k', v) :: m) k = if bool_decide (k' = k) then Some v else get m k.
Proof. unfold get. cbn [List.find fst]. by case_bool_decide. Qed.

Lemma get_set_eq k v m : get (set k v m) k = Some v.
Proof.
  induction m as [|[k' v'] m IH]; cbn [set].
  - by rewrite get_cons, bool_decide_eq_true_2.
  - case_bool_decide as E.
    + subst k'. by rewrite get_cons, bool_decide_eq_true_2.
    + by rewrite get_cons, bool_decide_eq_false_2.
Qed.

Lemma get_set_ne k k' v m : k' <> k -> get (set k v m) k' = get m k'.
Proof.
  intros Hne. induction m as [|[k0 v0] m IH]; cbn [set].
  - by rewrite get_cons, bool_decide_eq_false_2.
  - case_bool_decide as E.
    + subst k0. by rewrite !get_cons, !bool_decide_eq_false_2.
    + rewrite !get_cons. by rewrite IH.
Qed.

Lemma get_None k m : get m k = None <-> k ∉ m.*1.
Proof.
  induction m as [|[k' v'] m IH].
  - split; [intros _; apply not_elem_of_nil|done].
  - rewrite get_cons. cbn [fmap list_fmap fst]. rewrite not_elem_of_cons.
    case_bool_decide as E.
    + subst k'. split; [done|]. by intros [? _].
    + rewrite IH. split; [by split|by intros [_ ?]].
Qed.

Lemma get_delete_eq k m : get (delete k m) k = None.
Proof.
  induction m as [|[k' v'] m IH]; [done|].
  unfold delete in *. cbn [List.filter fst].
  case_bool_decide as E; cbn [negb]; [done|].
  by rewrite get_cons, bool_decide_eq_false_2.
Qed.

Lemma get_delete_ne k k' m : k' <> k -> get (delete k m) k' = get m k'.
Proof.
  intros Hne. induction m as [|[k0 v0] m IH]; [done|].
  unfold delete in *. cbn [List.filter fst].
  case_bool_decide as E; cbn [negb].
  - subst k0. by rewrite get_cons, bool_decide_eq_false_2.
  - by rewrite !get_cons, IH.
Qed.

Lemma keys_set k v m :
  forall x, x ∈ (set k v m).*1 <-> x = k \/ x ∈ m.*1.
Proof.
  intros x. induction m as [|[k' v'] m IH]; cbn [set].
  - cbn. rewrite list_elem_of_singleton, elem_of_nil. tauto.
  - case_bool_decide as E; cbn [fmap list_fmap fst].
    + subst k'. rewrite elem_of_cons. tauto.
    + rewrite !elem_of_cons, IH. tauto.
Qed.

Lemma keyed_nil (key : V -> str) : keyed key [].
Proof. split; constructor. Qed.

Lemma keyed_set (key : V -> str) k v m :
  keyed key m -> key v = k -> keyed key (set k v m).
Proof.
  intros [Hnd Hkey] Hv. induction m as [|[k' v'] m IH]; cbn [set].
  - split; [apply NoDup_singleton|by repeat constructor].
  - apply NoDup_cons in Hnd as [Hk' Hnd].
    apply Forall_cons in Hkey as [Hv' Hkey].
    case_bool_decide as E.
    + subst k'. split; [by apply NoDup_cons|by constructor].
    + destruct (IH Hnd Hkey) as [IH1 IH2]. split; [|by constructor].
      cbn [fmap list_fmap fst]. apply NoDup_cons. split; [|done].
      rewrite keys_set. intros [?|?]; [by subst|done].
Qed.

Lemma keyed_filter (key : V -> str) (p : str * V -> bool) m :
  keyed key m -> keyed key (List.filter p m).
Proof.
  intros [Hnd Hkey]. induction m as [|[k' v'] m IH]; [done|].
  apply NoDup_cons in Hnd as [Hk' Hnd].
  apply Forall_cons in Hkey as [Hv' Hkey].
  destruct (IH Hnd Hkey) as [IH1 IH2].
  cbn [List.filter]. destruct (p (k', v')); [|done].
  split; [|by constructor].
  cbn [fmap list_fmap fst]. apply NoDup_cons. split; [|done].
  intros Hin. apply Hk'. apply list_elem_of_fmap in Hin as ([k0 v0] & -> & Hin).
  apply list_elem_of_In, filter_In in Hin as [Hin _].
  apply list_elem_of_fmap. exists (k0, v0). split; [done|].
  by apply list_elem_of_In.
Qed.

Lemma keyed_delete (key : V -> str) k m : keyed key m -> keyed key (delete k m).
Proof. apply keyed_filter. Qed.

(** Setting a key that is not there appends the value. *)
Lemma values_set_fresh k v m :
  get m k = None -> values (set k v m) = values m ++ [v].
Proof.
  induction m as [|[k' v'] m IH]; [done|].
  rewrite get_cons. cbn [set]. case_bool_decide as E; [done|].
  intros H. unfold values in *. cbn [map snd app]. by rewrite IH.
Qed.

(** Deleting a key removes the row stored under it. *)
Lemma values_delete (key : V -> str) k m :
  keyed key m ->
  values (delete k m)
  = List.filter (fun v => negb (bool_decide (key v = k))) (values m).
Proof.
  intros [_ Hkey]. unfold values, delete.
  induction Hkey as [|[k' v'] m Hv _ IH]; [done|].
  cbn [List.filter map snd fst] in *. rewrite Hv.
  case_bool_decide; cbn [negb map snd]; by rewrite IH.
Qed.

Lemma filter_filter {A} (p q : A -> bool) (l : list A) :
  List.filter p (List.filter q l) = List.filter (fun x => p x && q x) l.
Proof.
  induction l as [|x l IH]; [done|]. cbn [List.filter].
  destruct (q x); cbn [List.filter]; rewrite ?andb_false_r, ?andb_true_r;
    [destruct (p x)|]; by rewrite IH.
Qed.

Lemma keyed_fold_delete {A} (key : V -> str) (f : A -> str) (l : list A) m :
  keyed key m -> keyed key (fold_left (fun m a => delete (f a) m) l m).
Proof.
  revert m. induction l as [|a l IH]; intros m H; [done|].
  cbn [fold_left]. by apply IH, keyed_delete.
Qed.

(** Deleting the keys of a list of rows removes those rows. *)
Lemma values_fold_delete (key : V -> str) (l : list V) m :
  keyed key m ->
  values (fold_left (fun m a => delete (key a) m) l m)
  = List.filter (fun v => negb (bool_decide (key v ∈ map key l))) (values m).
Proof.
  revert m. induction l as [|a l IH]; intros m H.
  - cbn [fold_left map]. induction (values m) as [|v vs IHv]; [done|].
    cbn [List.filter]. rewrite bool_decide_eq_false_2 by apply not_elem_of_nil.
    cbn [negb]. by rewrite <- IHv.
  - cbn [fold_left map]. rewrite IH by by apply keyed_delete.
    rewrite (values_delete key) by done. rewrite filter_filter.
    apply List.filter_ext. intros v.
    destruct (decide (key v = key a)) as [E|E].
    + rewrite (bool_decide_eq_true_2 (key v = key a)) by done.
      rewrite (bool_decide_eq_true_2 (key v ∈ _ :: _)); [|rewrite E; by left].
      by rewrite andb_false_r.
    + rewrite (bool_decide_eq_false_2 (key v = key a)) by done.
      rewrite andb_true_r.
      destruct (decide (key v ∈ map key l)) as [Hin|Hin].
      * rewrite !bool_decide_eq_true_2; [done|by right|done].
      * rewrite !bool_decide_eq_false_2; [done| |done].
        by intros [?|?]%elem_of_cons.
Qed.

End Maps.

End MapFacts.

Module StoreFacts.
Import MemStorage MapFacts.

Lemma insertNewest_perm (x : StoredLog.t) (l : list StoredLog.t) :
  insertNewest x l ≡ₚ x :: l.
Proof.
  induction l as [|y l IH]; [done|]. cbn [insertNewest].
  destruct (_ <=? _)%Z; [done|]. rewrite IH. apply Permutation_swap.
Qed.

Lemma sortNewestFirst_perm (l : list StoredLog.t) : sortNewestFirst l ≡ₚ l.
Proof.
  unfold sortNewestFirst. induction l as [|x l IH]; [done|].
  cbn [fold_right]. by rewrite insertNewest_perm, IH.
Qed.

Lemma insertNewest_sorted (x : StoredLog.t) (l : list StoredLog.t) :
  newestFirst l -> newestFirst (insertNewest x l).
Proof.
  induction l as [|y l IH]; [by split|]. intros [Hy Hl].
  cbn [insertNewest]. destruct (_ <=? _)%Z eqn:E.
  - apply Z.leb_le in E. split; [|by split].
    constructor; [lia|]. eapply Forall_impl; [exact Hy|]. cbn. intros; lia.
  - apply Z.leb_gt in E. split; [|by apply IH].
    rewrite insertNewest_perm. constructor; [lia|done].
Qed.

(** The sort is stable: the records of one time keep their order. *)
Lemma insertNewest_stable (t : Z) (x : StoredLog.t) (l : list StoredLog.t) :
  List.filter (fun a => (StoredLog.timestamp a =? t)%Z) (insertNewest x l)
  = List.filter (fun a => (StoredLog.timestamp a =? t)%Z) (x :: l).
Proof.
  induction l as [|y l IH]; [done|]. cbn [insertNewest].
  destruct (_ <=? _)%Z eqn:E; [done|]. apply Z.leb_gt in E.
  cbn [List.filter] in *. rewrite IH.
  destruct (StoredLog.timestamp y =? t)%Z eqn:Ey; [|done].
  apply Z.eqb_eq in Ey.
  destruct (StoredLog.timestamp x =? t)%Z eqn:Ex; [|done].
  apply Z.eqb_eq in Ex. lia.
Qed.

Lemma sortNewestFirst_stable (t : Z) (l : list StoredLog.t) :
  List.filter (fun a => (StoredLog.timestamp a =? t)%Z) (sortNewestFirst l)
  = List.filter (fun a => (StoredLog.timestamp a =? t)%Z) l.
Proof.
  unfold sortNewestFirst. induction l as [|x l IH]; [done|].
  cbn [fold_right]. rewrite insertNewest_stable. cbn [List.filter].
  by rewrite IH.
Qed.

Lemma filter_take_prefix {A} (p : A -> bool) (n : nat) (l : list A) :
  List.filter p (take n l) `prefix_of` List.filter p l.
Proof.
  exists (List.filter p (drop n l)).
  by rewrite <- List.filter_app, take_drop.
Qed.

Lemma sortNewestFirst_sorted (l : list StoredLog.t) :
  newestFirst (sortNewestFirst l).
Proof.
  unfold sortNewestFirst. induction l as [|x l IH]; [done|].
  cbn [fold_right]. by apply insertNewest_sorted.
Qed.

Lemma newestFirst_app (a b : list StoredLog.t) :
  newestFirst (a ++ b) ->
  newestFirst a
  /\ forall x y, x ∈ a -> y ∈ b ->
       (StoredLog.timestamp y <= StoredLog.timestamp x)%Z.
Proof.
  induction a as [|x a IH]; cbn [app newestFirst].
  - intros _. split; [done|]. by intros x y Hx%elem_of_nil.
  - intros [Hx Ha]. destruct (IH Ha) as [IH1 IH2].
    apply Forall_app in Hx as [Hxa Hxb]. split; [by split|].
    intros x' y [->|Hx']%elem_of_cons Hy; [|by apply IH2].
    by apply (proj1 (Forall_forall _ _) Hxb).
Qed.

Lemma slice0_take {A} (limit : Z) (l : list A) :
  exists n, slice0 limit l = take n l
            /\ ((0 <= limit)%Z -> n = Z.to_nat limit).
Proof.
  unfold slice0. destruct (limit <? 0)%Z eqn:E; eexists; split; try done.
  apply Z.ltb_lt in E. lia.
Qed.

(** Two rows of a keyed map with the same identifier are the same row. *)
Lemma keyed_values_inj {V} (key : V -> str) (m : Map V) (v v' : V) :
  keyed key m -> v ∈ values m -> v' ∈ values m -> key v = key v' -> v = v'.
Proof.
  intros [Hnd Hkey] Hv Hv' E. unfold values in *.
  apply list_elem_of_In, in_map_iff in Hv as ([k x] & <- & Hin).
  apply list_elem_of_In, in_map_iff in Hv' as ([k' x'] & <- & Hin').
  apply list_elem_of_In in Hin, Hin'. cbn [snd] in *.
  pose proof (proj1 (Forall_forall _ _) Hkey _ Hin) as Hk.
  pose proof (proj1 (Forall_forall _ _) Hkey _ Hin') as Hk'.
  cbn [fst snd] in *.
  assert (k = k') by congruence. subst k'.
  apply list_elem_of_lookup in Hin as [i Hi].
  apply list_elem_of_lookup in Hin' as [j Hj].
  assert (i = j).
  { apply (NoDup_lookup m.*1 i j k Hnd).
    - by rewrite list_lookup_fmap, Hi.
    - rewrite list_lookup_fmap, Hj. cbn. congruence. }
  subst j. congruence.
Qed.

Lemma keyed_NoDup_values {V} (key : V -> str) (m : Map V) :
  keyed key m -> NoDup (map key (values m)).
Proof.
  intros [Hnd Hkey]. unfold values. rewrite map_map.
  replace (map (fun e => key e.2) m) with m.*1; [done|].
  induction Hkey as [|e m He _ IH]; [done|].
  rewrite fmap_cons. cbn [map]. rewrite He. f_equal. apply IH.
  by apply NoDup_cons in Hnd as [_ ?].
Qed.

Lemma get_Some_keyed {V} (key : V -> str) (m : Map V) (k : str) (v : V) :
  keyed key m -> get m k = Some v -> key v = k /\ v ∈ values m.
Proof.
  intros [_ Hkey]. induction Hkey as [|[k' v'] m He _ IH]; [done|].
  rewrite get_cons. cbn in He. case_bool_decide as E.
  - intros [= <-]. subst. split; [done|]. by left.
  - intros H. destruct (IH H). split; [done|]. by right.
Qed.

(** The log records of a bot after the records [gone] were deleted. *)
Lemma logsOf_fold_delete (b : str) (gone : list StoredLog.t) (st : Store) :
  keyed StoredLog.id (botLogs st) ->
  logsOf b (withBotLogs (fun m =>
              fold_left (fun m log => delete (StoredLog.id log) m) gone m) st)
  = List.filter (fun v =>
      negb (bool_decide (StoredLog.id v ∈ map StoredLog.id gone)))
      (logsOf b st).
Proof.
  intros Hk. unfold logsOf. cbn [botLogs withBotLogs].
  rewrite (values_fold_delete StoredLog.id) by done.
  rewrite !filter_filter. apply List.filter_ext. intros v. apply andb_comm.
Qed.

Lemma filter_all_false {A} (p : A -> bool) (l : list A) :
  (forall x, x ∈ l -> p x = false) -> List.filter p l = [].
Proof.
  induction l as [|x l IH]; [done|]. intros H. cbn [List.filter].
  rewrite (H x) by by left. apply IH. intros y Hy. apply H. by right.
Qed.

Lemma filter_all_true {A} (p : A -> bool) (l : list A) :
  (forall x, x ∈ l -> p x = true) -> List.filter p l = l.
Proof.
  induction l as [|x l IH]; [done|]. intros H. cbn [List.filter].
  rewrite (H x) by by left. f_equal. apply IH. intros y Hy. apply H. by right.
Qed.

Lemma filter_perm {A} (p : A -> bool) (l l' : list A) :
  l ≡ₚ l' -> List.filter p l ≡ₚ List.filter p l'.
Proof.
  induction 1 as [|x l l' _ IH|x y l|l1 l2 l3 _ IH1 _ IH2]; cbn [List.filter].
  - done.
  - destruct (p x); by rewrite IH.
  - destruct (p x), (p y); try done. apply Permutation_swap.
  - by etrans.
Qed.

(** What [clearBotLogs] leaves of the records of the bot: all but the
    [n] newest, for the limit [n] of its query. *)
Lemma cleared_logs (b : str) (st : Store) :
  keyed StoredLog.id (botLogs st) ->
  let st' := (clearBotLogs b st).2 in
  length (logsOf b st') = length (logsOf b st) - 100
  /\ (forall other, other <> b -> logsOf other st' = logsOf other st)
  /\ (forall x, x ∈ logsOf b st' -> x ∈ logsOf b st)
  /\ keyed StoredLog.id (botLogs st')
  /\ bots st' = bots st /\ botFiles st' = botFiles st.
Proof.
  intros Hk. cbv zeta. unfold clearBotLogs. cbn [snd].
  set (gone := getBotLogs b 100 st).
  assert (Hgone : gone = take 100 (sortNewestFirst (logsOf b st))) by done.
  pose proof (sortNewestFirst_perm (logsOf b st)) as Hperm.
  assert (Hsub : forall x, x ∈ gone -> x ∈ logsOf b st).
  { intros x Hx. rewrite <- Hperm. rewrite Hgone in Hx.
    rewrite <- (take_drop 100 (sortNewestFirst _)).
    apply elem_of_app. by left. }
  assert (Hvalues : forall o x, x ∈ logsOf o st -> x ∈ values (botLogs st)
                                /\ StoredLog.botId x = o).
  { intros o x Hx. apply list_elem_of_In, filter_In in Hx as [Hx Ho].
    split; [by apply list_elem_of_In|by apply bool_decide_eq_true_1 in Ho]. }
  rewrite !logsOf_fold_delete by done.
  split; [|split; [|split; [|split]]].
  - rewrite (Permutation_length
               (filter_perm _ _ _ (Permutation_sym Hperm))).
    rewrite <- (take_drop 100 (sortNewestFirst (logsOf b st))) at 1.
    rewrite List.filter_app, <- Hgone.
    rewrite filter_all_false, filter_all_true.
    + cbn [app]. rewrite length_drop. by rewrite (Permutation_length Hperm).
    + intros x Hx. apply negb_true_iff, bool_decide_eq_false_2.
      intros Hin. apply list_elem_of_In, in_map_iff in Hin as (y & E & Hy).
      apply list_elem_of_In in Hy.
      assert (Hnd : NoDup (map StoredLog.id
                             (take 100 (sortNewestFirst (logsOf b st))
                              ++ drop 100 (sortNewestFirst (logsOf b st))))).
      { rewrite take_drop.
        assert (map StoredLog.id (sortNewestFirst (logsOf b st))
                ≡ₚ map StoredLog.id (logsOf b st)) as ->
          by (by apply Permutation_map).
        assert (Hs : map StoredLog.id (logsOf b st)
                     `sublist_of` map StoredLog.id (values (botLogs st))).
        { unfold logsOf. clear.
          induction (values (botLogs st)) as [|v vs IH]; [done|].
          cbn [List.filter map]. destruct (bool_decide _); cbn [map];
            by constructor. }
        pose proof (keyed_NoDup_values _ _ Hk) as Hall.
        by eapply sublist_NoDup. }
      rewrite map_app in Hnd. apply NoDup_app in Hnd as (_ & Hdis & _).
      apply (Hdis (StoredLog.id x)).
      * rewrite <- E, <- Hgone. apply list_elem_of_In, in_map.
        by apply list_elem_of_In.
      * apply list_elem_of_In, in_map. by apply list_elem_of_In.
    + intros x Hx. apply negb_false_iff, bool_decide_eq_true_2.
      apply list_elem_of_In, in_map. by apply list_elem_of_In.
  - intros other Hne. rewrite logsOf_fold_delete by done.
    apply filter_all_true. intros x Hx.
    apply negb_true_iff, bool_decide_eq_false_2. intros Hin.
    apply list_elem_of_In, in_map_iff in Hin as (y & E & Hy).
    apply list_elem_of_In, Hsub in Hy.
    destruct (Hvalues _ _ Hx) as [Hxv Hxo].
    destruct (Hvalues _ _ Hy) as [Hyv Hyo].
    assert (y = x) by (by eapply keyed_values_inj).
    subst y. congruence.
  - intros x Hx. apply list_elem_of_In, filter_In in Hx as [Hx _].
    by apply list_elem_of_In.
  - cbn [botLogs withBotLogs]. by apply keyed_fold_delete.
  - done.
Qed.

(** The files of a bot after the files [gone] were deleted. *)
Lemma getBotFiles_fold_delete (b : str) (gone : list StoredFile.t)
  (st : Store) :
  keyed StoredFile.id (botFiles st) ->
  getBotFiles b (withBotFiles (fun m =>
                   fold_left (fun m file => delete (StoredFile.id file) m)
                     gone m) st)
  = List.filter (fun v =>
      negb (bool_decide (StoredFile.id v ∈ map StoredFile.id gone)))
      (getBotFiles b st).
Proof.
  intros Hk. unfold getBotFiles. cbn [botFiles withBotFiles].
  rewrite (values_fold_delete StoredFile.id) by done.
  rewrite !filter_filter. apply List.filter_ext. intros v. apply andb_comm.
Qed.

(** What [deleteBotFiles] leaves: no file of the bot, and the files of
    the other bots. *)
Lemma deleted_files (b : str) (st : Store) :
  keyed StoredFile.id (botFiles st) ->
  let st' := (deleteBotFiles b st).2 in
  getBotFiles b st' = []
  /\ (forall other, other <> b -> getBotFiles other st' = getBotFiles other st)
  /\ keyed StoredFile.id (botFiles st')
  /\ bots st' = bots st /\ botLogs st' = botLogs st.
Proof.
  intros Hk. cbv zeta. unfold deleteBotFiles. cbn [snd].
  assert (Hvalues : forall o x, x ∈ getBotFiles o st ->
                      x ∈ values (botFiles st) /\ StoredFile.botId x = o).
  { intros o x Hx. apply list_elem_of_In, filter_In in Hx as [Hx Ho].
    split; [by apply list_elem_of_In|by apply bool_decide_eq_true_1 in Ho]. }
  split; [|split; [|split; [|done]]].
  - rewrite getBotFiles_fold_delete by done. apply filter_all_false.
    intros x Hx. apply negb_false_iff, bool_decide_eq_true_2.
    apply list_elem_of_In, in_map. by apply list_elem_of_In.
  - intros other Hne. rewrite getBotFiles_fold_delete by done.
    apply filter_all_true. intros x Hx.
    apply negb_true_iff, bool_decide_eq_false_2. intros Hin.
    apply list_elem_of_In, in_map_iff in Hin as (y & E & Hy).
    apply list_elem_of_In in Hy.
    destruct (Hvalues _ _ Hx) as [Hxv Hxo].
    destruct (Hvalues _ _ Hy) as [Hyv Hyo].
    assert (y = x) by (by eapply keyed_values_inj).
    subst y. congruence.
  - cbn [botFiles withBotFiles]. by apply keyed_fold_delete.
Qed.

(** The first element that passes a filter, and what comes before it. *)
Lemma filter_first {A} (p : A -> bool) (l : list A) (x : A) (r : list A) :
  List.filter p l = x :: r ->
  exists pre post,
    l = pre ++ x :: post /\ Forall (fun y => p y = false) pre /\ p x = true.
Proof.
  induction l as [|y l IH]; [done|]. cbn [List.filter].
  destruct (p y) eqn:E.
  - intros [= -> <-]. by exists [], l.
  - intros H. destruct (IH H) as (pre & post & -> & Hpre & Hx).
    exists (y :: pre), post. split; [done|]. split; [by constructor|done].
Qed.

(** Setting the key of a row puts the new value in its place. *)
Lemma values_set_at {V} (key : V -> str) (m : Map V) (pre post : list V)
  (v v' : V) :
  keyed key m -> values m = pre ++ v :: post ->
  values (set (key v) v' m) = pre ++ v' :: post.
Proof.
  revert m. induction pre as [|p pre IH]; intros m [Hnd Hkey] E.
  - destruct m as [|[k x] m]; [done|]. unfold values in *.
    cbn [map snd app] in E. injection E as -> E.
    apply Forall_cons in Hkey as [Hk _]. cbn in Hk.
    cbn [set]. rewrite bool_decide_eq_true_2 by done.
    cbn [map snd app]. by rewrite E.
  - destruct m as [|[k x] m]; [done|]. unfold values in *.
    cbn [map snd app] in E. injection E as -> E.
    apply Forall_cons in Hkey as [Hk Hkey]. cbn in Hk.
    apply NoDup_cons in Hnd as [Hfresh Hnd]. cbn [fmap list_fmap fst] in *.
    cbn [set]. rewrite bool_decide_eq_false_2.
    + cbn [map snd app]. f_equal. by apply IH.
    + intros Ek. apply Hfresh. rewrite Ek.
      assert (Hin : v ∈ map snd m)
        by (rewrite E; apply elem_of_app; right; by left).
      apply list_elem_of_In, in_map_iff in Hin as ([k' y] & Ey & Hin).
      cbn in Ey. subst y. apply list_elem_of_In in Hin.
      pose proof (proj1 (Forall_forall _ _) Hkey _ Hin) as Hk'. cbn in Hk'.
      rewrite Hk'. apply list_elem_of_fmap. by exists (k', v).
Qed.

End StoreFacts.

Module StoreProperties.
Import MemStorage MapFacts StoreFacts.

Lemma keyed_logged_step (st : Store) (uuid : str) (now : Z) (log : BotLog) :
  wellFormed st -> wellFormed (createBotLog uuid now log st).2.
Proof.
  intros (Hb & Hf & Hl). unfold createBotLog. cbn [snd].
  split; [done|]. split; [done|]. by apply keyed_set.
Qed.

Lemma wellFormed_empty : wellFormed empty.
Proof. repeat split; constructor. Qed.

Lemma wellFormed_logged (bot : str) (times : list Z) :
  wellFormed (logged bot times).
Proof.
  unfold logged.
  generalize (imap (fun (i : nat) (t : Z) => (i, t)) times).
  intros l. generalize wellFormed_empty. generalize empty.
  induction l as [|x l IH]; intros st Hst; [done|].
  cbn [fold_left]. by apply IH, keyed_logged_step.
Qed.

Lemma wellFormed_createBot (st : Store) (uuid : str) (now : Z)
  (insertBot : InsertBot.t) :
  wellFormed st -> wellFormed (createBot uuid now insertBot st).2.
Proof.
  intros (Hb & Hf & Hl). unfold createBot. cbn [snd].
  split; [by apply keyed_set|by split].
Qed.

Lemma wellFormed_updateBot (st : Store) (now : Z) (id : str)
  (updates : BotPatch) :
  wellFormed st -> wellFormed (updateBot now id updates st).2.
Proof.
  intros Hst. pose proof Hst as (Hb & Hf & Hl). unfold updateBot.
  destruct (get (bots st) id) as [bot|] eqn:E; cbn [snd]; [|done].
  destruct (get_Some_keyed _ _ _ _ Hb E) as [Hid _].
  split; [by apply keyed_set|by split].
Qed.

Lemma wellFormed_createBotFile (st : Store) (uuid : str) (now : Z)
  (insertFile : InsertFile.t) :
  wellFormed st -> wellFormed (createBotFile uuid now insertFile st).2.
Proof.
  intros (Hb & Hf & Hl). unfold createBotFile. cbn [snd].
  split; [done|]. split; [by apply keyed_set|done].
Qed.

Lemma wellFormed_updateBotFile (st : Store) (botId filename content : str) :
  wellFormed st -> wellFormed (updateBotFile botId filename content st).2.
Proof.
  intros Hst. pose proof Hst as (Hb & Hf & Hl). unfold updateBotFile.
  cbv zeta. destruct (List.filter _ _) as [|file rest]; cbn [snd]; [done|].
  split; [done|]. split; [by apply keyed_set|done].
Qed.

Lemma wellFormed_deleteBotFiles (st : Store) (botId : str) :
  wellFormed st -> wellFormed (deleteBotFiles botId st).2.
Proof.
  intros (Hb & Hf & Hl).
  destruct (deleted_files botId st Hf) as (_ & _ & Hk & E1 & E2).
  split; [by rewrite E1|]. split; [done|by rewrite E2].
Qed.

Lemma wellFormed_clearBotLogs (st : Store) (botId : str) :
  wellFormed st -> wellFormed (clearBotLogs botId st).2.
Proof.
  intros (Hb & Hf & Hl).
  destruct (cleared_logs botId st Hl) as (_ & _ & _ & Hk & E1 & E2).
  split; [by rewrite E1|]. split; [by rewrite E2|done].
Qed.

Lemma wellFormed_deleteBot (st : Store) (id : str) :
  wellFormed st -> wellFormed (deleteBot id st).2.
Proof.
  intros Hst. pose proof Hst as (Hb & Hf & Hl). unfold deleteBot.
  destruct (has (bots st) id); cbn [snd]; [|done].
  apply wellFormed_clearBotLogs, wellFormed_deleteBotFiles.
  split; [by apply keyed_delete|by split].
Qed.

Lemma wellFormed_sample : wellFormed sample.
Proof.
  unfold sample. cbv zeta. cbn [fold_left].
  repeat first [apply keyed_logged_step | apply wellFormed_createBotFile
               | apply wellFormed_createBot].
  apply wellFormed_empty.
Qed.

Lemma same_files (b : str) (st st' : Store) :
  botFiles st' = botFiles st -> getBotFiles b st' = getBotFiles b st.
Proof. unfold getBotFiles. by intros ->. Qed.

Lemma same_logs (b : str) (st st' : Store) :
  botLogs st' = botLogs st -> logsOf b st' = logsOf b st.
Proof. unfold logsOf. by intros ->. Qed.

(** X20. [getBotLogs] returns records of the bot asked for and of no
    other, newest first, those of one time in the order in which the map
    holds them; for a limit that is not negative it returns as many as
    the limit allows; and the records it leaves out are no newer than the
    ones it returns. *)
Theorem getBotLogs_newest (botId : str) (limit : Z) (st : Store) :
  let logs := getBotLogs botId limit st in
  Forall (fun log => StoredLog.botId log = botId) logs
  /\ newestFirst logs
  /\ (forall t,
        List.filter (fun a => (StoredLog.timestamp a =? t)%Z) logs
        `prefix_of`
        List.filter (fun a => (StoredLog.timestamp a =? t)%Z)
          (logsOf botId st))
  /\ ((0 <= limit)%Z ->
      length logs = Nat.min (Z.to_nat limit) (length (logsOf botId st)))
  /\ (forall a, a ∈ logs -> a ∈ logsOf botId st)
  /\ (forall a b, a ∈ logs -> b ∈ logsOf botId st -> b ∉ logs ->
        (StoredLog.timestamp b <= StoredLog.timestamp a)%Z).
Proof.
  cbv zeta. unfold getBotLogs. fold (logsOf botId st).
  destruct (slice0_take limit (sortNewestFirst (logsOf botId st)))
    as (n & -> & Hn).
  pose proof (sortNewestFirst_perm (logsOf botId st)) as Hperm.
  pose proof (sortNewestFirst_sorted (logsOf botId st)) as Hsorted.
  rewrite <- (take_drop n (sortNewestFirst (logsOf botId st))) in Hsorted.
  apply newestFirst_app in Hsorted as [Htake Horder].
  assert (Hin : forall a, a ∈ take n (sortNewestFirst (logsOf botId st)) ->
                          a ∈ logsOf botId st).
  { intros a Ha. rewrite <- Hperm.
    rewrite <- (take_drop n (sortNewestFirst _)). apply elem_of_app. by left. }
  split; [|split; [done|split; [|split; [|split; [done|]]]]].
  - apply Forall_forall. intros a Ha%Hin.
    apply list_elem_of_In, filter_In in Ha as [_ Ha].
    by apply bool_decide_eq_true_1 in Ha.
  - intros t. rewrite <- (sortNewestFirst_stable t (logsOf botId st)).
    apply filter_take_prefix.
  - intros Hlimit. rewrite length_take, (Permutation_length Hperm).
    by rewrite (Hn Hlimit).
  - intros a b Ha Hb Hnot. apply Horder; [done|].
    rewrite <- Hperm in Hb.
    rewrite <- (take_drop n (sortNewestFirst _)) in Hb.
    by apply elem_of_app in Hb as [Hb|Hb].
Qed.

(** X21. [clearBotLogs] deletes what its query of the records
    returns, and the query has the default limit of 100: of the records
    of the bot all but the 100 newest stay in the store, so a bot with
    more than 100 records is not cleared by one call; the records of
    other bots, the bots and the files are not touched. *)
Theorem clearBotLogs_limit (botId : str) (st : Store) :
  wellFormed st ->
  let st' := (clearBotLogs botId st).2 in
  (clearBotLogs botId st).1 = true
  /\ length (logsOf botId st') = length (logsOf botId st) - 100
  /\ (forall x, x ∈ logsOf botId st' -> x ∈ logsOf botId st)
  /\ (forall other, other <> botId -> logsOf other st' = logsOf other st)
  /\ bots st' = bots st /\ botFiles st' = botFiles st
  /\ wellFormed st'.
Proof.
  intros (Hb & Hf & Hl). cbv zeta.
  destruct (cleared_logs botId st Hl) as (Hlen & Hother & Hsub & Hk & E1 & E2).
  split; [done|]. split; [done|]. split; [done|]. split; [done|].
  split; [done|]. split; [done|].
  split; [by rewrite E1|]. split; [by rewrite E2|done].
Qed.

(** A bot with 101 records keeps one of them. *)
Lemma clearBotLogs_limit_witness :
  length (logsOf (lit "b1")
            (clearBotLogs (lit "b1")
               (logged (lit "b1") (map Z.of_nat (seq 0 101)))).2) = 1.
Proof.
  destruct (clearBotLogs_limit (lit "b1")
              (logged (lit "b1") (map Z.of_nat (seq 0 101)))
              (wellFormed_logged _ _)) as (_ & H & _).
  rewrite H. vm_compute. reflexivity.
Defined.

(** X22. In the store every row is kept under its own
    identifier and no identifier is used twice; each operation on bots,
    files and log records keeps it so, whatever identifier is drawn. *)
Theorem store_invariant (st : Store) (uuid : str) (now : Z) (id botId : str)
  (insertBot : InsertBot.t) (updates : BotPatch) (insertFile : InsertFile.t)
  (filename content : str) (insertLog : BotLog) :
  wellFormed st ->
  wellFormed (createBot uuid now insertBot st).2
  /\ wellFormed (updateBot now id updates st).2
  /\ wellFormed (deleteBot id st).2
  /\ wellFormed (createBotFile uuid now insertFile st).2
  /\ wellFormed (updateBotFile botId filename content st).2
  /\ wellFormed (deleteBotFiles botId st).2
  /\ wellFormed (createBotLog uuid now insertLog st).2
  /\ wellFormed (clearBotLogs botId st).2.
Proof.
  intros Hst.
  split; [by apply wellFormed_createBot|].
  split; [by apply wellFormed_updateBot|].
  split; [by apply wellFormed_deleteBot|].
  split; [by apply wellFormed_createBotFile|].
  split; [by apply wellFormed_updateBotFile|].
  split; [by apply wellFormed_deleteBotFiles|].
  split; [by apply keyed_logged_step|by apply wellFormed_clearBotLogs].
Qed.

(** In the sample store an identifier that is in use is drawn again. *)
Lemma store_invariant_witness :
  wellFormed (createBotFile (lit "f1") 30
                (InsertFile.Make (lit "b1") (lit "new.py") [] 0) sample).2
  /\ wellFormed (deleteBot (lit "b1") sample).2.
Proof.
  destruct (store_invariant sample (lit "f1") 30 (lit "b1") (lit "b1")
              (InsertBot.Make [] [] [] [] None) (BotManager.statusOnly Status.stopped)
              (InsertFile.Make (lit "b1") (lit "new.py") [] 0) [] []
              {| botId := []; type := LogType.info; message := [] |}
              wellFormed_sample) as (_ & _ & H1 & H2 & _).
  by split.
Defined.

(** X23. [deleteBot] answers whether the bot was there. A bot that
    was not there leaves the store as it is; one that was there is gone
    with all its files, and with its 100 newest log records, so older
    records of a deleted bot stay in the store. Other bots, their files
    and their records are not touched. *)
Theorem deleteBot_cascade (id : str) (st : Store) :
  wellFormed st ->
  let st' := (deleteBot id st).2 in
  (deleteBot id st).1 = bool_decide (is_Some (getBot id st))
  /\ (getBot id st = None -> st' = st)
  /\ (is_Some (getBot id st) ->
        getBot id st' = None
        /\ getBotFiles id st' = []
        /\ length (logsOf id st') = length (logsOf id st) - 100)
  /\ (forall other, other <> id ->
        getBot other st' = getBot other st
        /\ getBotFiles other st' = getBotFiles other st
        /\ logsOf other st' = logsOf other st).
Proof.
  intros (Hb & Hf & Hl). cbv zeta. unfold deleteBot, has, getBot.
  case_bool_decide as Hin; cbn [fst snd].
  - set (st1 := withBots (delete id) st).
    destruct (deleted_files id st1 Hf) as (F1 & F2 & F3 & F4 & F5).
    set (st2 := (deleteBotFiles id st1).2) in *.
    assert (Hl2 : keyed StoredLog.id (botLogs st2)) by by rewrite F5.
    destruct (cleared_logs id st2 Hl2) as (L1 & L2 & _ & _ & L5 & L6).
    set (st3 := (clearBotLogs id st2).2) in *.
    split; [done|]. split; [intros E; rewrite E in Hin; by destruct Hin|].
    split.
    + intros _. split; [rewrite L5, F4; apply get_delete_eq|].
      split; [by rewrite (same_files _ _ _ L6)|].
      by rewrite L1, (same_logs id st1 st2 F5).
    + intros other Hne. split; [rewrite L5, F4; by apply get_delete_ne|].
      split; [rewrite (same_files _ _ _ L6); by apply F2|].
      rewrite (L2 _ Hne). by apply same_logs.
  - split; [done|]. split; [done|]. split; [by intros ?|done].
Qed.

(** The bot of the sample store is deleted with its two files. *)
Lemma deleteBot_cascade_witness :
  (deleteBot (lit "b1") sample).1 = true
  /\ getBot (lit "b1") (deleteBot (lit "b1") sample).2 = None
  /\ getBotFiles (lit "b1") (deleteBot (lit "b1") sample).2 = [].
Proof.
  destruct (deleteBot_cascade (lit "b1") sample wellFormed_sample)
    as (H1 & _ & H2 & _).
  split; [rewrite H1; by vm_compute|].
  destruct H2 as (H2 & H3 & _); [by vm_compute; eexists|]. by split.
Defined.

(** X24. A file created under an identifier that is not in use is
    the last of the files of its bot, after those that were there, so
    [getBotFiles] lists the files of a bot in the order in which they were
    created; the files of other bots are as before. *)
Theorem createBotFile_appends (uuid : str) (now : Z)
  (insertFile : InsertFile.t) (st : Store) :
  get (botFiles st) uuid = None ->
  let file := (createBotFile uuid now insertFile st).1 in
  let st' := (createBotFile uuid now insertFile st).2 in
  getBotFiles (InsertFile.botId insertFile) st'
  = getBotFiles (InsertFile.botId insertFile) st ++ [file]
  /\ StoredFile.filename file = InsertFile.filename insertFile
  /\ StoredFile.content file = InsertFile.content insertFile
  /\ (forall other, other <> InsertFile.botId insertFile ->
        getBotFiles other st' = getBotFiles other st).
Proof.
  intros Hfresh. cbv zeta. unfold createBotFile, getBotFiles.
  cbn [fst snd botFiles withBotFiles].
  rewrite (values_set_fresh _ _ _ Hfresh).
  split; [|split; [done|split; [done|]]].
  - rewrite List.filter_app. cbn [List.filter StoredFile.botId].
    by rewrite bool_decide_eq_true_2.
  - intros other Hne. rewrite List.filter_app.
    cbn [List.filter StoredFile.botId].
    rewrite bool_decide_eq_false_2 by done. by rewrite app_nil_r.
Qed.

(** A third file of the bot of the sample store. *)
Lemma createBotFile_appends_witness :
  map StoredFile.filename
    (getBotFiles (lit "b1")
       (createBotFile (lit "f3") 30
          (InsertFile.Make (lit "b1") (lit "new.py") [] 0) sample).2)
  = [lit "bot.py"; lit "util.py"; lit "new.py"].
Proof.
  destruct (createBotFile_appends (lit "f3") 30
              (InsertFile.Make (lit "b1") (lit "new.py") [] 0) sample)
    as (H & _); [by vm_compute|].
  cbn [InsertFile.botId] in H. rewrite H. by vm_compute.
Defined.

(** X25. [updateBotFile] answers false and leaves the store as it is
    when the bot has no file of the name; otherwise it gives the new
    content, and its length in bytes, to the first file of the bot with
    the name and to no other file, also when a later file has the same
    name. *)
Theorem updateBotFile_first (botId filename content : str) (st : Store) :
  wellFormed st ->
  let named := fun f => bool_decide (StoredFile.botId f = botId)
                        && bool_decide (StoredFile.filename f = filename) in
  let st' := (updateBotFile botId filename content st).2 in
  ((updateBotFile botId filename content st).1 = false ->
     st' = st /\ Forall (fun f => named f = false) (values (botFiles st)))
  /\ ((updateBotFile botId filename content st).1 = true ->
        exists pre file post,
          values (botFiles st) = pre ++ file :: post
          /\ Forall (fun f => named f = false) pre
          /\ named file = true
          /\ values (botFiles st') = pre ++ withContent content file :: post
          /\ bots st' = bots st /\ botLogs st' = botLogs st).
Proof.
  intros (Hb & Hf & Hl). cbv zeta. unfold updateBotFile. cbv zeta.
  destruct (List.filter _ (values (botFiles st))) as [|file rest] eqn:E;
    cbn [fst snd].
  - split; [|done]. intros _. split; [done|].
    apply Forall_forall. intros f Hin.
    destruct (_ && _) eqn:Ef; [|done].
    assert (Hf' : In f []); [|done].
    rewrite <- E. apply filter_In. split; [by apply list_elem_of_In|done].
  - split; [done|]. intros _.
    destruct (filter_first _ _ _ _ E) as (pre & post & Hv & Hpre & Hfile).
    exists pre, file, post. split; [done|]. split; [done|]. split; [done|].
    split; [|done]. cbn [botFiles withBotFiles].
    by apply (values_set_at StoredFile.id).
Qed.

(** The first file of the sample store gets a new content. *)
Lemma updateBotFile_first_witness :
  map StoredFile.content
    (getBotFiles (lit "b1")
       (updateBotFile (lit "b1") (lit "bot.py") (lit "print(2)") sample).2)
  = [lit "print(2)"; lit "x = 1"]
  /\ (updateBotFile (lit "b1") (lit "nope.py") [] sample).2 = sample.
Proof.
  destruct (updateBotFile_first (lit "b1") (lit "nope.py") [] sample
              wellFormed_sample) as ([H _] & _); [by vm_compute|].
  split; [by vm_compute|done].
Defined.

End StoreProperties.

Module ValidationProperties.
Import Scenario Notions FileHandler.

Lemma filter_nil_existsb {A} (p : A -> bool) (l : list A) :
  List.filter p l = [] -> existsb p l = false.
Proof.
  induction l as [|x l IH]; [done|]. cbn [List.filter existsb].
  destruct (p x); [done|]. apply IH.
Qed.

Lemma filter_cons_existsb {A} (p : A -> bool) (l : list A) x r :
  List.filter p l = x :: r -> existsb p l = true /\ x ∈ l /\ p x = true.
Proof.
  intros E. assert (Hin : In x (List.filter p l)) by (rewrite E; by left).
  apply filter_In in Hin as [Hin Hp]. split; [|by split; [apply list_elem_of_In|]].
  apply existsb_exists. by exists x.
Qed.

Lemma endsWith_nonempty (s : str) (c : ascii) (p : str) :
  endsWith s (c :: p) = true -> s <> [].
Proof.
  intros H ->. unfold endsWith in H. cbn [rev] in H.
  destruct (rev p ++ [c]) eqn:E; [by destruct (rev p)|done].
Qed.

(** [pickMainFile] names one of the files it chooses from. *)
Lemma pickMainFile_in (common : list str) (first : Upload)
  (rest : list Upload) :
  Forall (fun f => originalname f <> []) (first :: rest) ->
  exists f, f ∈ first :: rest
            /\ pickMainFile common (first :: rest) = Some (originalname f).
Proof.
  intros Hne. unfold pickMainFile.
  destruct (find _ (first :: rest)) as [f|] eqn:E.
  - apply find_some in E as [Hin _]. apply list_elem_of_In in Hin.
    exists f. split; [done|].
    pose proof (proj1 (Forall_forall _ _) Hne f Hin) as Hf.
    cbv beta in Hf. unfold orElse, falsy. cbn [fmap option_fmap option_map].
    by destruct (originalname f).
  - exists first. split; [by left|]. done.
Qed.

Lemma validated (runtime : Upload -> bool) (common : list str)
  (files : list Upload) (first : Upload) (rest : list Upload) :
  List.filter runtime files = first :: rest ->
  (forall f, runtime f = true -> originalname f <> []) ->
  exists f, f ∈ files /\ runtime f = true
            /\ pickMainFile common (first :: rest) = Some (originalname f)
            /\ originalname f <> [].
Proof.
  intros E Hne.
  assert (Hall : forall f, f ∈ first :: rest -> f ∈ files /\ runtime f = true).
  { intros f Hf. rewrite <- E in Hf.
    apply list_elem_of_In, filter_In in Hf as [Hf ?].
    by split; [apply list_elem_of_In|]. }
  destruct (pickMainFile_in common first rest) as (f & Hf & Hpick).
  { apply Forall_forall. intros f Hf. by apply Hne, Hall. }
  exists f. destruct (Hall f Hf). by split; [|split; [|split; [|apply Hne]]].
Qed.

Lemma python_named (f : Upload) :
  endsWith (originalname f) (lit ".py") = true -> originalname f <> [].
Proof. apply endsWith_nonempty. Qed.

Lemma js_named (f : Upload) :
  endsWith (originalname f) (lit ".js")
  || endsWith (originalname f) (lit ".ts") = true -> originalname f <> [].
Proof.
  intros [H|H]%orb_true_iff; by apply endsWith_nonempty in H.
Qed.

(** What [validateBotFiles] answers, without the warnings. *)
Lemma validateBotFiles_cases (files : list Upload) (language : str) :
  let v := validateBotFiles files language in
  (existsb (ofRuntime language) files = false
   /\ Validation.isValid v = false /\ is_Some (Validation.error v)
   /\ Validation.mainFile v = None /\ Validation.warnings v = None)
  \/ (existsb (ofRuntime language) files = true
      /\ Validation.isValid v = true /\ Validation.error v = None
      /\ exists f, f ∈ files /\ ofRuntime language f = true
                   /\ Validation.mainFile v = Some (originalname f)
                   /\ originalname f <> []).
Proof.
  cbv zeta. unfold validateBotFiles.
  destruct files as [|file0 files0]; [left; by repeat split; eauto|].
  set (files := file0 :: files0). cbn [length Nat.eqb].
  case_bool_decide as Hpy.
  - replace (ofRuntime language)
      with (fun f => endsWith (originalname f) (lit ".py")).
    2:{ unfold ofRuntime. by rewrite bool_decide_eq_true_2. }
    destruct (List.filter _ files) as [|first rest] eqn:E.
    + left. rewrite (filter_nil_existsb _ _ E). by repeat split; eauto.
    + right. destruct (filter_cons_existsb _ _ _ _ E) as (-> & _).
      cbv zeta. cbn [length Nat.eqb Validation.isValid Validation.error
                     Validation.mainFile].
      split; [done|]. split; [done|]. split; [done|].
      apply (validated _ _ _ _ _ E python_named).
  - case_bool_decide as Hjs.
    + replace (ofRuntime language)
        with (fun f => endsWith (originalname f) (lit ".js")
                       || endsWith (originalname f) (lit ".ts")).
      2:{ unfold ofRuntime.
          by rewrite bool_decide_eq_false_2, bool_decide_eq_true_2. }
      destruct (List.filter _ files) as [|first rest] eqn:E.
      * left. rewrite (filter_nil_existsb _ _ E). by repeat split; eauto.
      * right. destruct (filter_cons_existsb _ _ _ _ E) as (-> & _).
        cbv zeta. cbn [length Nat.eqb Validation.isValid Validation.error
                       Validation.mainFile].
        split; [done|]. split; [done|]. split; [done|].
        apply (validated _ _ _ _ _ E js_named).
    + left. unfold ofRuntime.
      rewrite !bool_decide_eq_false_2 by done.
      split; [by induction files as [|? ? IH]|]. by repeat split; eauto.
Qed.

(** X26. An upload is valid exactly when the language is 'python' or
    'nodejs' and one of the files is a source file of that runtime; no
    warning makes it invalid. A valid upload has no error and its main
    file is one of the uploaded source files of the runtime; an invalid
    one has an error, no main file and no warnings. *)
Theorem validateBotFiles_verdict (files : list Upload) (language : str) :
  let v := validateBotFiles files language in
  Validation.isValid v = existsb (ofRuntime language) files
  /\ (Validation.isValid v = true ->
        Validation.error v = None
        /\ exists f, f ∈ files /\ ofRuntime language f = true
                     /\ Validation.mainFile v = Some (originalname f))
  /\ (Validation.isValid v = false ->
        is_Some (Validation.error v) /\ Validation.mainFile v = None
        /\ Validation.warnings v = None).
Proof.
  cbv zeta.
  destruct (validateBotFiles_cases files language)
    as [(-> & -> & He & Hm & Hw)|(-> & -> & He & f & Hf & Hrt & Hm & _)].
  - split; [done|]. split; [done|]. by intros _.
  - split; [done|]. split; [|done]. intros _. split; [done|]. by exists f.
Qed.

(** X27. The main file of a valid upload, stored with the bot as the
    route does, is the file that the choice of [startBot] returns when the
    workspace holds the uploaded files, whatever lists of common names the
    engine has for the runtime. *)
Theorem validated_main_file (files : list Upload) (language : str)
  (bot : Bot) (botDir : str) (isRuntimeFile : BotFile -> bool)
  (commonMainFiles : list str) (noneToExecute noneInWorkspace : string)
  (s : State) :
  Validation.isValid (validateBotFiles files language) = true ->
  mainFile bot = Validation.mainFile (validateBotFiles files language) ->
  (forall f, f ∈ files -> holds s botDir (originalname f)) ->
  exists main,
    Validation.mainFile (validateBotFiles files language) = Some main
    /\ resolveMainFile bot botDir (stored <$> files) isRuntimeFile
         commonMainFiles noneToExecute noneInWorkspace s
       = (Ok main, s).
Proof.
  intros Hvalid Hbot Hheld.
  destruct (validateBotFiles_cases files language)
    as [(_ & Hv & _)|(_ & _ & _ & f & Hf & _ & Hm & Hne)];
    [by rewrite Hvalid in Hv|].
  exists (originalname f). split; [done|].
  unfold resolveMainFile. rewrite Hbot, Hm. cbv zeta.
  destruct (originalname f) as [|c name] eqn:E; [done|]. cbn [falsy].
  unfold access, mbind, M_bind, gets. cbv beta iota.
  specialize (Hheld f Hf). rewrite E in Hheld. unfold holds, fileAt in Hheld.
  by rewrite bool_decide_eq_true_2.
Qed.

(** The upload of the started bot of the scenario. *)
Lemma validated_main_file_witness :
  resolveMainFile
    {| token := lit "T0K3N"; language := lit "python";
       mainFile := Some (lit "bot.py"); status := Status.stopped;
       processId := None; memoryUsage := lit "0MB"; cpuUsage := lit "0%";
       uptime := lit "0s"; lastStarted := None |}
    b1 [File (lit "bot.py") (lit "import discord")] isPythonFile
    pythonMainFiles "No Python files found to execute"
    "No Python files found in workspace" afterStart
  = (Ok (lit "bot.py"), afterStart).
Proof.
  destruct (validated_main_file
              [{| originalname := lit "bot.py";
                  buffer := lit "import discord" |}]
              (lit "python")
              {| token := lit "T0K3N"; language := lit "python";
                 mainFile := Some (lit "bot.py"); status := Status.stopped;
                 processId := None; memoryUsage := lit "0MB";
                 cpuUsage := lit "0%"; uptime := lit "0s";
                 lastStarted := None |}
              b1 isPythonFile pythonMainFiles
              "No Python files found to execute"
              "No Python files found in workspace" afterStart)
    as (main & Hmain & Hrun).
  - by vm_compute.
  - by vm_compute.
  - intros f ->%list_elem_of_singleton. vm_compute. eauto.
  - vm_compute in Hmain. injection Hmain as <-. exact Hrun.
Defined.

End ValidationProperties.
